(** * Resilient request gateway of the practice-exam backend

    A shallow embedding of the gateway layer of the backend
    (rate limiter, HTTPS policy, error envelope, retrying client,
    response sanitizer, score validation, audio cleanup) together with
    the properties its specification states about it.

    Conventions of the embedding.
    - A Python [str] is a Rocq [string]; a character stands for the code
      point of the same number, so the strings range over code points
      below 256.  Fixed message texts are carried as opaque literals.
    - [s.find(...)] returning [-1] is [None].
    - A Python [float] is its exact rational value ([Q]), or one of the
      non-finite values; where a sum or a difference of floats is read,
      it is rounded as binary64 arithmetic rounds it.
    - Paths and the filesystem are those of [pathlib] in Python 3.11 on
      Linux.
    - Time ([time.time()]) is an input of the functions that read it.
    - Shared mutable objects (the per-identity history, the filesystem,
      the log) are threaded as explicit state. *)

From Stdlib Require Import ZArith QArith Qround Qabs Lqa Ascii String DecimalString Sorted.
From stdpp Require Import gmap strings list.

Set Warnings "-register-all,-clear-no-such-hyp".

Local Open Scope string_scope.

(** ** Python string operations used by the sources *)

Module PyStr.

Definition ord (c : ascii) : N := N_of_ascii c.

(** [str.isspace] on one character, for code points below 256. *)
Definition isspace (c : ascii) : bool :=
  let n := ord c in
  ((9 <=? n) && (n <=? 13) || (28 <=? n) && (n <=? 32)
   || (n =? 133) || (n =? 160))%N.

Fixpoint lstrip (s : string) : string :=
  match s with
  | String c s' => if isspace c then lstrip s' else s
  | EmptyString => EmptyString
  end.

Fixpoint rstrip (s : string) : string :=
  match s with
  | String c s' =>
      match rstrip s' with
      | EmptyString => if isspace c then EmptyString else String c EmptyString
      | r => String c r
      end
  | EmptyString => EmptyString
  end.

(** [s.strip()] *)
Definition strip (s : string) : string := lstrip (rstrip s).

(** [s[n:]] for [n >= 0] *)
Fixpoint drop (n : nat) (s : string) : string :=
  match n, s with
  | S n', String _ s' => drop n' s'
  | _, _ => s
  end.

(** [s[:n]] for [n >= 0] *)
Fixpoint take (n : nat) (s : string) : string :=
  match n, s with
  | S n', String c s' => String c (take n' s')
  | _, _ => EmptyString
  end.

(** [s[i:j]] for [0 <= i], [0 <= j] *)
Definition slice (i j : nat) (s : string) : string := take (j - i) (drop i s).

(** [s.startswith(p)] *)
Fixpoint startswith (s p : string) : bool :=
  match p, s with
  | EmptyString, _ => true
  | String a p', String b s' => if Ascii.eqb a b then startswith s' p' else false
  | String _ _, EmptyString => false
  end.

(** [s.endswith(p)] *)
Definition endswith (s p : string) : bool :=
  (String.length p <=? String.length s)%nat
  && String.eqb (drop (String.length s - String.length p) s) p.

(** [s.find(p)]: the lowest index at which [p] occurs. *)
Fixpoint find (s p : string) : option nat :=
  if startswith s p then Some 0%nat
  else match s with
       | EmptyString => None
       | String _ s' => S <$> find s' p
       end.

(** [s.find(p, start)] for [0 <= start <= len(s)] *)
Definition find_from (s p : string) (start : nat) : option nat :=
  if (start <=? String.length s)%nat
  then (λ i, (start + i)%nat) <$> find (drop start s) p
  else None.

(** [p in s] *)
Definition contains (s p : string) : bool :=
  match find s p with Some _ => true | None => false end.

(** [s.rfind(c)] for a single character [c]: the highest index. *)
Fixpoint rfind_char (s : string) (c : ascii) : option nat :=
  match s with
  | EmptyString => None
  | String b s' =>
      match rfind_char s' c with
      | Some i => Some (S i)
      | None => if Ascii.eqb b c then Some 0%nat else None
      end
  end.

(** [s.split(sep)] for a single-character separator. *)
Fixpoint split_char (sep : ascii) (s : string) : list string :=
  match s with
  | EmptyString => [EmptyString]
  | String c s' =>
      if Ascii.eqb c sep then EmptyString :: split_char sep s'
      else match split_char sep s' with
           | w :: ws => String c w :: ws
           | [] => [String c EmptyString]
           end
  end.

(** [sep.join(parts)] *)
Fixpoint join (sep : string) (parts : list string) : string :=
  match parts with
  | [] => EmptyString
  | [w] => w
  | w :: ws => w +:+ sep +:+ join sep ws
  end.

(** [''.join(c for c in s if keep(c))] *)
Fixpoint filter_chars (keep : ascii → bool) (s : string) : string :=
  match s with
  | EmptyString => EmptyString
  | String c s' =>
      if keep c then String c (filter_chars keep s') else filter_chars keep s'
  end.

(** [parts[1:-1]] *)
Definition inner {A} (parts : list A) : list A :=
  List.removelast (List.tl parts).

(** [str(n)] for an integer *)
Definition str_int (n : Z) : string := NilZero.string_of_int (Z.to_int n).

(** The character [c] occurs in [s]. *)
Fixpoint has_char (c : ascii) (s : string) : bool :=
  match s with
  | EmptyString => false
  | String b s' => Ascii.eqb b c || has_char c s'
  end.

(** Every character of [s] satisfies [P]. *)
Fixpoint all_chars (P : ascii → bool) (s : string) : bool :=
  match s with
  | EmptyString => true
  | String b s' => P b && all_chars P s'
  end.

End PyStr.

(** ** Python number conversions *)

Module PyNum.

(** [int(x)] for a finite float: truncation toward zero. *)
Definition trunc (q : Q) : Z := Z.quot (Qnum q) (Z.pos (Qden q)).

End PyNum.

(** ** Python values, as produced by [json.loads] *)

Inductive pyfloat :=
| FFinite (q : Q)
| FInf (negative : bool)
| FNaN.

Inductive pyval :=
| PNone
| PBool (b : bool)
| PInt (z : Z)
| PFloat (f : pyfloat)
| PStr (s : string)
| PList (items : list pyval)
| PDict (items : list (string * pyval)).

(** ** Python floats: the rounding of sums and differences

    A float is a binary64 number.  The sum or difference of two floats
    is the binary64 number nearest to the exact result, the one with the
    even significand when two are equally near. *)

Module PyFloat.

(** [2 ** e] *)
Definition pow2 (e : Z) : Q :=
  match e with
  | Z.neg p => 1 # (2 ^ p)
  | _ => inject_Z (2 ^ e)
  end.

(** The floor of the binary logarithm of a positive rational. *)
Definition ilog2 (q : Q) : Z :=
  let e := (Z.log2 (Qnum q) - Z.log2 (Z.pos (Qden q)))%Z in
  if Qle_bool (pow2 e) q then e else (e - 1)%Z.

(** The nearest integer, the even one of two that are equally near. *)
Definition round_half_even (q : Q) : Z :=
  let f := Qfloor q in
  match (q - inject_Z f ?= 1 # 2)%Q with
  | Lt => f
  | Gt => (f + 1)%Z
  | Eq => if Z.even f then f else (f + 1)%Z
  end.

(** The number with 53 significant bits, and an exponent of -1022 at
    least, that is nearest to [q], as a fraction in lowest terms. *)
Definition nearest (q : Q) : Q :=
  if Qeq_bool q 0 then 0%Q
  else
    let e := Z.max (ilog2 (Qabs q)) (-1022) in
    let ulp := pow2 (e - 52) in
    Qred (inject_Z (round_half_even (q / ulp)) * ulp).

(** The largest binary64 number. *)
Definition max_float : Q := inject_Z ((2 ^ 53 - 1) * 2 ^ 971).

(** The float that an exact result becomes: an infinity beyond the
    largest binary64 number. *)
Definition round (q : Q) : pyfloat :=
  let r := nearest q in
  if Qle_bool (Qabs r) max_float then FFinite r else FInf (Qle_bool r 0).

(** [float(z)] for an int, as the arithmetic operators convert it: no
    float, and an [OverflowError], beyond the largest binary64 number. *)
Definition of_int (z : Z) : option Q :=
  let r := nearest (inject_Z z) in
  if Qle_bool (Qabs r) max_float then Some r else None.

(** [x + z] for a float [x] and an int [z] whose sum stays in range. *)
Definition add_int (x : Q) (z : Z) : Q := nearest (x + nearest (inject_Z z)).

(** [x < y] for a finite float [x]. *)
Definition lt (x : Q) (y : pyfloat) : bool :=
  match y with
  | FFinite q => negb (Qle_bool q x)
  | FInf negative => negb negative
  | FNaN => false
  end.

End PyFloat.

(** ** services/openai_client.py: the response sanitizer *)

Module Sanitizer.
Import PyStr.

Definition LF : string := String (ascii_of_nat 10) EmptyString.
Definition fence : string := "```".
Definition fence_json : string := "```json".

(** First branch of [_clean_json_response]: the content between
    [```json] and the next [```], stripped again. *)
Definition unwrap_json_fence (cleaned : string) : string :=
  if contains cleaned fence_json then
    match find cleaned fence_json with
    | Some start_idx0 =>
        let start_idx := (start_idx0 + String.length fence_json)%nat in
        match find_from cleaned fence start_idx with
        | Some end_idx => strip (slice start_idx end_idx cleaned)
        | None => cleaned
        end
    | None => cleaned
    end
  else cleaned.

(** Second branch: a text that starts and ends with a fence loses its
    first and last line when it has more than two lines. *)
Definition unwrap_bare_fence (cleaned : string) : string :=
  if startswith cleaned fence && endswith cleaned fence then
    let lines := split_char (ascii_of_nat 10) cleaned in
    if (2 <? List.length lines)%nat then join LF (inner lines) else cleaned
  else cleaned.

Definition keep_char (c : ascii) : bool :=
  (32 <=? ord c)%N || (ord c =? 10)%N || (ord c =? 13)%N || (ord c =? 9)%N.

Definition strip_control (cleaned : string) : string :=
  filter_chars keep_char cleaned.

Definition from_first_brace (cleaned : string) : string :=
  if negb (startswith cleaned "{") then
    match find cleaned "{" with
    | Some start_idx => drop start_idx cleaned
    | None => cleaned
    end
  else cleaned.

Definition to_last_brace (cleaned : string) : string :=
  if negb (endswith cleaned "}") then
    match rfind_char cleaned "}"%char with
    | Some end_idx => take (end_idx + 1) cleaned
    | None => cleaned
    end
  else cleaned.

Definition _clean_json_response (response : string) : string :=
  let cleaned := strip response in
  let cleaned := unwrap_json_fence cleaned in
  let cleaned := unwrap_bare_fence cleaned in
  let cleaned := strip_control cleaned in
  let cleaned := from_first_brace cleaned in
  let cleaned := to_last_brace cleaned in
  cleaned.

End Sanitizer.

(** ** [json.loads], after the decoder of the Python standard library

    Numbers with a fraction or an exponent become the exact rational
    they denote.  A [\u] escape above code point 255 leaves the range of
    strings of this development and is reported as [OutOfModel].  The
    recursion runs on fuel; [loads] never returns [OutOfFuel]. *)

Module Json.
Import PyStr.

Inductive error := JSONDecodeError | OutOfModel | OutOfFuel.

Definition res (A : Type) : Type := error + A.

Definition DQ : ascii := ascii_of_nat 34.
Definition BS : ascii := ascii_of_nat 92.

Definition is_ws (c : ascii) : bool :=
  let n := ord c in ((n =? 32) || (n =? 9) || (n =? 10) || (n =? 13))%N.

Fixpoint skip_ws (s : string) : string :=
  match s with
  | String c s' => if is_ws c then skip_ws s' else s
  | EmptyString => EmptyString
  end.

Definition digit (c : ascii) : option Z :=
  let n := ord c in
  if ((48 <=? n) && (n <=? 57))%N then Some (Z.of_N (n - 48)) else None.

Definition hexdigit (c : ascii) : option Z :=
  let n := ord c in
  if ((48 <=? n) && (n <=? 57))%N then Some (Z.of_N (n - 48))
  else if ((97 <=? n) && (n <=? 102))%N then Some (Z.of_N (n - 87))
  else if ((65 <=? n) && (n <=? 70))%N then Some (Z.of_N (n - 55))
  else None.

Definition hex4 (a b c d : ascii) : option Z :=
  match hexdigit a, hexdigit b, hexdigit c, hexdigit d with
  | Some x, Some y, Some z, Some w => Some (((x * 16 + y) * 16 + z) * 16 + w)%Z
  | _, _, _, _ => None
  end.

Definition chr (n : Z) : ascii := ascii_of_N (Z.to_N n).

(** The characters that may follow a backslash, and what they stand
    for. *)
Definition escape_char (e : ascii) : option ascii :=
  if Ascii.eqb e DQ then Some DQ
  else if Ascii.eqb e BS then Some BS
  else if Ascii.eqb e "/" then Some "/"%char
  else if Ascii.eqb e "b" then Some (ascii_of_nat 8)
  else if Ascii.eqb e "f" then Some (ascii_of_nat 12)
  else if Ascii.eqb e "n" then Some (ascii_of_nat 10)
  else if Ascii.eqb e "r" then Some (ascii_of_nat 13)
  else if Ascii.eqb e "t" then Some (ascii_of_nat 9)
  else None.

(** One more character in front of the body scanned so far. *)
Definition cons_char (x : ascii) (r : res (string * string)) : res (string * string) :=
  match r with
  | inr (body, rest) => inr (String x body, rest)
  | inl err => inl err
  end.

(** The body of a string literal, after its opening quote. *)
Fixpoint scanstring (s : string) : res (string * string) :=
  match s with
  | EmptyString => inl JSONDecodeError
  | String c s' =>
      if Ascii.eqb c DQ then inr (EmptyString, s')
      else if Ascii.eqb c BS then
        match s' with
        | String e s'' =>
            match escape_char e with
            | Some x => cons_char x (scanstring s'')
            | None =>
                if Ascii.eqb e "u" then
                  match s'' with
                  | String h1 (String h2 (String h3 (String h4 s3))) =>
                      match hex4 h1 h2 h3 h4 with
                      | Some uni =>
                          if (uni <? 256)%Z then cons_char (chr uni) (scanstring s3)
                          else inl OutOfModel
                      | None => inl JSONDecodeError
                      end
                  | _ => inl JSONDecodeError
                  end
                else inl JSONDecodeError
            end
        | EmptyString => inl JSONDecodeError
        end
      else if (ord c <? 32)%N then inl JSONDecodeError
      else cons_char c (scanstring s')
  end.

(** The longest run of decimal digits at the head of [s]: its value,
    its length and the rest. *)
Fixpoint digits (acc : Z) (len : nat) (s : string) : Z * nat * string :=
  match s with
  | String c s' =>
      match digit c with
      | Some d => digits (acc * 10 + d) (S len) s'
      | None => (acc, len, s)
      end
  | EmptyString => (acc, len, s)
  end.

(** The integer part of the number pattern: an optional minus sign,
    then a single zero or a digit run that starts with a non-zero digit. *)
Definition int_part (s : string) : option (bool * Z * string) :=
  let '(neg, s1) :=
    match s with
    | String c s' => if Ascii.eqb c "-" then (true, s') else (false, s)
    | EmptyString => (false, s)
    end in
  match s1 with
  | String c s2 =>
      match digit c with
      | Some 0%Z => Some (neg, 0%Z, s2)
      | Some d => let '(v, _, rest) := digits d 1 s2 in Some (neg, v, rest)
      | None => None
      end
  | EmptyString => None
  end.

(** The optional fraction, a dot and at least one digit: numerator and
    number of digits. *)
Definition frac_part (s : string) : option (Z * nat * string) :=
  match s with
  | String c s' =>
      if Ascii.eqb c "." then
        match digits 0 0 s' with
        | (_, O, _) => None
        | r => Some r
        end
      else None
  | EmptyString => None
  end.

(** The optional exponent: e or E, an optional sign, at least one digit. *)
Definition exp_part (s : string) : option (Z * string) :=
  match s with
  | String c s' =>
      if Ascii.eqb c "e" || Ascii.eqb c "E" then
        let '(neg, s1) :=
          match s' with
          | String g s'' =>
              if Ascii.eqb g "-" then (true, s'')
              else if Ascii.eqb g "+" then (false, s'')
              else (false, s')
          | EmptyString => (false, s')
          end in
        match digits 0 0 s1 with
        | (_, O, _) => None
        | (v, _, rest) => Some ((if neg then - v else v)%Z, rest)
        end
      else None
  | EmptyString => None
  end.

Definition pow10 (e : Z) : Q :=
  if (0 <=? e)%Z then inject_Z (10 ^ e) else 1 # Z.to_pos (10 ^ (- e)).

Definition scan_number (s : string) : option (pyval * string) :=
  match int_part s with
  | None => None
  | Some (neg, i, s1) =>
      let fr := frac_part s1 in
      let s2 := match fr with Some (_, _, r) => r | None => s1 end in
      let ex := exp_part s2 in
      let s3 := match ex with Some (_, r) => r | None => s2 end in
      match fr, ex with
      | None, None => Some (PInt (if neg then - i else i), s3)
      | _, _ =>
          let '(fnum, fden) :=
            match fr with
            | Some (n, k, _) => (n, Z.of_nat k)
            | None => (0%Z, 0%Z)
            end in
          let mant := (inject_Z i + inject_Z fnum * pow10 (- fden))%Q in
          let e := match ex with Some (v, _) => v | None => 0%Z end in
          let q := Qred (mant * pow10 e) in
          Some (PFloat (FFinite (if neg then - q else q)%Q), s3)
      end
  end.

(** [d[key] = value] on a dict kept in insertion order. *)
Fixpoint dict_set (items : list (string * pyval)) (key : string) (v : pyval)
  : list (string * pyval) :=
  match items with
  | [] => [(key, v)]
  | (k, w) :: items' =>
      if String.eqb k key then (k, v) :: items'
      else (k, w) :: dict_set items' key v
  end.

Definition literal (word : string) (v : pyval) (s : string)
  : option (pyval * string) :=
  if startswith s word then Some (v, drop (String.length word) s) else None.

(** [scan_once]: one value at the head of [s], and the text after it.
    [parse_array] and [parse_object] run after the opening bracket and
    the first element's leading white space. *)
Fixpoint scan_once (fuel : nat) (s : string) : res (pyval * string) :=
  match fuel with
  | O => inl OutOfFuel
  | S fuel' =>
      match s with
      | EmptyString => inl JSONDecodeError
      | String c s' =>
          if Ascii.eqb c DQ then
            match scanstring s' with
            | inr (body, rest) => inr (PStr body, rest)
            | inl err => inl err
            end
          else if Ascii.eqb c "{" then
            match skip_ws s' with
            | String c1 s1 =>
                if Ascii.eqb c1 "}" then inr (PDict [], s1)
                else parse_object fuel' [] (String c1 s1)
            | EmptyString => inl JSONDecodeError
            end
          else if Ascii.eqb c "[" then
            match skip_ws s' with
            | String c1 s1 =>
                if Ascii.eqb c1 "]" then inr (PList [], s1)
                else parse_array fuel' [] (String c1 s1)
            | EmptyString => inl JSONDecodeError
            end
          else
            let alternatives :=
              [ literal "null" PNone s; literal "true" (PBool true) s;
                literal "false" (PBool false) s; scan_number s;
                literal "NaN" (PFloat FNaN) s;
                literal "Infinity" (PFloat (FInf false)) s;
                literal "-Infinity" (PFloat (FInf true)) s ] in
            match List.find (λ o : option (pyval * string), bool_decide (is_Some o))
                    alternatives with
            | Some (Some r) => inr r
            | _ => inl JSONDecodeError
            end
      end
  end
with parse_array (fuel : nat) (acc : list pyval) (s : string)
  : res (pyval * string) :=
  match fuel with
  | O => inl OutOfFuel
  | S fuel' =>
      match scan_once fuel' s with
      | inl err => inl err
      | inr (v, rest) =>
          match skip_ws rest with
          | String c s1 =>
              if Ascii.eqb c "]" then inr (PList (acc ++ [v]), s1)
              else if Ascii.eqb c "," then
                parse_array fuel' (acc ++ [v]) (skip_ws s1)
              else inl JSONDecodeError
          | EmptyString => inl JSONDecodeError
          end
      end
  end
with parse_object (fuel : nat) (acc : list (string * pyval)) (s : string)
  : res (pyval * string) :=
  match fuel with
  | O => inl OutOfFuel
  | S fuel' =>
      match s with
      | String q s0 =>
          if Ascii.eqb q DQ then
            match scanstring s0 with
            | inl err => inl err
            | inr (key, rest) =>
                match skip_ws rest with
                | String c s1 =>
                    if Ascii.eqb c ":" then
                      match scan_once fuel' (skip_ws s1) with
                      | inl err => inl err
                      | inr (v, rest1) =>
                          let acc' := dict_set acc key v in
                          match skip_ws rest1 with
                          | String d s2 =>
                              if Ascii.eqb d "}" then inr (PDict acc', s2)
                              else if Ascii.eqb d "," then
                                parse_object fuel' acc' (skip_ws s2)
                              else inl JSONDecodeError
                          | EmptyString => inl JSONDecodeError
                          end
                      end
                    else inl JSONDecodeError
                | EmptyString => inl JSONDecodeError
                end
            end
          else inl JSONDecodeError
      | EmptyString => inl JSONDecodeError
      end
  end.

(** [json.loads(s)]: one value, white space around it, nothing else.
    Every level of nesting takes a character of the text and two units
    of fuel, so twice the length of the text is fuel enough. *)
Definition loads (s : string) : res pyval :=
  match scan_once (2 * String.length s + 2) (skip_ws s) with
  | inl err => inl err
  | inr (v, rest) =>
      match skip_ws rest with
      | EmptyString => inr v
      | String _ _ => inl JSONDecodeError
      end
  end.

End Json.

(** ** Requests and responses of the web framework *)

Module Http.

Definition lower_char (c : ascii) : ascii :=
  let n := PyStr.ord c in
  if ((65 <=? n) && (n <=? 90))%N then ascii_of_N (n + 32) else c.

Fixpoint lower (s : string) : string :=
  match s with
  | EmptyString => EmptyString
  | String c s' => String (lower_char c) (lower s')
  end.

(** Header names are case-insensitive: the store is keyed by the
    lower-cased name. *)
Definition headers_get (hs : gmap string string) (name dflt : string) : string :=
  default dflt (hs !! lower name).

Definition headers_set (hs : gmap string string) (name value : string)
  : gmap string string :=
  <[lower name := value]> hs.

Fixpoint headers_of (l : list (string * string)) : gmap string string :=
  match l with
  | [] => ∅
  | (k, v) :: l' => headers_set (headers_of l') k v
  end.

Record URL := {
  scheme : string;
  netloc : string;
  hostname : option string;
  path : string;
  query : string
}.

(** [url.replace(scheme=...)] *)
Definition replace_scheme (u : URL) (new_scheme : string) : URL :=
  {| scheme := new_scheme; netloc := netloc u; hostname := hostname u;
     path := path u; query := query u |}.

(** [str(url)] *)
Definition url_str (u : URL) : string :=
  scheme u +:+ "://" +:+ netloc u +:+ path u
  +:+ (if String.eqb (query u) "" then "" else "?" +:+ query u).

Record Request := {
  url : URL;
  req_headers : gmap string string;
  client : option string
}.

Inductive Body :=
| JsonBody (content : pyval)
| NoBody
| OtherBody (payload : string).

Record Response := {
  status_code : Z;
  headers : gmap string string;
  body : Body
}.

(** [JSONResponse(status_code, content, headers)] *)
Definition JSONResponse (status : Z) (content : pyval)
  (hs : list (string * string)) : Response :=
  {| status_code := status; headers := headers_of hs; body := JsonBody content |}.

(** [urllib.parse.quote(s, safe)]: a character outside the letters,
    the digits, [_.-~] and the safe ones becomes the bytes of its UTF-8
    encoding, each written as a per cent sign and two upper-case
    hexadecimal digits. *)
Definition hex_digit (n : N) : ascii :=
  ascii_of_N (if (n <? 10)%N then 48 + n else 55 + n).

Definition percent (n : N) : string :=
  String "%" (String (hex_digit (n / 16)) (String (hex_digit (n mod 16)) EmptyString)).

Definition always_safe (c : ascii) : bool :=
  let n := PyStr.ord c in
  ((65 <=? n) && (n <=? 90) || (97 <=? n) && (n <=? 122) || (48 <=? n) && (n <=? 57))%N
  || PyStr.has_char c "_.-~".

Definition quote_char (safe : string) (c : ascii) : string :=
  let n := PyStr.ord c in
  if (n <? 128)%N then
    if always_safe c || PyStr.has_char c safe then String c EmptyString else percent n
  else percent (192 + n / 64) +:+ percent (128 + n mod 64).

Fixpoint quote (s safe : string) : string :=
  match s with
  | EmptyString => EmptyString
  | String c s' => quote_char safe c +:+ quote s' safe
  end.

(** The characters [RedirectResponse] leaves as they are. *)
Definition redirect_safe : string := ":/%#?=@[]!$&'()*+,;".

(** [RedirectResponse(url, status_code)]: the Location header holds the
    quoted URL. *)
Definition RedirectResponse (url : string) (status : Z) : Response :=
  {| status_code := status;
     headers := headers_of [("location", quote url redirect_safe)];
     body := NoBody |}.

(** [response.headers[name] = value] *)
Definition with_header (r : Response) (name value : string) : Response :=
  {| status_code := status_code r;
     headers := headers_set (headers r) name value;
     body := body r |}.

End Http.

(** ** exceptions.py *)

Module Exceptions.

Inductive exc_class :=
| TOEFLAppException
| AuthenticationError
| ProblemGenerationError
| SpeechProcessingError
| ScoringError
| RateLimitExceededError
| ExternalAPIError
| ValidationError.

#[global] Instance exc_class_eq_dec : EqDecision exc_class.
Proof. solve_decision. Defined.

Record t := {
  cls : exc_class;
  message : string;
  user_message : string;
  error_code : option string;
  details : list (string * pyval);
  service : option string
}.

(** [x or d] for an optional string [x]: [None] and the empty string
    are falsy. *)
Definition or_str (x : option string) (d : string) : string :=
  match x with
  | Some (String c r) => String c r
  | _ => d
  end.

(** [TOEFLAppException.__init__] *)
Definition init (c : exc_class) (message : string) (user_message : option string)
  (error_code : option string) (details : option (list (string * pyval)))
  (service : option string) : t :=
  {| cls := c; message := message;
     user_message := or_str user_message message;
     error_code := error_code;
     details := default [] details;
     service := service |}.

Definition new_TOEFLAppException (message : string) (user_message error_code : option string)
  (details : option (list (string * pyval))) : t :=
  init TOEFLAppException message user_message error_code details None.

Definition new_AuthenticationError (message : string) (user_message : option string) : t :=
  init AuthenticationError message
    (Some (or_str user_message "ログインに失敗しました。もう一度お試しください。"))
    (Some "AUTH_ERROR") None None.

Definition new_ProblemGenerationError (message : string) (user_message : option string) : t :=
  init ProblemGenerationError message
    (Some (or_str user_message "問題の生成に失敗しました。もう一度お試しください。"))
    (Some "PROBLEM_GENERATION_ERROR") None None.

Definition new_SpeechProcessingError (message : string) (user_message : option string) : t :=
  init SpeechProcessingError message
    (Some (or_str user_message "音声の文字起こしに失敗しました。もう一度録音してください。"))
    (Some "SPEECH_PROCESSING_ERROR") None None.

Definition new_ScoringError (message : string) (user_message : option string) : t :=
  init ScoringError message
    (Some (or_str user_message "採点処理に失敗しました。もう一度お試しください。"))
    (Some "SCORING_ERROR") None None.

Definition new_RateLimitExceededError (message : string) (user_message : option string) : t :=
  init RateLimitExceededError message
    (Some (or_str user_message
             "リクエスト制限を超えました。しばらく待ってから再試行してください。"))
    (Some "RATE_LIMIT_EXCEEDED") None None.

Definition new_ExternalAPIError (service message : string) (user_message : option string) : t :=
  init ExternalAPIError (service +:+ " API Error: " +:+ message)
    (Some (or_str user_message
             "外部サービスとの通信に失敗しました。しばらく待ってから再試行してください。"))
    (Some "EXTERNAL_API_ERROR") (Some [("service", PStr service)]) (Some service).

Definition new_ValidationError (message : string) (user_message field : option string) : t :=
  init ValidationError message
    (Some (or_str user_message "入力データが正しくありません。"))
    (Some "VALIDATION_ERROR")
    (Some match field with
          | Some (String c r) => [("field", PStr (String c r))]
          | _ => []
          end)
    None.

(** Default values of the [message] parameters. *)
Definition default_message (c : exc_class) : string :=
  match c with
  | AuthenticationError => "Authentication failed"
  | ProblemGenerationError => "Problem generation failed"
  | SpeechProcessingError => "Speech processing failed"
  | ScoringError => "Scoring failed"
  | RateLimitExceededError => "Rate limit exceeded"
  | _ => ""
  end.

(** [str(exc)]: the single constructor argument handed to [Exception]. *)
Definition str (e : t) : string := message e.

End Exceptions.

(** The error classes of the provider's library the client names, by
    the most specific of them an exception belongs to:
    [RateLimitError] and [APITimeoutError] are subclasses of [APIError],
    which is a subclass of [OpenAIError]. *)
Inductive provider_class :=
| RateLimitError
| APITimeoutError
| APIError
| OpenAIError.

(** Python exceptions: the application's own, the framework's, the
    provider's, and any other class, with [type(e).__name__] and
    [str(e)]. *)
Inductive exn :=
| AppExc (e : Exceptions.t)
| HTTPExc (status : Z) (detail : string)
| RequestValidationExc (errors : list (string * string * string))
| ProviderExc (c : provider_class) (type_name : string) (text : string)
| OtherExc (type_name : string) (text : string).

(** ** middleware/error_handler.py *)

Module ErrorHandler.
Import Http.

Record ErrorResponse := {
  error_code : string;
  message : string;
  user_message : string;
  details : list (string * pyval);
  status : Z
}.

(** [ErrorResponse.__init__]; [details or {}] *)
Definition new_ErrorResponse (error_code message user_message : string)
  (details : option (list (string * pyval))) (status : Z) : ErrorResponse :=
  {| error_code := error_code; message := message; user_message := user_message;
     details := default [] details; status := status |}.

Definition to_dict (r : ErrorResponse) : pyval :=
  PDict [ ("error", PDict [ ("code", PStr (error_code r));
                            ("message", PStr (message r));
                            ("user_message", PStr (user_message r));
                            ("details", PDict (details r)) ]);
          ("detail", PStr (message r)) ].

Definition HTTP_400_BAD_REQUEST : Z := 400.
Definition HTTP_401_UNAUTHORIZED : Z := 401.
Definition HTTP_422_UNPROCESSABLE_ENTITY : Z := 422.
Definition HTTP_429_TOO_MANY_REQUESTS : Z := 429.
Definition HTTP_500_INTERNAL_SERVER_ERROR : Z := 500.
Definition HTTP_503_SERVICE_UNAVAILABLE : Z := 503.

Definition status_code_map : list (Exceptions.exc_class * Z) :=
  [ (Exceptions.AuthenticationError, HTTP_401_UNAUTHORIZED);
    (Exceptions.RateLimitExceededError, HTTP_429_TOO_MANY_REQUESTS);
    (Exceptions.ExternalAPIError, HTTP_503_SERVICE_UNAVAILABLE);
    (Exceptions.ValidationError, HTTP_400_BAD_REQUEST);
    (Exceptions.ProblemGenerationError, HTTP_500_INTERNAL_SERVER_ERROR);
    (Exceptions.SpeechProcessingError, HTTP_500_INTERNAL_SERVER_ERROR);
    (Exceptions.ScoringError, HTTP_500_INTERNAL_SERVER_ERROR) ].

(** [d.get(key, dflt)] *)
Fixpoint map_get {K V} `{EqDecision K} (d : list (K * V)) (key : K) (dflt : V) : V :=
  match d with
  | [] => dflt
  | (k, v) :: d' => if decide (k = key) then v else map_get d' key dflt
  end.

Definition toefl_exception_handler (exc : Exceptions.t) : Response :=
  let status_code :=
    map_get status_code_map (Exceptions.cls exc) HTTP_500_INTERNAL_SERVER_ERROR in
  let error_response :=
    new_ErrorResponse
      (Exceptions.or_str (Exceptions.error_code exc) "INTERNAL_ERROR")
      (Exceptions.message exc)
      (Exceptions.user_message exc)
      (Some (Exceptions.details exc))
      status_code in
  JSONResponse status_code (to_dict error_response) [].

Definition user_messages : list (Z * string) :=
  [ (400, "リクエストが正しくありません。");
    (401, "認証が必要です。");
    (403, "アクセスが拒否されました。");
    (404, "リソースが見つかりません。");
    (429, "リクエスト制限を超えました。しばらく待ってから再試行してください。");
    (500, "サーバーエラーが発生しました。");
    (503, "サービスが一時的に利用できません。") ]%Z.

Definition http_exception_handler (status_code : Z) (detail : string) : Response :=
  let user_message := map_get user_messages status_code "エラーが発生しました。" in
  let error_response :=
    new_ErrorResponse ("HTTP_" +:+ PyStr.str_int status_code) detail user_message
      None status_code in
  JSONResponse status_code (to_dict error_response) [].

Definition validation_exception_handler (errors : list (string * string * string))
  : Response :=
  let errors :=
    (λ e : string * string * string,
       let '(field, msg, ty) := e in
       PDict [("field", PStr field); ("message", PStr msg); ("type", PStr ty)])
      <$> errors in
  let error_response :=
    new_ErrorResponse "VALIDATION_ERROR" "Request validation failed"
      "入力データが正しくありません。入力内容を確認してください。"
      (Some [("validation_errors", PList errors)])
      HTTP_422_UNPROCESSABLE_ENTITY in
  JSONResponse HTTP_422_UNPROCESSABLE_ENTITY (to_dict error_response) [].

Definition generic_user_message : string :=
  "予期しないエラーが発生しました。しばらく待ってから再試行してください。".

Definition generic_exception_handler (type_name text : string) : Response :=
  let error_response :=
    new_ErrorResponse "INTERNAL_ERROR" ("Internal server error: " +:+ type_name)
      generic_user_message None HTTP_500_INTERNAL_SERVER_ERROR in
  JSONResponse HTTP_500_INTERNAL_SERVER_ERROR (to_dict error_response) [].

(** The handlers registered in main.py, chosen by the class of the
    exception. *)
Definition handle (e : exn) : Response :=
  match e with
  | AppExc exc => toefl_exception_handler exc
  | HTTPExc status_code detail => http_exception_handler status_code detail
  | RequestValidationExc errors => validation_exception_handler errors
  | ProviderExc _ type_name text => generic_exception_handler type_name text
  | OtherExc type_name text => generic_exception_handler type_name text
  end.

(** Lookup of [d[k1][k2]...] in a response body. *)
Fixpoint dict_get (d : list (string * pyval)) (key : string) : option pyval :=
  match d with
  | [] => None
  | (k, v) :: d' => if String.eqb k key then Some v else dict_get d' key
  end.

Definition field (v : option pyval) (key : string) : option pyval :=
  match v with
  | Some (PDict d) => dict_get d key
  | _ => None
  end.

Definition json_of (r : Response) : option pyval :=
  match body r with JsonBody v => Some v | _ => None end.

(** Some string of the value (a key or a leaf) contains [needle]. *)
Fixpoint mentions (needle : string) (v : pyval) : bool :=
  match v with
  | PStr s => PyStr.contains s needle
  | PList items => existsb (mentions needle) items
  | PDict items =>
      existsb (λ kv, PyStr.contains (fst kv) needle || mentions needle (snd kv)) items
  | _ => false
  end.

End ErrorHandler.

(** ** middleware/https_redirect.py *)

Module HttpsRedirect.
Import Http.

Section Dispatch.
(** [os.getenv("ENVIRONMENT")] and the rest of the application. *)
Variable ENVIRONMENT : option string.
Variable call_next : Request → Response.

Definition dispatch (request : Request) : Response :=
  let environment := default "development" ENVIRONMENT in
  if String.eqb environment "development"
     || bool_decide (hostname (url request) ∈ [Some "localhost"; Some "127.0.0.1"])
  then call_next request
  else
    let forwarded_proto := headers_get (req_headers request) "X-Forwarded-Proto" "" in
    if negb (String.eqb (scheme (url request)) "https")
       && negb (String.eqb forwarded_proto "https")
    then
      let https_url := replace_scheme (url request) "https" in
      RedirectResponse (url_str https_url) 301
    else call_next request.
End Dispatch.

End HttpsRedirect.

(** ** services/openai_client.py: the retrying generation call *)

Module Client.

(** [isinstance(e, c)] for an exception whose most specific listed
    class is [d]. *)
Definition subclass (d c : provider_class) : bool :=
  match c, d with
  | OpenAIError, _ => true
  | APIError, (RateLimitError | APITimeoutError | APIError) => true
  | RateLimitError, RateLimitError => true
  | APITimeoutError, APITimeoutError => true
  | _, _ => false
  end.

(** [retry_if_exception_type(types)] *)
Definition retry_if_exception_type (types : list provider_class) (e : exn) : bool :=
  match e with
  | ProviderExc d _ _ => existsb (subclass d) types
  | _ => false
  end.

(** [stop_after_attempt(n)] *)
Definition stop_after_attempt (n attempt_number : nat) : bool :=
  (n <=? attempt_number)%nat.

Section Retrying.
Context {A : Type}.
Variable stop : nat → bool.
Variable retry : exn → bool.
(** The decorated function; its argument is the number of the
    attempt, starting at 1. *)
Variable fn : nat → exn + A.

(** The loop of the [@retry(..., reraise=True)] decorator: run the
    function; return its result; on an exception that [retry]
    rejects, or once [stop] holds, raise that exception; otherwise
    wait and run again.  The second component counts the attempts
    made.  The waits are not part of the model. *)
Fixpoint retrying (fuel attempt_number : nat) : (exn + A) * nat :=
  match fn attempt_number with
  | inr v => (inr v, attempt_number)
  | inl e =>
      if negb (retry e) then (inl e, attempt_number)
      else if stop attempt_number then (inl e, attempt_number)
      else match fuel with
           | O => (inl e, attempt_number)
           | S fuel' => retrying fuel' (S attempt_number)
           end
  end.
End Retrying.

Section CallGpt4.
(** [self.client.chat.completions.create] at its n-th call: the text
    of the first choice, or the exception it raises. *)
Variable create : nat → exn + string.

(** The body of [call_gpt4]. *)
Definition call_gpt4_body (attempt_number : nat) : exn + string :=
  match create attempt_number with
  | inr result => inr result
  | inl (ProviderExc RateLimitError _ _) =>
      inl (AppExc (Exceptions.new_ExternalAPIError "OpenAI"
                     "Rate limit exceeded. Please try again later." None))
  | inl (ProviderExc APITimeoutError _ _) =>
      inl (AppExc (Exceptions.new_ExternalAPIError "OpenAI"
                     "Request timed out. Please try again." None))
  | inl (ProviderExc APIError _ text) =>
      inl (AppExc (Exceptions.new_ExternalAPIError "OpenAI"
                     ("API error: " +:+ text) None))
  | inl (ProviderExc OpenAIError _ text) =>
      inl (AppExc (Exceptions.new_ExternalAPIError "OpenAI"
                     ("Unexpected error: " +:+ text) None))
  | inl (AppExc e) =>
      inl (AppExc (Exceptions.new_ExternalAPIError "OpenAI"
                     ("Unexpected error: " +:+ Exceptions.str e) None))
  | inl (HTTPExc _ text) | inl (OtherExc _ text) =>
      inl (AppExc (Exceptions.new_ExternalAPIError "OpenAI"
                     ("Unexpected error: " +:+ text) None))
  | inl (RequestValidationExc _) =>
      inl (AppExc (Exceptions.new_ExternalAPIError "OpenAI"
                     "Unexpected error: " None))
  end.

Definition max_attempts : nat := 3.

(** [call_gpt4] under its decorator. *)
Definition call_gpt4 : (exn + string) * nat :=
  retrying (stop_after_attempt max_attempts)
    (retry_if_exception_type [RateLimitError; APITimeoutError; APIError])
    call_gpt4_body max_attempts 1.

(** [x in container], or the text of the [TypeError] it raises. *)
Definition py_in (x : string) (container : pyval) : string + bool :=
  match container with
  | PDict items => inr (existsb (λ kv, String.eqb (fst kv) x) items)
  | PList items =>
      inr (existsb (λ v, match v with PStr s => String.eqb s x | _ => false end) items)
  | PStr s => inr (PyStr.contains s x)
  | PNone => inl "argument of type 'NoneType' is not iterable"
  | PBool _ => inl "argument of type 'bool' is not iterable"
  | PInt _ => inl "argument of type 'int' is not iterable"
  | PFloat _ => inl "argument of type 'float' is not iterable"
  end.

Inductive outcome :=
| Return (v : pyval)
| Raise (e : exn)
| Unmodelled.

Definition required_fields : list string := ["lecture_script"; "question"].

(** The loop over the required fields; [None] when all are present. *)
Fixpoint check_fields (fields : list string) (problem_data : pyval) : option exn :=
  match fields with
  | [] => None
  | field :: fields' =>
      match py_in field problem_data with
      | inl text => Some (OtherExc "TypeError" text)
      | inr false =>
          Some (AppExc (Exceptions.new_ProblemGenerationError
                          ("Missing required field: " +:+ field) None))
      | inr true => check_fields fields' problem_data
      end
  end.

(** The [except] clauses of [generate_task4_problem], for an
    exception raised inside its [try]. *)
Definition task4_except (e : exn) : exn :=
  match e with
  | AppExc exc =>
      if decide (Exceptions.cls exc = Exceptions.ExternalAPIError) then e
      else AppExc (Exceptions.new_ProblemGenerationError
                     ("Failed to generate Task 4 problem: " +:+ Exceptions.str exc) None)
  | HTTPExc _ text | ProviderExc _ _ text | OtherExc _ text =>
      AppExc (Exceptions.new_ProblemGenerationError
                ("Failed to generate Task 4 problem: " +:+ text) None)
  | RequestValidationExc _ =>
      AppExc (Exceptions.new_ProblemGenerationError
                "Failed to generate Task 4 problem: " None)
  end.

(** What [generate_task4_problem] does with the text [response]
    returned by [call_gpt4]. *)
Definition parse_task4 (response : string) : outcome :=
  let cleaned_response := Sanitizer._clean_json_response response in
  match Json.loads cleaned_response with
  | inl Json.JSONDecodeError =>
      Raise (AppExc (Exceptions.new_ProblemGenerationError
                       "Failed to generate valid problem format" None))
  | inl Json.OutOfModel | inl Json.OutOfFuel => Unmodelled
  | inr problem_data =>
      match check_fields required_fields problem_data with
      | Some e => Raise (task4_except e)
      | None => Return problem_data
      end
  end.

Definition generate_task4_problem : outcome :=
  match fst call_gpt4 with
  | inl e => Raise (task4_except e)
  | inr response => parse_task4 response
  end.
End CallGpt4.

End Client.

(** ** services/scoring_service.py: score validation *)

Module Scoring.

(** [int(score)] for a float, or the exception it raises. *)
Definition int_of_float (f : pyfloat) : exn + Z :=
  match f with
  | FFinite q => inr (PyNum.trunc q)
  | FInf _ => inl (OtherExc "OverflowError" "cannot convert float infinity to integer")
  | FNaN => inl (OtherExc "ValueError" "cannot convert float NaN to integer")
  end.

(** [type(score)] as it prints. *)
Definition type_repr (v : pyval) : string :=
  match v with
  | PNone => "<class 'NoneType'>"
  | PBool _ => "<class 'bool'>"
  | PInt _ => "<class 'int'>"
  | PFloat _ => "<class 'float'>"
  | PStr _ => "<class 'str'>"
  | PList _ => "<class 'list'>"
  | PDict _ => "<class 'dict'>"
  end.

Definition ScoringError (message : string) : exn :=
  AppExc (Exceptions.new_ScoringError message None).

(** The range test on a value that passed [isinstance(score, int)]:
    an [int], or a [bool], which compares as 0 or 1. *)
Definition range_check (score : pyval) (as_int : Z) (shown field_name : string)
  : exn + pyval :=
  if ((as_int <? 0) || (4 <? as_int))%Z then
    inl (ScoringError ("Score for " +:+ field_name +:+ " must be between 0 and 4, got "
                       +:+ shown))
  else inr score.

Definition _validate_score (score : pyval) (field_name : string) : exn + pyval :=
  match score with
  | PNone => inl (ScoringError ("Missing required field: " +:+ field_name))
  | PFloat f =>
      match int_of_float f with
      | inl e => inl e
      | inr z => range_check (PInt z) z (PyStr.str_int z) field_name
      end
  | PInt z => range_check (PInt z) z (PyStr.str_int z) field_name
  | PBool b =>
      range_check (PBool b) (if b then 1 else 0)%Z (if b then "True" else "False") field_name
  | PStr _ | PList _ | PDict _ =>
      inl (ScoringError ("Invalid score type for " +:+ field_name
                         +:+ ": expected int, got " +:+ type_repr score))
  end.

(** The test of [OpenAIClient.score_response] on one score field that
    is present; [py_str] is Python's [str] on values. *)
Definition is_number (score : pyval) : bool :=
  match score with
  | PInt _ | PBool _ | PFloat _ => true
  | _ => false
  end.

Definition below_zero (score : pyval) : bool :=
  match score with
  | PInt z => (z <? 0)%Z
  | PFloat (FFinite q) => negb (Qle_bool 0 q)
  | PFloat (FInf negative) => negative
  | _ => false
  end.

Definition above_four (score : pyval) : bool :=
  match score with
  | PInt z => (4 <? z)%Z
  | PFloat (FFinite q) => negb (Qle_bool q 4)
  | PFloat (FInf negative) => negb negative
  | _ => false
  end.

Definition score_response_check (py_str : pyval → string) (field : string)
  (score : pyval) : option exn :=
  if negb (is_number score) || below_zero score || above_four score
  then Some (ScoringError ("Invalid score for " +:+ field +:+ ": " +:+ py_str score))
  else None.

End Scoring.

(** ** middleware/rate_limiter.py *)

Module RateLimiter.
Import Http.

(** [x < y] on timestamps *)
Definition Qltb (x y : Q) : bool := negb (Qle_bool y x).

Record RateLimitMiddleware := {
  requests_per_minute : Z;
  window_size : Z;
  request_history : gmap string (list Q)
}.

Definition default_requests_per_minute : Z := 100.

(** [__init__] *)
Definition init (requests_per_minute : Z) : RateLimitMiddleware :=
  {| requests_per_minute := requests_per_minute;
     window_size := 60;
     request_history := ∅ |}.

(** [self.request_history[user_id]] on the [defaultdict(list)] *)
Definition history_of (self : RateLimitMiddleware) (user_id : string) : list Q :=
  default [] (request_history self !! user_id).

Definition set_history (self : RateLimitMiddleware) (user_id : string) (l : list Q)
  : RateLimitMiddleware :=
  {| requests_per_minute := requests_per_minute self;
     window_size := window_size self;
     request_history := <[user_id := l]> (request_history self) |}.

Definition _get_user_identifier (request : Request) : string :=
  let auth_header := headers_get (req_headers request) "Authorization" "" in
  if negb (String.eqb auth_header "") && PyStr.startswith auth_header "Bearer "
  then PyStr.drop 7 auth_header
  else
    let forwarded_for := headers_get (req_headers request) "X-Forwarded-For" "" in
    let client_ip :=
      if negb (String.eqb forwarded_for "")
      then PyStr.strip (hd "" (PyStr.split_char "," forwarded_for))
      else match client request with
           | Some host => host
           | None => "unknown"
           end in
    "ip:" +:+ client_ip.

(** [_clean_old_requests].  The cutoff is written as the exact
    difference: for the times of a clock, binary64 numbers from 0 to
    below 2^55, the float difference selects the same timestamps (from
    60 on it is exact, and below 60 both are negative). *)
Definition _clean_old_requests (self : RateLimitMiddleware) (user_id : string)
  (current_time : Q) : RateLimitMiddleware :=
  let cutoff_time := (current_time - inject_Z (window_size self))%Q in
  set_history self user_id
    (List.filter (λ ts, Qltb cutoff_time ts) (history_of self user_id)).

Definition _is_rate_limited (self : RateLimitMiddleware) (user_id : string)
  (current_time : Q) : RateLimitMiddleware * (bool * Z) :=
  let self := _clean_old_requests self user_id current_time in
  let request_count := Z.of_nat (List.length (history_of self user_id)) in
  let is_limited := (requests_per_minute self <=? request_count)%Z in
  let remaining := Z.max 0 (requests_per_minute self - request_count) in
  (self, (is_limited, remaining)).

Definition exempt_paths : list string := ["/"; "/health"; "/docs"; "/openapi.json"].

(** [str(int(x))] for a timestamp *)
Definition str_int_of (x : Q) : string := PyStr.str_int (PyNum.trunc x).

(** [str(int(current_time + self.window_size))]: the sum is taken in
    floats, before the truncation.  The window size is 60 in every
    instance, and the sum with the time of a clock stays in range. *)
Definition reset_time (self : RateLimitMiddleware) (current_time : Q) : string :=
  str_int_of (PyFloat.add_int current_time (window_size self)).

Definition limited_response (self : RateLimitMiddleware) (current_time : Q) : Response :=
  JSONResponse ErrorHandler.HTTP_429_TOO_MANY_REQUESTS
    (PDict [ ("detail",
              PStr "リクエスト制限を超えました。しばらく待ってから再試行してください。");
             ("error", PStr "rate_limit_exceeded");
             ("retry_after", PInt (window_size self)) ])
    [ ("Retry-After", PyStr.str_int (window_size self));
      ("X-RateLimit-Limit", PyStr.str_int (requests_per_minute self));
      ("X-RateLimit-Remaining", "0");
      ("X-RateLimit-Reset", reset_time self current_time) ].

Section Dispatch.
Variable call_next : Request → Response.

(** [dispatch], with [time.time()] read as [current_time]. *)
Definition dispatch (self : RateLimitMiddleware) (request : Request)
  (current_time : Q) : Response * RateLimitMiddleware :=
  if bool_decide (path (url request) ∈ exempt_paths) then (call_next request, self)
  else
    let user_id := _get_user_identifier request in
    let '(self, (is_limited, remaining)) :=
      _is_rate_limited self user_id current_time in
    if is_limited then (limited_response self current_time, self)
    else
      let self := set_history self user_id (history_of self user_id ++ [current_time]) in
      let response := call_next request in
      let response :=
        with_header response "X-RateLimit-Limit"
          (PyStr.str_int (requests_per_minute self)) in
      let response :=
        with_header response "X-RateLimit-Remaining" (PyStr.str_int (remaining - 1)) in
      let response :=
        with_header response "X-RateLimit-Reset" (reset_time self current_time) in
      (response, self).

(** A sequential run: the same request arriving at the given times,
    each arrival handled before the next.  The result lists the
    responses in the order of arrival. *)
Fixpoint run (self : RateLimitMiddleware) (request : Request) (times : list Q)
  : list Response * RateLimitMiddleware :=
  match times with
  | [] => ([], self)
  | t :: times' =>
      let r := dispatch self request t in
      let rs := run (snd r) request times' in
      (fst r :: fst rs, snd rs)
  end.
End Dispatch.

End RateLimiter.

(** ** pathlib: pure paths on POSIX, as Python 3.11 parses them *)

Module PathLib.

(** A path: its root (none, one slash or two) and its parts below the
    root. *)
Record PurePath := {
  root : string;
  parts : list string
}.

(** [part.lstrip("/")] *)
Fixpoint lstrip_slash (s : string) : string :=
  match s with
  | String c s' => if Ascii.eqb c "/" then lstrip_slash s' else s
  | EmptyString => EmptyString
  end.

(** [splitroot]: two leading slashes, and not more, are a root of their
    own. *)
Definition splitroot (part : string) : string * string :=
  if PyStr.startswith part "/" then
    let stripped_part := lstrip_slash part in
    if (String.length part - String.length stripped_part =? 2)%nat
    then ("//", stripped_part)
    else ("/", stripped_part)
  else ("", part).

(** [x and x != '.'] *)
Definition is_part (x : string) : bool :=
  negb (String.eqb x "") && negb (String.eqb x ".").

(** [Path(s)]: empty parts and single dots are dropped. *)
Definition Path (s : string) : PurePath :=
  let '(root, rel) := splitroot s in
  {| root := root; parts := List.filter is_part (PyStr.split_char "/" rel) |}.

(** [str(path)] *)
Definition str (p : PurePath) : string :=
  match root p, parts p with
  | EmptyString, [] => "."
  | r, ps => r +:+ PyStr.join "/" ps
  end.

(** [path / key]: a key with a root of its own replaces the path. *)
Definition joinpath (p : PurePath) (key : string) : PurePath :=
  let q := Path key in
  if String.eqb (root q) "" then {| root := root p; parts := parts p ++ parts q |}
  else q.

(** The path of the entry [name] of a directory, as [glob] makes it. *)
Definition child (p : PurePath) (name : string) : PurePath :=
  {| root := root p; parts := parts p ++ [name] |}.

(** [path.name] *)
Definition name (p : PurePath) : string := List.last (parts p) "".

End PathLib.

(** ** The filesystem

    The files by the list of names that leads to them from the root
    directory, with the working directory of the process.  A path is
    resolved name by name as the system does it; symbolic links are not
    part of the model.  The limits are those of Linux. *)

Module Fs.
Import PathLib.

Inductive file_kind := RegularFile | Directory | OtherKind.

#[global] Instance file_kind_eq_dec : EqDecision file_kind.
Proof. solve_decision. Defined.

(** An error of a system call: its number and its text. *)
Definition errno : Type := Z * string.

Definition EPERM : errno := (1%Z, "Operation not permitted").
Definition ENOENT : errno := (2%Z, "No such file or directory").
Definition EBADF : errno := (9%Z, "Bad file descriptor").
Definition EACCES : errno := (13%Z, "Permission denied").
Definition ENOTDIR : errno := (20%Z, "Not a directory").
Definition EISDIR : errno := (21%Z, "Is a directory").
Definition ENAMETOOLONG : errno := (36%Z, "File name too long").
Definition ELOOP : errno := (40%Z, "Too many levels of symbolic links").

(** The exceptions of the calls made here. *)
Inductive exc :=
| OSError (e : errno) (filename : string)
| ValueError (text : string)
| OverflowError (text : string).

(** [isinstance(e, PermissionError)] *)
Definition is_permission_error (e : exc) : bool :=
  match e with
  | OSError (n, _) _ => (n =? 1)%Z || (n =? 13)%Z
  | _ => false
  end.

Definition DQ : ascii := ascii_of_nat 34.
Definition SQ : ascii := ascii_of_nat 39.
Definition BACKSLASH : ascii := ascii_of_nat 92.
Definition NUL : ascii := ascii_of_nat 0.

Definition hex_lower (n : N) : ascii :=
  ascii_of_N (if (n <? 10)%N then 48 + n else 87 + n).

Definition escape_hex (n : N) : string :=
  String BACKSLASH
    (String "x" (String (hex_lower (n / 16)) (String (hex_lower (n mod 16)) EmptyString))).

(** One character inside [repr(s)]. *)
Definition escape (quote c : ascii) : string :=
  let n := PyStr.ord c in
  if Ascii.eqb c quote || Ascii.eqb c BACKSLASH then String BACKSLASH (String c EmptyString)
  else if (n =? 9)%N then String BACKSLASH "t"
  else if (n =? 10)%N then String BACKSLASH "n"
  else if (n =? 13)%N then String BACKSLASH "r"
  else if (n <? 32)%N || (n =? 127)%N then escape_hex n
  else if (n <? 127)%N then String c EmptyString
  else if (n <=? 160)%N || (n =? 173)%N then escape_hex n
  else String c EmptyString.

Fixpoint escape_all (quote : ascii) (s : string) : string :=
  match s with
  | EmptyString => EmptyString
  | String c s' => escape quote c +:+ escape_all quote s'
  end.

(** [repr(s)] for a string. *)
Definition repr (s : string) : string :=
  let quote := if PyStr.has_char SQ s && negb (PyStr.has_char DQ s) then DQ else SQ in
  String quote (escape_all quote s +:+ String quote EmptyString).

(** [str(e)] *)
Definition exc_str (e : exc) : string :=
  match e with
  | OSError (n, text) filename =>
      "[Errno " +:+ PyStr.str_int n +:+ "] " +:+ text +:+ ": " +:+ repr filename
  | ValueError text | OverflowError text => text
  end.

(** What lies at a place: its kind, its modification time, and the
    error, if any, with which the system answers when the process looks
    at it, unlinks it, looks a name up in it or lists it (the last two
    for a directory: without the permission to search it, or to read
    it, the error is [EACCES]). *)
Record node := {
  kind : file_kind;
  st_mtime : Q;
  stat_error : option errno;
  unlink_error : option errno;
  search_error : option errno;
  scandir_error : option errno
}.

Inductive level := INFO | WARNING | ERROR.

(** The world: the working directory (one of the directories among the
    files), the files, and the log written so far. *)
Record world := {
  cwd : list string;
  files : gmap (list string) node;
  log : list (level * string)
}.

Definition logger (lv : level) (msg : string) (w : world) : world :=
  {| cwd := cwd w; files := files w; log := log w ++ [(lv, msg)] |}.

Definition NAME_MAX : nat := 255.
Definition PATH_MAX : nat := 4096.

(** The length of a string in bytes, in UTF-8. *)
Fixpoint byte_length (s : string) : nat :=
  match s with
  | EmptyString => 0
  | String c s' => (if (PyStr.ord c <? 128)%N then 1 else 2) + byte_length s'
  end.

(** Looking a name up in [dir]: [dir] has to be a directory that the
    process may search. *)
Definition enter (w : world) (dir : list string) : errno + unit :=
  match files w !! dir with
  | None => inl ENOENT
  | Some n =>
      match kind n with
      | Directory =>
          match search_error n with
          | Some e => inl e
          | None => inr tt
          end
      | _ => inl ENOTDIR
      end
  end.

(** The place that the names lead to from [dir]; nothing need lie at
    the last of them. *)
Fixpoint walk (w : world) (dir : list string) (names : list string)
  : errno + list string :=
  match names with
  | [] => inr dir
  | name :: names' =>
      match enter w dir with
      | inl e => inl e
      | inr _ =>
          if String.eqb name "." then walk w dir names'
          else if String.eqb name ".." then walk w (List.removelast dir) names'
          else if (NAME_MAX <? byte_length name)%nat then inl ENAMETOOLONG
          else walk w (dir ++ [name]) names'
      end
  end.

(** The names that the system reads in [str(path)], and where it starts
    from. *)
Definition names_of (p : PurePath) : list string :=
  match root p, parts p with
  | EmptyString, [] => ["."]
  | _, ps => ps
  end.

Definition start (w : world) (p : PurePath) : list string :=
  if String.eqb (root p) "" then cwd w else [].

(** The place that a path names and what lies there. *)
Definition locate (w : world) (p : PurePath) : exc + (list string * node) :=
  let text := str p in
  if PyStr.has_char NUL text then inl (ValueError "embedded null byte")
  else if (PATH_MAX <=? byte_length text)%nat then inl (OSError ENAMETOOLONG text)
  else
    match walk w (start w p) (names_of p) with
    | inl e => inl (OSError e text)
    | inr key =>
        match files w !! key with
        | None => inl (OSError ENOENT text)
        | Some n => inr (key, n)
        end
    end.

(** [path.stat()] *)
Definition stat (w : world) (p : PurePath) : exc + node :=
  match locate w p with
  | inl e => inl e
  | inr (_, n) =>
      match stat_error n with
      | Some e => inl (OSError e (str p))
      | None => inr n
      end
  end.

(** The errors that [exists], [is_file] and [is_dir] take for an
    absent file: [ENOENT], [ENOTDIR], [EBADF], [ELOOP], and a path that
    cannot be given to the system. *)
Definition ignored (e : exc) : bool :=
  match e with
  | OSError (n, _) _ => bool_decide (n ∈ [2; 20; 9; 40]%Z)
  | ValueError _ => true
  | OverflowError _ => false
  end.

(** [path.exists()] *)
Definition exists_ (w : world) (p : PurePath) : exc + bool :=
  match stat w p with
  | inr _ => inr true
  | inl e => if ignored e then inr false else inl e
  end.

(** [path.is_file()] *)
Definition is_file (w : world) (p : PurePath) : exc + bool :=
  match stat w p with
  | inr n => inr (bool_decide (kind n = RegularFile))
  | inl e => if ignored e then inr false else inl e
  end.

(** [path.is_dir()] *)
Definition is_dir (w : world) (p : PurePath) : exc + bool :=
  match stat w p with
  | inr n => inr (bool_decide (kind n = Directory))
  | inl e => if ignored e then inr false else inl e
  end.

(** [path.stat().st_mtime] *)
Definition stat_mtime (w : world) (p : PurePath) : exc + Q :=
  match stat w p with
  | inr n => inr (st_mtime n)
  | inl e => inl e
  end.

(** [path.unlink()] *)
Definition unlink (w : world) (p : PurePath) : exc + world :=
  match locate w p with
  | inl e => inl e
  | inr (key, n) =>
      match kind n with
      | Directory => inl (OSError EISDIR (str p))
      | _ =>
          match unlink_error n with
          | Some e => inl (OSError e (str p))
          | None =>
              inr {| cwd := cwd w; files := delete key (files w); log := log w |}
          end
      end
  end.

(** The names a directory can hold. *)
Definition valid_name (name : string) : bool :=
  negb (String.eqb name "") && negb (String.eqb name ".") && negb (String.eqb name "..")
  && negb (PyStr.has_char "/" name) && negb (PyStr.has_char NUL name)
  && (byte_length name <=? NAME_MAX)%nat.

(** The name of the place [key] inside [dir], when it is an entry of
    it. *)
Definition entry_name (dir key : list string) : option string :=
  match key with
  | [] => None
  | _ =>
      let name := List.last key "" in
      if bool_decide (List.removelast key = dir) && valid_name name then Some name
      else None
  end.

Definition entries (w : world) (dir : list string) : list string :=
  omap (entry_name dir) (fst <$> map_to_list (files w)).

(** [os.scandir(path)], read to its end. *)
Definition scandir (w : world) (p : PurePath) : exc + list string :=
  match locate w p with
  | inl e => inl e
  | inr (key, n) =>
      match kind n with
      | Directory =>
          match scandir_error n with
          | Some e => inl (OSError e (str p))
          | None => inr (entries w key)
          end
      | _ => inl (OSError ENOTDIR (str p))
      end
  end.

End Fs.

(** ** utils/audio_cleanup.py *)

Module AudioCleanup.
Import PathLib Fs.

(** The [try] block of [cleanup_audio_file]. *)
Definition cleanup_body (w : world) (file_path : string) : (exc + bool) * world :=
  if String.eqb file_path "" then
    (inr false, logger WARNING "cleanup_audio_file called with empty file_path" w)
  else
    let path := Path file_path in
    match exists_ w path with
    | inl e => (inl e, w)
    | inr false =>
        (inr true,
         logger INFO ("Audio file does not exist (already deleted?): " +:+ file_path) w)
    | inr true =>
        match is_file w path with
        | inl e => (inl e, w)
        | inr false => (inr false, logger WARNING ("Path is not a file: " +:+ file_path) w)
        | inr true =>
            match unlink w path with
            | inl e => (inl e, w)
            | inr w' =>
                (inr true,
                 logger INFO ("Successfully deleted audio file: " +:+ file_path) w')
            end
        end
    end.

(** [cleanup_audio_file]: the value returned or the exception that
    leaves the function, and the world afterwards. *)
Definition cleanup_audio_file (w : world) (file_path : string) : (exc + bool) * world :=
  match cleanup_body w file_path with
  | (inr b, w') => (inr b, w')
  | (inl e, w') =>
      if is_permission_error e then
        (inr false,
         logger ERROR ("Permission denied when deleting audio file " +:+ file_path
                       +:+ ": " +:+ exc_str e) w')
      else
        (inr false,
         logger ERROR ("Error deleting audio file " +:+ file_path +:+ ": "
                       +:+ exc_str e) w')
  end.

Section Environment.
(** [os.getenv("AUDIO_STORAGE_PATH")] *)
Variable AUDIO_STORAGE_PATH : option string.

(** The storage path of a call: the argument, or the one of the
    environment when the argument is [None]. *)
Definition storage_of (audio_storage_path : option string) : string :=
  match audio_storage_path with
  | Some p => p
  | None => default "backend/audio_files" AUDIO_STORAGE_PATH
  end.

(** [schedule_audio_cleanup]: the value returned and the world
    afterwards. *)
Definition schedule_audio_cleanup (w : world) (session_id : string)
  (audio_storage_path : option string) : bool * world :=
  let audio_storage_path := storage_of audio_storage_path in
  let audio_file :=
    joinpath (Path audio_storage_path) ("lecture_" +:+ session_id +:+ ".mp3") in
  let failed (e : exc) (w : world) :=
    (false,
     logger ERROR ("Error scheduling audio cleanup for session " +:+ session_id +:+ ": "
                   +:+ exc_str e) w) in
  match exists_ w audio_file with
  | inl e => failed e w
  | inr true =>
      match cleanup_audio_file w (str audio_file) with
      | (inr true, w') =>
          (true, logger INFO ("Cleaned up audio for session: " +:+ session_id) w')
      | (inr false, w') => (false, w')
      | (inl e, w') => failed e w'
      end
  | inr false => (true, logger INFO ("No audio file found for session: " +:+ session_id) w)
  end.

(** The pattern [lecture_*.mp3] on a file name. *)
Definition glob_match (name : string) : bool :=
  PyStr.startswith name "lecture_"
  && PyStr.endswith (PyStr.drop (String.length "lecture_") name) ".mp3".

(** [storage_path.glob("lecture_*.mp3")], as the loop receives it: the
    directory is listed once, when the loop starts; a path that is not
    a directory, or a directory that the process may not read, has no
    entries. *)
Definition glob (w : world) (storage_path : PurePath) : exc + list PurePath :=
  match is_dir w storage_path with
  | inl e => inl e
  | inr false => inr []
  | inr true =>
      match scandir w storage_path with
      | inl e => if is_permission_error e then inr [] else inl e
      | inr names => inr (child storage_path <$> List.filter glob_match names)
      end
  end.

(** [time.time() - (max_age_hours * 3600)]: the int becomes a float,
    and the difference is a float. *)
Definition cutoff (now : Q) (max_age_hours : Z) : exc + pyfloat :=
  match PyFloat.of_int (max_age_hours * 3600) with
  | None => inl (OverflowError "int too large to convert to float")
  | Some seconds => inr (PyFloat.round (now - seconds))
  end.

(** The [for] loop of [cleanup_old_audio_files]. *)
Fixpoint sweep (cutoff_time : pyfloat) (audio_files : list PurePath) (w : world)
  (deleted_count : nat) : nat * world :=
  match audio_files with
  | [] => (deleted_count, w)
  | audio_file :: rest =>
      let failed (e : exc) (w : world) :=
        logger ERROR ("Error checking/deleting file " +:+ str audio_file +:+ ": "
                      +:+ exc_str e) w in
      match stat_mtime w audio_file with
      | inl e => sweep cutoff_time rest (failed e w) deleted_count
      | inr file_mtime =>
          if PyFloat.lt file_mtime cutoff_time then
            match cleanup_audio_file w (str audio_file) with
            | (inr true, w') =>
                sweep cutoff_time rest
                  (logger INFO ("Deleted old audio file: " +:+ name audio_file) w')
                  (S deleted_count)
            | (inr false, w') => sweep cutoff_time rest w' deleted_count
            | (inl e, w') => sweep cutoff_time rest (failed e w') deleted_count
            end
          else sweep cutoff_time rest w deleted_count
      end
  end.

Definition default_max_age_hours : Z := 24.

(** [cleanup_old_audio_files], with [time.time()] read as [now]: the
    number returned and the world afterwards. *)
Definition cleanup_old_audio_files (w : world) (audio_storage_path : option string)
  (max_age_hours : Z) (now : Q) : nat * world :=
  let audio_storage_path := storage_of audio_storage_path in
  let storage_path := Path audio_storage_path in
  let failed (e : exc) :=
    (O, logger ERROR ("Error in cleanup_old_audio_files: " +:+ exc_str e) w) in
  match exists_ w storage_path with
  | inl e => failed e
  | inr false =>
      (O, logger WARNING ("Audio storage path does not exist: " +:+ audio_storage_path) w)
  | inr true =>
      match cutoff now max_age_hours with
      | inl e => failed e
      | inr cutoff_time =>
          match glob w storage_path with
          | inl e => failed e
          | inr audio_files =>
              let '(deleted_count, w') := sweep cutoff_time audio_files w O in
              (deleted_count,
               logger INFO ("Cleanup complete: deleted "
                            +:+ PyStr.str_int (Z.of_nat deleted_count)
                            +:+ " old audio files") w')
          end
      end
  end.

End Environment.

End AudioCleanup.

(** ** A storage directory used by the examples *)

Module Disk.
Import Fs.

Definition plain_file (mtime : Q) : node :=
  {| kind := RegularFile; st_mtime := mtime; stat_error := None; unlink_error := None;
     search_error := None; scandir_error := None |}.

(** A file in a directory that the process may not write. *)
Definition locked_file (mtime : Q) : node :=
  {| kind := RegularFile; st_mtime := mtime; stat_error := None;
     unlink_error := Some EACCES; search_error := None; scandir_error := None |}.

Definition directory : node :=
  {| kind := Directory; st_mtime := 0; stat_error := None; unlink_error := None;
     search_error := None; scandir_error := None |}.

(** A directory that the process may not search. *)
Definition closed_directory : node :=
  {| kind := Directory; st_mtime := 0; stat_error := None; unlink_error := None;
     search_error := Some EACCES; scandir_error := Some EACCES |}.

(** The working directory /srv/app with the storage directory audio:
    an old lecture file, a recent one, an old file of another name, an
    old lecture file that cannot be unlinked, and a directory that
    cannot be searched. *)
Definition storage : world :=
  {| cwd := ["srv"; "app"];
     files :=
       list_to_map
         [ ([], directory);
           (["srv"], directory);
           (["srv"; "app"], directory);
           (["srv"; "app"; "audio"], directory);
           (["srv"; "app"; "audio"; "lecture_old.mp3"], plain_file 1000);
           (["srv"; "app"; "audio"; "lecture_new.mp3"], plain_file 200000);
           (["srv"; "app"; "audio"; "notes_old.mp3"], plain_file 1000);
           (["srv"; "app"; "audio"; "lecture_locked.mp3"], locked_file 1000);
           (["srv"; "app"; "private"], closed_directory) ];
     log := [] |}.

(** The root directory alone. *)
Definition empty_world : world :=
  {| cwd := []; files := {[ [] := directory ]}; log := [] |}.

(** A name of 300 letters. *)
Fixpoint letters (n : nat) : string :=
  match n with
  | O => EmptyString
  | S n' => String "a" (letters n')
  end.

Definition long_name : string := letters 300.

End Disk.


(** * Concrete inputs used by the examples *)

Module Inputs.
Import Http.

Definition plain_url (host : string) : URL :=
  {| scheme := "http"; netloc := host; hostname := Some host;
     path := "/api/problems"; query := "task=4" |}.

Definition plain_request (host : string) : Request :=
  {| url := plain_url host; req_headers := ∅; client := Some "203.0.113.7" |}.

Definition forwarded_request (host : string) : Request :=
  {| url := plain_url host;
     req_headers := headers_of [("X-Forwarded-Proto", "https")];
     client := Some "203.0.113.7" |}.

(** A downstream application that answers every request with 200. *)
Definition ok_app (request : Request) : Response :=
  JSONResponse 200 (PDict [("message", PStr "success")]) [].

(** A provider that is throttled twice and then answers. *)
Definition flaky_provider (attempt_number : nat) : exn + string :=
  if (attempt_number <? 3)%nat
  then inl (ProviderExc RateLimitError "RateLimitError" "Error code: 429")
  else inr "generated text".

(** A provider that times out at every call. *)
Definition timing_out_provider (attempt_number : nat) : exn + string :=
  inl (ProviderExc APITimeoutError "APITimeoutError" "Request timed out.").

(** A provider whose library rejects the request before sending it. *)
Definition malformed_provider (attempt_number : nat) : exn + string :=
  inl (OtherExc "TypeError" "Missing required arguments").

Definition quoted (s : string) : string :=
  String Json.DQ s +:+ String Json.DQ EmptyString.

(** The fenced answer of the specification's test list: a [json] fence,
    the object with the one member a = 1, and a trailing note. *)
Definition fenced_answer : string :=
  "```json" +:+ Sanitizer.LF +:+ "{" +:+ quoted "a" +:+ ":1}" +:+ Sanitizer.LF
  +:+ "``` trailing note".

(** A text without braces: a JSON array of the two field names. *)
Definition field_list_answer : string :=
  "[" +:+ quoted "lecture_script" +:+ ", " +:+ quoted "question" +:+ "]".

(** A request with a bearer token, on a path that is not exempt. *)
Definition token_request : Request :=
  {| url := plain_url "api.example.org";
     req_headers := headers_of [("Authorization", "Bearer token-of-alice")];
     client := Some "203.0.113.7" |}.

End Inputs.

(** The transport status of each error kind, as the taxonomy table
    of the specification lists them. *)
Definition taxonomy_status (c : Exceptions.exc_class) : Z :=
  match c with
  | Exceptions.AuthenticationError => 401
  | Exceptions.ValidationError => 400
  | Exceptions.RateLimitExceededError => 429
  | Exceptions.ExternalAPIError => 503
  | Exceptions.ProblemGenerationError => 500
  | Exceptions.ScoringError => 500
  | Exceptions.SpeechProcessingError => 500
  | Exceptions.TOEFLAppException => 500
  end.

(** The response of an admitted request, as the specification words it:
    the downstream response with the three rate-limit headers, the reset
    time being the whole seconds of the float sum of the arrival time
    and the window. *)
Definition admitted_response (downstream : Http.Response) (capacity remaining : Z)
  (t : Q) : Http.Response :=
  Http.with_header
    (Http.with_header
       (Http.with_header downstream "X-RateLimit-Limit" (PyStr.str_int capacity))
       "X-RateLimit-Remaining" (PyStr.str_int remaining))
    "X-RateLimit-Reset" (RateLimiter.str_int_of (PyFloat.add_int t 60)).

(** The response to the arrival number [i] (from 0) of a run that starts
    with no admission in the window: admitted while [i] is below the
    capacity, rejected from then on. *)
Definition response_at (call_next : Http.Request → Http.Response)
  (self : RateLimiter.RateLimitMiddleware) (request : Http.Request)
  (i : nat) (t : Q) : Http.Response :=
  let capacity := RateLimiter.requests_per_minute self in
  if (Z.of_nat i <? capacity)%Z
  then admitted_response (call_next request) capacity (capacity - Z.of_nat i - 1) t
  else RateLimiter.limited_response self t.

(** The timestamps of the identity [k] that a check at [t] keeps. *)
Definition kept (self : RateLimiter.RateLimitMiddleware) (k : string) (t : Q) : list Q :=
  List.filter
    (λ ts, RateLimiter.Qltb (t - inject_Z (RateLimiter.window_size self)) ts)
    (RateLimiter.history_of self k).

(** Lookups in a header store: the names are computed to lower case,
    then the inserts are read off. *)
Ltac header_lookup :=
  unfold Http.with_header, Http.headers_of, Http.headers_set; cbn [Http.headers];
  repeat match goal with
    | |- context [Http.lower ?name] =>
        let v := eval vm_compute in (Http.lower name) in
        change (Http.lower name) with v
    end;
  repeat first [ rewrite lookup_insert_eq | rewrite lookup_insert_ne by discriminate ];
  try reflexivity.

(** * The services behind the gateway *)

(** ** main.py: the middleware stack *)

Module Main.
Import Http.

Section Stack.
(** [os.getenv("ENVIRONMENT")], and the application under the
    middlewares: the routers with the exception handlers. *)
Variable ENVIRONMENT : option string.
Variable app : Request → Response.

(** [app.add_middleware(HTTPSRedirectMiddleware)] and then
    [app.add_middleware(RateLimitMiddleware, ...)]: a middleware added
    later wraps those added before, so a request meets the rate limiter
    first and the HTTPS policy behind it.  The CORS middleware, added
    last, is outside both and is not part of the model. *)
Definition stack (limiter : RateLimiter.RateLimitMiddleware) (request : Request)
  (current_time : Q) : Response * RateLimiter.RateLimitMiddleware :=
  RateLimiter.dispatch (HttpsRedirect.dispatch ENVIRONMENT app) limiter request
    current_time.
End Stack.

End Main.


(** ** More Python string operations *)

Module PyStrMore.

(** [str.lower] on one character, for code points below 256: the
    letters A to Z and the capital letters of Latin-1. *)
Definition lower_char (c : ascii) : ascii :=
  let n := PyStr.ord c in
  if ((65 <=? n) && (n <=? 90)
      || (192 <=? n) && (n <=? 222) && negb (n =? 215))%N
  then ascii_of_N (n + 32) else c.

(** [s.lower()] *)
Fixpoint lower (s : string) : string :=
  match s with
  | EmptyString => EmptyString
  | String c s' => String (lower_char c) (lower s')
  end.

(** [s.replace(old, new)] for a pattern [old] that is not empty: the
    occurrences are taken from the left and do not overlap; [skip]
    counts the characters of an occurrence still to pass. *)
Fixpoint replace_from (old new : string) (skip : nat) (s : string) : string :=
  match s with
  | EmptyString => EmptyString
  | String c s' =>
      match skip with
      | S skip' => replace_from old new skip' s'
      | O =>
          if PyStr.startswith s old
          then new +:+ replace_from old new (String.length old - 1) s'
          else String c (replace_from old new 0 s')
      end
  end.

Definition replace (s old new : string) : string := replace_from old new 0 s.

(** [os.path.join(a, b)] for a relative [b] *)
Definition os_path_join (a b : string) : string :=
  if String.eqb a "" then b
  else if PyStr.endswith a "/" then a +:+ b
  else a +:+ "/" +:+ b.

End PyStrMore.

(** ** Python values and exceptions in the services *)

Module Py.

(** [bool(v)], and so [not v] *)
Definition truthy (v : pyval) : bool :=
  match v with
  | PNone => false
  | PBool b => b
  | PInt z => negb (z =? 0)%Z
  | PFloat (FFinite q) => negb (Qeq_bool q 0)
  | PFloat _ => true
  | PStr s => negb (String.eqb s "")
  | PList items => match items with [] => false | _ => true end
  | PDict items => match items with [] => false | _ => true end
  end.

(** [type(v).__name__] *)
Definition type_name (v : pyval) : string :=
  match v with
  | PNone => "NoneType"
  | PBool _ => "bool"
  | PInt _ => "int"
  | PFloat _ => "float"
  | PStr _ => "str"
  | PList _ => "list"
  | PDict _ => "dict"
  end.

(** [str(e)] for an exception: the message of an application
    exception, the text of the others. *)
Definition exn_str (e : exn) : string :=
  match e with
  | AppExc exc => Exceptions.str exc
  | HTTPExc _ text | ProviderExc _ _ text | OtherExc _ text => text
  | RequestValidationExc _ => ""
  end.

(** [data.get(key, dflt)]; only a dict has the method. *)
Definition get (data : pyval) (key : string) (dflt : pyval) : exn + pyval :=
  match data with
  | PDict items => inr (default dflt (ErrorHandler.dict_get items key))
  | _ =>
      inl (OtherExc "AttributeError"
             ("'" +:+ type_name data +:+ "' object has no attribute 'get'"))
  end.

(** [data[key]] for a string key without quotes in it. *)
Definition getitem (data : pyval) (key : string) : exn + pyval :=
  match data with
  | PDict items =>
      match ErrorHandler.dict_get items key with
      | Some v => inr v
      | None => inl (OtherExc "KeyError" ("'" +:+ key +:+ "'"))
      end
  | PList _ => inl (OtherExc "TypeError" "list indices must be integers or slices, not str")
  | PStr _ => inl (OtherExc "TypeError" "string indices must be integers, not 'str'")
  | _ =>
      inl (OtherExc "TypeError" ("'" +:+ type_name data +:+ "' object is not subscriptable"))
  end.

(** [data[key] = v]: the container after the assignment. *)
Definition setitem (data : pyval) (key : string) (v : pyval) : exn + pyval :=
  match data with
  | PDict items => inr (PDict (Json.dict_set items key v))
  | PList _ => inl (OtherExc "TypeError" "list indices must be integers or slices, not str")
  | _ =>
      inl (OtherExc "TypeError"
             ("'" +:+ type_name data +:+ "' object does not support item assignment"))
  end.

(** Sequencing of calls that may raise. *)
Definition bind {A B : Type} (m : exn + A) (f : A → exn + B) : exn + B :=
  match m with
  | inl e => inl e
  | inr a => f a
  end.

(** [if cond: raise e] *)
Definition raise_if (cond : bool) (e : exn) : exn + unit :=
  if cond then inl e else inr tt.

(** A call that returns, raises, or meets a text beyond the strings of
    the model. *)
Inductive result (A : Type) :=
| Returns (a : A)
| Raises (e : exn)
| Beyond.
Arguments Returns {A} a.
Arguments Raises {A} e.
Arguments Beyond {A}.

Definition of_outcome (o : Client.outcome) : result pyval :=
  match o with
  | Client.Return v => Returns v
  | Client.Raise e => Raises e
  | Client.Unmodelled => Beyond
  end.

(** [except keep: raise] followed by
    [except Exception as e: raise wrap(prefix + str(e))]. *)
Definition reraise (keep : Exceptions.exc_class) (wrap : string → exn) (prefix : string)
  (e : exn) : exn :=
  match e with
  | AppExc exc =>
      if decide (Exceptions.cls exc = keep) then e
      else wrap (prefix +:+ Exceptions.str exc)
  | _ => wrap (prefix +:+ exn_str e)
  end.

End Py.

Notation "'let!' x ':=' m 'in' k" := (Py.bind m (λ x, k))
  (at level 10, x name, m at level 200, k at level 200, only parsing).
Notation "'let!' '_' ':=' m 'in' k" := (Py.bind m (λ _, k))
  (at level 10, m at level 200, k at level 200, only parsing).

(** ** services/openai_client.py: the methods built on [call_gpt4] *)

Module OpenAIClient.
Import Py.

Definition ExternalAPIError (message : string) : exn :=
  AppExc (Exceptions.new_ExternalAPIError "OpenAI" message None).

Definition ProblemGenerationError (message : string) : exn :=
  AppExc (Exceptions.new_ProblemGenerationError message None).

Section Generation.
(** [self.client.chat.completions.create] at its n-th call, and
    Python's [str] on values. *)
Variable create : nat → exn + string.
Variable py_str : pyval → string.

(** The frame the generation methods share: call the model, clean the
    answer, parse it, validate the parsed value; a JSON error raises
    the method's format error, an [ExternalAPIError] passes, every
    other exception is wrapped with the method's prefix. *)
Definition generation (format_error : exn) (wrap : string → exn) (prefix : string)
  (validate : pyval → exn + pyval) : Client.outcome :=
  let except := reraise Exceptions.ExternalAPIError wrap prefix in
  match fst (Client.call_gpt4 create) with
  | inl e => Client.Raise (except e)
  | inr response =>
      let cleaned_response := Sanitizer._clean_json_response response in
      match Json.loads cleaned_response with
      | inl Json.JSONDecodeError => Client.Raise format_error
      | inl Json.OutOfModel | inl Json.OutOfFuel => Client.Unmodelled
      | inr data =>
          match validate data with
          | inl e => Client.Raise (except e)
          | inr v => Client.Return v
          end
      end
  end.

(** [if field not in data: raise missing] *)
Definition require (field : string) (data : pyval) (missing : exn) : exn + unit :=
  match Client.py_in field data with
  | inl text => inl (OtherExc "TypeError" text)
  | inr present => raise_if (negb present) missing
  end.

(** *** [generate_task2_problem] and [generate_problem] *)

(** The loop over the required fields of a generated problem. *)
Fixpoint require_fields (fields : list string) (problem_data : pyval) : exn + unit :=
  match fields with
  | [] => inr tt
  | field :: fields' =>
      let! _ := require field problem_data
                  (ProblemGenerationError ("Missing required field: " +:+ field)) in
      require_fields fields' problem_data
  end.

Definition generate_task2_problem : Client.outcome :=
  generation (ProblemGenerationError "Failed to generate valid problem format")
    ProblemGenerationError "Failed to generate Task 2 problem: "
    (λ problem_data,
       let! _ := require_fields ["announcement_text"; "conversation_script"; "question"]
                   problem_data in
       inr problem_data).

(** [generate_problem], the method for Task 3 *)
Definition generate_problem : Client.outcome :=
  generation (ProblemGenerationError "Failed to generate valid problem format")
    ProblemGenerationError "Failed to generate problem: "
    (λ problem_data,
       let! _ := require_fields ["reading_text"; "lecture_script"; "question"]
                   problem_data in
       inr problem_data).

(** *** [score_response] *)

Definition score_fields : list string :=
  ["delivery_score"; "language_use_score"; "topic_dev_score"; "overall_score"].

Fixpoint check_scores (fields : list string) (scoring_data : pyval) : exn + unit :=
  match fields with
  | [] => inr tt
  | field :: fields' =>
      let! _ := require field scoring_data
                  (Scoring.ScoringError ("Missing required field: " +:+ field)) in
      let! score := getitem scoring_data field in
      match Scoring.score_response_check py_str field score with
      | Some e => inl e
      | None => check_scores fields' scoring_data
      end
  end.

Definition score_response : Client.outcome :=
  generation (Scoring.ScoringError "Failed to generate valid scoring format")
    Scoring.ScoringError "Failed to score response: "
    (λ scoring_data,
       let! _ := check_scores score_fields scoring_data in
       inr scoring_data).

(** *** [score_task1_response] *)

Definition score_task1_response : Client.outcome :=
  generation (Scoring.ScoringError "Failed to generate valid scoring format")
    Scoring.ScoringError "Failed to score Task 1 response: "
    (λ scoring_data,
       let! _ := require "overall_score" scoring_data
                   (Scoring.ScoringError "Missing required field: overall_score") in
       let! score := getitem scoring_data "overall_score" in
       let! _ := raise_if
                   (negb (Scoring.is_number score) || Scoring.below_zero score
                    || Scoring.above_four score)
                   (Scoring.ScoringError ("Invalid overall score: " +:+ py_str score)) in
       inr scoring_data).

(** *** [generate_task1_question] *)

(** [value.split()]: only a string has the method; the words are
    counted for the log alone. *)
Definition split_words (value : pyval) : exn + unit :=
  match value with
  | PStr _ => inr tt
  | _ =>
      inl (OtherExc "AttributeError"
             ("'" +:+ type_name value +:+ "' object has no attribute 'split'"))
  end.

Definition generate_task1_question : Client.outcome :=
  generation (ProblemGenerationError "Failed to generate valid question format")
    ProblemGenerationError "Failed to generate Task 1 question: "
    (λ question_data,
       let! _ := require "question" question_data
                   (ProblemGenerationError "Missing required field: question") in
       let! question := getitem question_data "question" in
       let! _ := split_words question in
       inr question_data).

(** *** [generate_model_answer] *)

Definition generate_model_answer : Client.outcome :=
  generation (ExternalAPIError "Failed to generate valid model answer format")
    ExternalAPIError "Failed to generate model answer: "
    (λ model_data,
       let! _ := require "model_answer" model_data
                   (ExternalAPIError "Missing model_answer in response") in
       match Client.py_in "highlighted_phrases" model_data with
       | inl text => inl (OtherExc "TypeError" text)
       | inr false => setitem model_data "highlighted_phrases" (PList [])
       | inr true => inr model_data
       end).

(** *** [generate_ai_review] *)

Definition review_fields : list string :=
  ["strengths"; "improvements"; "specific_suggestions"; "score_improvement_tips";
   "improved_response"].

Fixpoint require_all (fields : list string) (review_data : pyval) : exn + unit :=
  match fields with
  | [] => inr tt
  | field :: fields' =>
      let! _ := require field review_data
                  (ExternalAPIError ("Missing required field: " +:+ field)) in
      require_all fields' review_data
  end.

(** [if not isinstance(d[key], list): d[key] = [d[key]]] *)
Definition ensure_list (review_data : pyval) (key : string) : exn + pyval :=
  let! value := getitem review_data key in
  match value with
  | PList _ => inr review_data
  | _ => setitem review_data key (PList [value])
  end.

Definition generate_ai_review : Client.outcome :=
  generation (ExternalAPIError "Failed to generate valid AI review format")
    ExternalAPIError "Failed to generate AI review: "
    (λ review_data,
       let! _ := require_all review_fields review_data in
       let! review_data := ensure_list review_data "strengths" in
       let! review_data := ensure_list review_data "improvements" in
       inr review_data).

End Generation.

(** *** [transcribe_audio] *)

Definition SpeechProcessingError (message : string) : exn :=
  AppExc (Exceptions.new_SpeechProcessingError message None).

(** [filename.endswith('.webm') or 'webm' in filename.lower()] *)
Definition is_webm (filename : string) : bool :=
  PyStr.endswith filename ".webm" || PyStr.contains (PyStrMore.lower filename) "webm".

(** The message chosen for an [APIError] of the provider, by what its
    text mentions. *)
Definition api_error_message (filename error_message : string) : string :=
  let lowered := PyStrMore.lower error_message in
  if PyStr.contains error_message "401" || PyStr.contains error_message "Access denied"
     || PyStr.contains lowered "invalid subscription key"
  then "Azure OpenAI認証エラーです。APIキーまたはエンドポイントの設定を確認してください。管理者にお問い合わせください。"
  else if PyStr.contains lowered "could not be decoded"
          || PyStr.contains lowered "format is not supported"
  then
    if is_webm filename
    then "WebM音声ファイルの処理に失敗しました。ブラウザの録音設定に問題がある可能性があります。ページを再読み込みして、もう一度録音をお試しください。"
    else "音声ファイルの形式が無効です。録音をやり直してください。"
  else if PyStr.contains error_message "Invalid file format"
          || PyStr.contains lowered "file format"
  then "音声ファイルの形式が無効です。録音をやり直してください。"
  else if PyStr.contains error_message "Audio decoding failed"
  then "音声ファイルの解析に失敗しました。録音品質に問題がある可能性があります。ページを再読み込みして、もう一度録音をお試しください。"
  else "音声の文字起こしに失敗しました。録音をやり直してください。".

Section Transcribe.
(** [self.client.audio.transcriptions.create] for a buffer of the
    given name, at its n-th call: the text of the response, or the
    exception it raises. *)
Variable create : string → nat → exn + string.

(** The [try] block of [transcribe_audio]: its outcome, and the file
    name as the handlers see it. *)
Definition transcribe_try (audio_file : list Byte.byte) (filename : string)
  (attempt_number : nat) : (exn + string) * string :=
  if (length audio_file =? 0)%nat
  then (inl (SpeechProcessingError "Audio file is empty"), filename)
  else
    let filename :=
      if is_webm filename then PyStrMore.replace filename ".webm" ".ogg" else filename in
    (create filename attempt_number, filename).

(** The [except] clauses of [transcribe_audio]. *)
Definition transcribe_except (filename : string) (e : exn) : exn :=
  match e with
  | ProviderExc RateLimitError _ _ =>
      SpeechProcessingError "Rate limit exceeded. Please try again later."
  | ProviderExc APITimeoutError _ _ =>
      SpeechProcessingError "Request timed out. Please try again."
  | ProviderExc APIError _ text => SpeechProcessingError (api_error_message filename text)
  | _ => SpeechProcessingError ("Unexpected error: " +:+ exn_str e)
  end.

Definition transcribe_audio_body (audio_file : list Byte.byte) (filename : string)
  (attempt_number : nat) : exn + string :=
  match transcribe_try audio_file filename attempt_number with
  | (inr transcript, _) => inr transcript
  | (inl e, filename) => inl (transcribe_except filename e)
  end.

(** [transcribe_audio] under its decorator: two attempts at most, a
    retry on [RateLimitError] and [APITimeoutError]. *)
Definition transcribe_audio (audio_file : list Byte.byte) (filename : string)
  : (exn + string) * nat :=
  Client.retrying (Client.stop_after_attempt 2)
    (Client.retry_if_exception_type [RateLimitError; APITimeoutError])
    (transcribe_audio_body audio_file filename) 2 1.
End Transcribe.

(** *** [generate_speech] *)

Definition tts_voice : string := "alloy".

Definition TTSError (message : string) : exn :=
  AppExc (Exceptions.new_ExternalAPIError "OpenAI TTS" message None).

Section Speech.
(** [self.client.audio.speech.create] for a text and a voice, at its
    n-th call: the bytes of the response, or the exception it raises. *)
Variable create : pyval → string → nat → exn + list Byte.byte.

Definition generate_speech_body (text : pyval) (voice : option string)
  (attempt_number : nat) : exn + list Byte.byte :=
  let voice := Exceptions.or_str voice tts_voice in
  match create text voice attempt_number with
  | inr audio_bytes => inr audio_bytes
  | inl (ProviderExc RateLimitError _ _) =>
      inl (TTSError "Rate limit exceeded. Please try again later.")
  | inl (ProviderExc APITimeoutError _ _) =>
      inl (TTSError "Request timed out. Please try again.")
  | inl (ProviderExc APIError _ text) => inl (TTSError ("TTS generation failed: " +:+ text))
  | inl e => inl (TTSError ("Unexpected error: " +:+ exn_str e))
  end.

Definition generate_speech (text : pyval) (voice : option string)
  : (exn + list Byte.byte) * nat :=
  Client.retrying (Client.stop_after_attempt 3)
    (Client.retry_if_exception_type [RateLimitError; APITimeoutError; APIError])
    (generate_speech_body text voice) 3 1.
End Speech.

End OpenAIClient.

(** ** services/scoring_service.py *)

Module ScoringService.
Import Py.

Record ScoringDetail := {
  score : pyval;
  feedback : pyval
}.

Record ScoringResult := {
  overall_score : pyval;
  delivery : ScoringDetail;
  language_use : ScoringDetail;
  topic_development : ScoringDetail;
  improvement_tips : pyval
}.

Record HighlightedPhrase := {
  text : pyval;
  category : pyval;
  useful_for_writing : bool
}.

Record ModelAnswer := {
  model_answer : pyval;
  highlighted_phrases : list HighlightedPhrase
}.

Definition ScoringError : string → exn := Scoring.ScoringError.

(** The [except] clauses of the methods: a [ScoringError] passes, every
    other exception becomes one, with the method's prefix. *)
Definition except (prefix : string) (e : exn) : exn :=
  reraise Exceptions.ScoringError ScoringError prefix e.

Definition is_list (v : pyval) : bool :=
  match v with PList _ => true | _ => false end.

(** *** [_parse_scoring_data] *)

Definition parse_scoring_try (data : pyval) : exn + ScoringResult :=
  let! v := get data "delivery_score" PNone in
  let! delivery_score := Scoring._validate_score v "delivery_score" in
  let! v := get data "language_use_score" PNone in
  let! language_use_score := Scoring._validate_score v "language_use_score" in
  let! v := get data "topic_dev_score" PNone in
  let! topic_dev_score := Scoring._validate_score v "topic_dev_score" in
  let! v := get data "overall_score" PNone in
  let! overall_score := Scoring._validate_score v "overall_score" in
  let! delivery_feedback := get data "delivery_feedback" (PStr "") in
  let! language_use_feedback := get data "language_use_feedback" (PStr "") in
  let! topic_dev_feedback := get data "topic_dev_feedback" (PStr "") in
  let! _ := raise_if (negb (truthy delivery_feedback))
              (ScoringError "Missing delivery feedback") in
  let! _ := raise_if (negb (truthy language_use_feedback))
              (ScoringError "Missing language use feedback") in
  let! _ := raise_if (negb (truthy topic_dev_feedback))
              (ScoringError "Missing topic development feedback") in
  let! improvement_tips := get data "improvement_tips" (PList []) in
  let! _ := raise_if (negb (is_list improvement_tips))
              (ScoringError "Improvement tips must be a list") in
  let! _ := raise_if (negb (truthy improvement_tips))
              (ScoringError "At least one improvement tip is required") in
  inr {| overall_score := overall_score;
         delivery := {| score := delivery_score; feedback := delivery_feedback |};
         language_use :=
           {| score := language_use_score; feedback := language_use_feedback |};
         topic_development :=
           {| score := topic_dev_score; feedback := topic_dev_feedback |};
         improvement_tips := improvement_tips |}.

Definition _parse_scoring_data (data : pyval) : exn + ScoringResult :=
  match parse_scoring_try data with
  | inr result => inr result
  | inl e => inl (except "Invalid scoring data format: " e)
  end.

(** *** [_parse_model_answer_data] *)

Definition valid_categories : list string := ["transition"; "example"; "conclusion"].

(** [category in valid_categories]: only a string equals a string. *)
Definition is_valid_category (category : pyval) : bool :=
  match category with
  | PStr s => bool_decide (s ∈ valid_categories)
  | _ => false
  end.

(** One round of the loop over the phrases: the phrase to append, if
    any. *)
Definition parse_phrase (phrase_data : pyval) : option HighlightedPhrase :=
  match phrase_data with
  | PDict items =>
      let text := default (PStr "") (ErrorHandler.dict_get items "text") in
      let category := default (PStr "") (ErrorHandler.dict_get items "category") in
      let useful_for_writing :=
        default (PBool false) (ErrorHandler.dict_get items "useful_for_writing") in
      let category := if is_valid_category category then category else PStr "example" in
      if truthy text
      then Some {| text := text; category := category;
                   useful_for_writing := truthy useful_for_writing |}
      else None
  | _ => None
  end.

Definition parse_model_answer_try (data : pyval) : exn + ModelAnswer :=
  let! model_answer_text := get data "model_answer" (PStr "") in
  let! _ := raise_if (negb (truthy model_answer_text))
              (ScoringError "Missing model answer text") in
  let! highlighted_phrases_data := get data "highlighted_phrases" (PList []) in
  match highlighted_phrases_data with
  | PList phrases =>
      inr {| model_answer := model_answer_text;
             highlighted_phrases := omap parse_phrase phrases |}
  | _ => inl (ScoringError "Highlighted phrases must be a list")
  end.

Definition _parse_model_answer_data (data : pyval) : exn + ModelAnswer :=
  match parse_model_answer_try data with
  | inr result => inr result
  | inl e => inl (except "Invalid model answer data format: " e)
  end.

(** *** The public methods *)

(** [not s or not s.strip()] *)
Definition blank (s : string) : bool :=
  String.eqb s "" || String.eqb (PyStr.strip s) "".

(** [s is not None and not s.strip()] *)
Definition blank_when_given (s : option string) : bool :=
  match s with
  | Some s => String.eqb (PyStr.strip s) ""
  | None => false
  end.

Section Methods.
Variable create : nat → exn + string.
Variable py_str : pyval → string.

(** What a method does with the outcome of the client's method. *)
Definition after_client {A : Type} (prefix : string) (o : Client.outcome)
  (parse : pyval → exn + A) : result A :=
  match o with
  | Client.Return data =>
      match parse data with
      | inr r => Returns r
      | inl e => Raises (except prefix e)
      end
  | Client.Raise e => Raises (except prefix e)
  | Client.Unmodelled => Beyond
  end.

Definition evaluate_response (transcript : string) (reading_text : option string)
  (lecture_script question : string) : result ScoringResult :=
  let prefix := "Failed to evaluate response: " in
  if blank transcript then Raises (ScoringError "Transcript cannot be empty")
  else if blank_when_given reading_text
  then Raises (ScoringError "Reading text cannot be empty when provided")
  else if blank lecture_script then Raises (ScoringError "Lecture script cannot be empty")
  else if blank question then Raises (ScoringError "Question cannot be empty")
  else after_client prefix (OpenAIClient.score_response create py_str)
         _parse_scoring_data.

Definition evaluate_task1_response (transcript question : string) : result pyval :=
  let prefix := "Failed to evaluate Task 1 response: " in
  if blank transcript then Raises (ScoringError "Transcript cannot be empty")
  else if blank question then Raises (ScoringError "Question cannot be empty")
  else after_client prefix (OpenAIClient.score_task1_response create py_str)
         (λ scoring_data,
            (* the log line reads scoring_data.get('overall_score') *)
            let! _ := get scoring_data "overall_score" PNone in
            inr scoring_data).

Definition generate_model_answer (reading_text : option string)
  (lecture_script question : string) : result ModelAnswer :=
  let prefix := "Failed to generate model answer: " in
  if blank_when_given reading_text
  then Raises (ScoringError "Reading text cannot be empty when provided")
  else if blank lecture_script then Raises (ScoringError "Lecture script cannot be empty")
  else if blank question then Raises (ScoringError "Question cannot be empty")
  else after_client prefix (OpenAIClient.generate_model_answer create)
         _parse_model_answer_data.

Definition task_types : list string := ["task1"; "task2"; "task3"; "task4"].

Definition generate_ai_review (task_type user_transcript question : string)
  : result pyval :=
  let prefix := "Failed to generate AI review: " in
  if blank user_transcript then Raises (ScoringError "User transcript cannot be empty")
  else if blank question then Raises (ScoringError "Question cannot be empty")
  else if negb (bool_decide (task_type ∈ task_types))
  then Raises (ScoringError "Invalid task type")
  else after_client prefix (OpenAIClient.generate_ai_review create) inr.

End Methods.

End ScoringService.


(** ** services/speech_service.py *)

Module SpeechService.
Import Py.

Definition SpeechProcessingError : string → exn := OpenAIClient.SpeechProcessingError.

(** 25 MB in bytes *)
Definition max_size : Z := 25 * 1024 * 1024.

Section Transcribe.
Variable create : string → nat → exn + string.

Definition transcribe_try (audio_file : list Byte.byte) (filename : string)
  : exn + string :=
  let! _ := raise_if (length audio_file =? 0)%nat
              (SpeechProcessingError "音声ファイルが空です。") in
  let! _ := raise_if (max_size <? Z.of_nat (length audio_file))%Z
              (SpeechProcessingError
                 "音声ファイルが大きすぎます。最大サイズは25MBです。") in
  let! transcript := fst (OpenAIClient.transcribe_audio create audio_file filename) in
  let! _ := raise_if
              (String.eqb transcript ""
               || (String.length (PyStr.strip transcript) =? 0)%nat)
              (SpeechProcessingError
                 "音声の文字起こしに失敗しました。音声が明瞭でない可能性があります。") in
  inr (PyStr.strip transcript).

Definition transcribe_audio (audio_file : list Byte.byte) (filename : string)
  : exn + string :=
  match transcribe_try audio_file filename with
  | inr transcript => inr transcript
  | inl e =>
      inl (reraise Exceptions.SpeechProcessingError SpeechProcessingError
             "音声の文字起こし中に予期しないエラーが発生しました: " e)
  end.
End Transcribe.

End SpeechService.

(** ** services/problem_generator.py *)

Module ProblemGenerator.
Import Py.

Definition ProblemGenerationError : string → exn := OpenAIClient.ProblemGenerationError.

Definition TOPIC_CATEGORIES : list string :=
  [ "psychology"; "biology"; "economics"; "sociology"; "environmental_science";
    "education"; "anthropology"; "business"; "history"; "linguistics" ].

(** [except Exception as e: raise ProblemGenerationError(prefix + str(e))] *)
Definition wrap (prefix : string) (e : exn) : exn :=
  ProblemGenerationError (prefix +:+ exn_str e).

Section Service.
(** The chat provider, the speech provider, the write of a file (the
    exception it raises, if any), [os.getenv("AUDIO_STORAGE_PATH")],
    [str(uuid4())], [datetime.now().isoformat()] and the draw of
    [random.choice].  The questions asked before enter the prompt only
    and are not part of the model. *)
Variable create : nat → exn + string.
Variable speech_create : pyval → string → nat → exn + list Byte.byte.
Variable write_file : string → list Byte.byte → option exn.
Variable AUDIO_STORAGE_PATH : option string.
Variable uuid : string.
Variable now : string.
Variable draw : nat.

Definition audio_storage_path : string := default "backend/audio_files" AUDIO_STORAGE_PATH.

(** [_select_random_topic] *)
Definition _select_random_topic : string :=
  nth (draw mod length TOPIC_CATEGORIES) TOPIC_CATEGORIES "".

(** The inner [try] of the generators: speech for the script, saved
    under the given file name; the URL of the audio, or [None] when
    either step raises.  The speed of the speech is not part of the
    model. *)
Definition audio_url_of (script : pyval) (voice : string) (audio_filename : string)
  : pyval :=
  match fst (OpenAIClient.generate_speech speech_create script (Some voice)) with
  | inl _ => PNone
  | inr audio_bytes =>
      let audio_filepath := PyStrMore.os_path_join audio_storage_path audio_filename in
      match write_file audio_filepath audio_bytes with
      | Some _ => PNone
      | None => PStr ("/audio/" +:+ audio_filename)
      end
  end.

(** What a generator does with the outcome of the client's method. *)
Definition after_client (prefix : string) (o : Client.outcome)
  (build : pyval → exn + pyval) : result pyval :=
  match o with
  | Client.Return problem_data =>
      match build problem_data with
      | inr complete_problem => Returns complete_problem
      | inl e => Raises (wrap prefix e)
      end
  | Client.Raise e => Raises (wrap prefix e)
  | Client.Unmodelled => Beyond
  end.

Definition _generate_task1_problem : result pyval :=
  after_client "Failed to generate Task 1 problem: "
    (OpenAIClient.generate_task1_question create)
    (λ problem_data,
       let problem_id := uuid in
       let! question := getitem problem_data "question" in
       inr (PDict [ ("problem_id", PStr problem_id);
                    ("question", question);
                    ("preparation_time", PInt 15);
                    ("speaking_time", PInt 45);
                    ("task_type", PStr "task1");
                    ("created_at", PStr now) ])).

Definition _generate_task2_problem : result pyval :=
  after_client "Failed to generate Task 2 problem: "
    (OpenAIClient.generate_task2_problem create)
    (λ problem_data,
       let! announcement_text := getitem problem_data "announcement_text" in
       let! conversation_script := getitem problem_data "conversation_script" in
       let! question := getitem problem_data "question" in
       let problem_id := uuid in
       let audio_url :=
         audio_url_of conversation_script "alloy"
           ("conversation_" +:+ problem_id +:+ ".mp3") in
       inr (PDict [ ("problem_id", PStr problem_id);
                    ("reading_text", announcement_text);
                    ("lecture_script", conversation_script);
                    ("lecture_audio_url", audio_url);
                    ("question", question);
                    ("topic_category", PStr "campus_announcement");
                    ("task_type", PStr "task2");
                    ("created_at", PStr now) ])).

Definition _generate_task4_problem : result pyval :=
  after_client "Failed to generate Task 4 problem: "
    (Client.generate_task4_problem create)
    (λ problem_data,
       let! lecture_script := getitem problem_data "lecture_script" in
       let! question := getitem problem_data "question" in
       let problem_id := uuid in
       let audio_url :=
         audio_url_of lecture_script "alloy" ("lecture_" +:+ problem_id +:+ ".mp3") in
       inr (PDict [ ("problem_id", PStr problem_id);
                    ("reading_text", PNone);
                    ("lecture_script", lecture_script);
                    ("lecture_audio_url", audio_url);
                    ("question", question);
                    ("topic_category", PStr "academic_lecture");
                    ("task_type", PStr "task4");
                    ("created_at", PStr now) ])).

Definition _generate_task3_problem (topic_category : option string) : result pyval :=
  let topic_category :=
    match topic_category with
    | None => _select_random_topic
    | Some topic =>
        if bool_decide (topic ∈ TOPIC_CATEGORIES) then topic else _select_random_topic
    end in
  after_client "Failed to generate Task 3 problem: "
    (OpenAIClient.generate_problem create)
    (λ problem_data,
       let! reading_text := getitem problem_data "reading_text" in
       let! lecture_script := getitem problem_data "lecture_script" in
       let! question := getitem problem_data "question" in
       let problem_id := uuid in
       let audio_url :=
         audio_url_of lecture_script "alloy" ("lecture_" +:+ problem_id +:+ ".mp3") in
       inr (PDict [ ("problem_id", PStr problem_id);
                    ("reading_text", reading_text);
                    ("lecture_script", lecture_script);
                    ("lecture_audio_url", audio_url);
                    ("question", question);
                    ("topic_category", PStr topic_category);
                    ("task_type", PStr "task3");
                    ("created_at", PStr now) ])).

(** [generate_problem]: every exception that leaves a generator, and
    the one for a task type that is not one of the four, is wrapped once
    more. *)
Definition generate_problem (task_type : string) (topic_category : option string)
  : result pyval :=
  let generated :=
    if String.eqb task_type "task1" then _generate_task1_problem
    else if String.eqb task_type "task2" then _generate_task2_problem
    else if String.eqb task_type "task3" then _generate_task3_problem topic_category
    else if String.eqb task_type "task4" then _generate_task4_problem
    else Raises (ProblemGenerationError ("Unsupported task type: " +:+ task_type)) in
  match generated with
  | Raises e => Raises (wrap "Failed to generate problem: " e)
  | r => r
  end.

End Service.

End ProblemGenerator.

(** ** routers/scoring.py: the [except] clauses of the endpoint
    [evaluate_response] *)

Module ScoringRouter.

(** What leaves the endpoint when its [try] block raises [e]: an
    [HTTPException] passes, a [ScoringError] becomes a 400 with its
    text as detail, an [ExternalAPIError] a 503 and every other
    exception a 500, both with a fixed detail. *)
Definition evaluate_except (e : exn) : exn :=
  match e with
  | HTTPExc _ _ => e
  | AppExc exc =>
      if decide (Exceptions.cls exc = Exceptions.ScoringError)
      then HTTPExc 400 (Exceptions.str exc)
      else if decide (Exceptions.cls exc = Exceptions.ExternalAPIError)
      then HTTPExc 503 "採点処理に失敗しました。もう一度お試しください。"
      else HTTPExc 500 "採点処理中にエラーが発生しました。"
  | _ => HTTPExc 500 "採点処理中にエラーが発生しました。"
  end.

End ScoringRouter.

(** ** Answers of the model used by the examples *)

Module Samples.

(** ["key": value] *)
Definition member (key value : string) : string := Inputs.quoted key +:+ ": " +:+ value.

(** [{m1, m2, ...}] *)
Definition object (members : list string) : string :=
  "{" +:+ PyStr.join ", " members +:+ "}".

(** A scoring answer with a fractional delivery score, inside a [json]
    fence. *)
Definition scoring_answer : string :=
  "```json" +:+ Sanitizer.LF
  +:+ object [ member "delivery_score" "3.9";
               member "delivery_feedback" (Inputs.quoted "clear");
               member "language_use_score" "2";
               member "language_use_feedback" (Inputs.quoted "simple");
               member "topic_dev_score" "4";
               member "topic_dev_feedback" (Inputs.quoted "complete");
               member "overall_score" "3";
               member "improvement_tips" ("[" +:+ Inputs.quoted "slow down" +:+ "]") ]
  +:+ Sanitizer.LF +:+ "```".

(** A review whose strengths are a single string. *)
Definition review_answer : string :=
  object [ member "strengths" (Inputs.quoted "fluent");
           member "improvements" ("[" +:+ Inputs.quoted "grammar" +:+ "]");
           member "specific_suggestions" (Inputs.quoted "use linking words");
           member "score_improvement_tips" (Inputs.quoted "practise daily");
           member "improved_response" (Inputs.quoted "I think") ].

(** A Task 3 problem. *)
Definition problem_answer : string :=
  object [ member "reading_text" (Inputs.quoted "a passage");
           member "lecture_script" (Inputs.quoted "a lecture");
           member "question" (Inputs.quoted "explain") ].

(** A model answer with a phrase of an unknown category and one
    without text. *)
Definition model_answer : string :=
  object [ member "model_answer" (Inputs.quoted "The lecture says");
           member "highlighted_phrases"
             ("[" +:+ object [ member "text" (Inputs.quoted "First of all");
                               member "category" (Inputs.quoted "introduction");
                               member "useful_for_writing" "true" ]
              +:+ ", "
              +:+ object [ member "text" (Inputs.quoted "");
                           member "category" (Inputs.quoted "example") ]
              +:+ "]") ].

End Samples.

(** A validated score: an integer from 0 to 4, or a boolean, which
    Python counts among the integers as 0 or 1. *)
Definition score_in_range (v : pyval) : Prop :=
  match v with
  | PInt z => (0 ≤ z ≤ 4)%Z
  | PBool _ => True
  | _ => False
  end.

(** The class of an application exception, none for the others. *)
Definition app_class (e : exn) : option Exceptions.exc_class :=
  match e with
  | AppExc exc => Some (Exceptions.cls exc)
  | _ => None
  end.

(** A value that passes the range test of the client: an integer or a
    finite float from 0 to 4, a boolean, or the float that is not a
    number, which no comparison rejects. *)
Definition passes_range_test (v : pyval) : Prop :=
  match v with
  | PInt z => (0 ≤ z ≤ 4)%Z
  | PBool _ => True
  | PFloat (FFinite q) => (0 <= q)%Q ∧ (q <= 4)%Q
  | PFloat FNaN => True
  | _ => False
  end.

(** What a validated scoring result holds: four scores in range, three
    feedback values that are not empty, a list of tips that is not
    empty. *)
Definition scoring_result_valid (result : ScoringService.ScoringResult) : Prop :=
  score_in_range (ScoringService.overall_score result)
  ∧ score_in_range (ScoringService.score (ScoringService.delivery result))
  ∧ score_in_range (ScoringService.score (ScoringService.language_use result))
  ∧ score_in_range (ScoringService.score (ScoringService.topic_development result))
  ∧ Py.truthy (ScoringService.feedback (ScoringService.delivery result)) = true
  ∧ Py.truthy (ScoringService.feedback (ScoringService.language_use result)) = true
  ∧ Py.truthy (ScoringService.feedback (ScoringService.topic_development result)) = true
  ∧ ∃ tip tips, ScoringService.improvement_tips result = PList (tip :: tips).

(** What a validated model answer holds: an answer that is not empty,
    and phrases each with a text that is not empty and one of the three
    categories. *)
Definition model_answer_valid (result : ScoringService.ModelAnswer) : Prop :=
  Py.truthy (ScoringService.model_answer result) = true
  ∧ Forall (λ p, Py.truthy (ScoringService.text p) = true
                 ∧ ∃ s, ScoringService.category p = PStr s
                        ∧ s ∈ ["transition"; "example"; "conclusion"])
      (ScoringService.highlighted_phrases result).

(** The arrival times of a run whose response is not the 429 of the
    limiter, and the times of a list that lie in the window of 60
    seconds ending at [t]. *)
Definition admitted_times (responses : list Http.Response) (times : list Q) : list Q :=
  snd <$> List.filter (λ p, negb (Http.status_code (fst p) =? 429)%Z)
            (zip responses times).

Definition in_window (t : Q) (times : list Q) : list Q :=
  List.filter (λ a, RateLimiter.Qltb (t - 60) a && Qle_bool a t) times.

(** What a review holds: a dict with the five fields, the strengths and
    the improvements being lists. *)
Definition review_valid (v : pyval) : Prop :=
  ∃ items,
    v = PDict items
    ∧ (∀ field, field ∈ ["strengths"; "improvements"; "specific_suggestions";
                         "score_improvement_tips"; "improved_response"] →
         is_Some (ErrorHandler.dict_get items field))
    ∧ (∃ l, ErrorHandler.dict_get items "strengths" = Some (PList l))
    ∧ (∃ l, ErrorHandler.dict_get items "improvements" = Some (PList l)).

(** A path in the form [Path] gives it: one of the three roots, and
    parts that are not empty, not a single dot and hold no slash. *)
Definition good_part (x : string) : Prop :=
  PathLib.is_part x = true ∧ PyStr.has_char "/" x = false.

Definition normal (p : PathLib.PurePath) : Prop :=
  PathLib.root p ∈ [""; "/"; "//"] ∧ Forall good_part (PathLib.parts p).

(** One world holds what another held, but for regular files that have
    been unlinked. *)
Definition shrunk (w0 w : Fs.world) : Prop :=
  Fs.cwd w = Fs.cwd w0
  ∧ ∀ k, Fs.files w !! k = Fs.files w0 !! k
         ∨ (Fs.files w !! k = None
            ∧ ∃ n, Fs.files w0 !! k = Some n ∧ Fs.kind n = Fs.RegularFile).

(** * Properties *)

(** ** HTTPS policy *)

Section HttpsFacts.
Import Http HttpsRedirect.
Variable ENVIRONMENT : option string.
Variable call_next : Request → Response.

Lemma dispatch_development (request : Request) :
  default "development" ENVIRONMENT = "development" →
  dispatch ENVIRONMENT call_next request = call_next request.
Proof.
  intros Henv. unfold dispatch. rewrite Henv. reflexivity.
Qed.

Lemma dispatch_loopback (request : Request) :
  hostname (url request) = Some "localhost" ∨ hostname (url request) = Some "127.0.0.1" →
  dispatch ENVIRONMENT call_next request = call_next request.
Proof.
  intros Hhost. unfold dispatch.
  rewrite (bool_decide_eq_true_2 (hostname (url request) ∈ _)).
  - rewrite orb_true_r. reflexivity.
  - destruct Hhost as [-> | ->]; set_solver.
Qed.

Lemma dispatch_secure (request : Request) :
  scheme (url request) = "https"
  ∨ headers_get (req_headers request) "X-Forwarded-Proto" "" = "https" →
  dispatch ENVIRONMENT call_next request = call_next request.
Proof.
  intros Hsec. unfold dispatch.
  destruct (_ || _); [reflexivity |].
  destruct Hsec as [-> | ->]; cbn; rewrite ?andb_false_r; reflexivity.
Qed.

Lemma dispatch_insecure (request : Request) :
  default "development" ENVIRONMENT ≠ "development" →
  hostname (url request) ≠ Some "localhost" →
  hostname (url request) ≠ Some "127.0.0.1" →
  scheme (url request) ≠ "https" →
  headers_get (req_headers request) "X-Forwarded-Proto" "" ≠ "https" →
  dispatch ENVIRONMENT call_next request
  = RedirectResponse (url_str (replace_scheme (url request) "https")) 301.
Proof.
  intros Henv Hlocal Hloop Hscheme Hproto. unfold dispatch.
  apply String.eqb_neq in Henv, Hscheme, Hproto.
  rewrite Henv, Hscheme, Hproto.
  rewrite bool_decide_eq_false_2; [reflexivity |].
  rewrite !elem_of_cons, elem_of_nil. intros [? | [? | []]]; congruence.
Qed.

End HttpsFacts.

(** C6.  The HTTPS policy of [HTTPSRedirectMiddleware.dispatch]: with the
    environment flag "development" (also when the flag is not set) or on
    the hosts localhost and 127.0.0.1 the request is handed on unchanged
    whatever its scheme; otherwise a request whose scheme and whose
    X-Forwarded-Proto header both differ from https is answered by a 301
    whose location is the same URL with the scheme replaced by https;
    a request whose X-Forwarded-Proto header is https is always handed on
    unchanged. *)
Theorem C6_https_policy (ENVIRONMENT : option string)
  (call_next : Http.Request → Http.Response) (request : Http.Request) :
  let development :=
    default "development" ENVIRONMENT = "development"
    ∨ Http.hostname (Http.url request) = Some "localhost"
    ∨ Http.hostname (Http.url request) = Some "127.0.0.1" in
  let forwarded_proto :=
    Http.headers_get (Http.req_headers request) "X-Forwarded-Proto" "" in
  let response := HttpsRedirect.dispatch ENVIRONMENT call_next request in
  (development → response = call_next request)
  ∧ (¬ development → Http.scheme (Http.url request) ≠ "https" →
     forwarded_proto ≠ "https" →
     let https_url := Http.replace_scheme (Http.url request) "https" in
     response = Http.RedirectResponse (Http.url_str https_url) 301
     ∧ Http.status_code response = 301%Z
     ∧ Http.scheme https_url = "https"
     ∧ Http.netloc https_url = Http.netloc (Http.url request)
     ∧ Http.hostname https_url = Http.hostname (Http.url request)
     ∧ Http.path https_url = Http.path (Http.url request)
     ∧ Http.query https_url = Http.query (Http.url request))
  ∧ (forwarded_proto = "https" → response = call_next request).
Proof.
  intros development forwarded_proto response. subst response.
  split; [| split].
  - intros [Henv | Hhost].
    + by apply dispatch_development.
    + by apply dispatch_loopback.
  - intros Hdev Hscheme Hproto https_url.
    assert (Hred : HttpsRedirect.dispatch ENVIRONMENT call_next request
                   = Http.RedirectResponse (Http.url_str https_url) 301).
    { apply dispatch_insecure; try done; intros H; apply Hdev; red; tauto. }
    rewrite Hred. done.
  - intros Hproto. apply dispatch_secure. by right.
Qed.

(** The three requests of the specification's test list. *)
Example https_localhost_plain :
  HttpsRedirect.dispatch (Some "production") Inputs.ok_app (Inputs.plain_request "localhost")
  = Inputs.ok_app (Inputs.plain_request "localhost").
Proof. reflexivity. Qed.

Example https_remote_plain :
  let response :=
    HttpsRedirect.dispatch (Some "production") Inputs.ok_app
      (Inputs.plain_request "api.example.org") in
  Http.status_code response = 301%Z
  ∧ Http.headers response !! "location"
    = Some "https://api.example.org/api/problems?task=4".
Proof. vm_compute. done. Qed.

Example https_remote_forwarded :
  HttpsRedirect.dispatch (Some "production") Inputs.ok_app
    (Inputs.forwarded_request "api.example.org")
  = Inputs.ok_app (Inputs.forwarded_request "api.example.org").
Proof. vm_compute. reflexivity. Qed.

(** ** The error envelope *)

Section EnvelopeFacts.
Import Http ErrorHandler.

Lemma handle_is_envelope (e : exn) :
  ∃ r : ErrorResponse, handle e = JSONResponse (status r) (to_dict r) [].
Proof.
  destruct e; cbn [handle];
    unfold toefl_exception_handler, http_exception_handler,
      validation_exception_handler, generic_exception_handler;
    eexists (new_ErrorResponse _ _ _ _ _); reflexivity.
Qed.

Lemma envelope_unique (r r' : ErrorResponse) :
  JSONResponse (status r) (to_dict r) [] = JSONResponse (status r') (to_dict r') [] →
  r = r'.
Proof.
  destruct r, r'. unfold JSONResponse, to_dict. cbn. intros H.
  injection H as -> -> -> -> ->. reflexivity.
Qed.

Lemma toefl_status (exc : Exceptions.t) :
  status_code (toefl_exception_handler exc) = taxonomy_status (Exceptions.cls exc).
Proof. destruct exc as [[] ? ? ? ? ?]; reflexivity. Qed.

Lemma generic_ignores_text (type_name text text' : string) :
  generic_exception_handler type_name text = generic_exception_handler type_name text'.
Proof. reflexivity. Qed.

End EnvelopeFacts.

(** C3, as the code has it.  Every exception that reaches the boundary
    is answered by exactly one envelope.  The body of the envelope holds
    the machine code, the message, the user-facing message and the
    details under "error", and the message once more under "detail"; for
    an application exception that message is the exception's own
    internal message. *)
Theorem C3_one_envelope_with_message :
  (∀ e : exn,
     ∃ r : ErrorHandler.ErrorResponse,
       ErrorHandler.handle e
       = Http.JSONResponse (ErrorHandler.status r) (ErrorHandler.to_dict r) []
       ∧ ∀ r', ErrorHandler.handle e
               = Http.JSONResponse (ErrorHandler.status r') (ErrorHandler.to_dict r') [] →
               r' = r)
  ∧ (∀ exc : Exceptions.t,
       let body := ErrorHandler.json_of (ErrorHandler.handle (AppExc exc)) in
       let error := ErrorHandler.field body "error" in
       body
       = Some (PDict [ ("error",
                        PDict [ ("code",
                                 PStr (Exceptions.or_str (Exceptions.error_code exc)
                                         "INTERNAL_ERROR"));
                                ("message", PStr (Exceptions.message exc));
                                ("user_message", PStr (Exceptions.user_message exc));
                                ("details", PDict (Exceptions.details exc)) ]);
                       ("detail", PStr (Exceptions.message exc)) ])
       ∧ ErrorHandler.field error "message" = Some (PStr (Exceptions.message exc))
       ∧ ErrorHandler.field body "detail" = Some (PStr (Exceptions.message exc))).
Proof.
  split.
  - intros e. destruct (handle_is_envelope e) as [r Hr]. exists r. split; [exact Hr |].
    intros r' Hr'. rewrite Hr in Hr'. symmetry. by apply envelope_unique.
  - intros exc body error. subst error body. repeat split.
Qed.

(** C3 as stated fails: the internal message of a scoring failure is
    part of the transmitted body, under "error" and under "detail". *)
Lemma C3_internal_message_in_body :
  let exc := Exceptions.new_ScoringError "Failed to score response: upstream key sk-123" None in
  let body := ErrorHandler.json_of (ErrorHandler.handle (AppExc exc)) in
  ErrorHandler.field (ErrorHandler.field body "error") "message"
  = Some (PStr "Failed to score response: upstream key sk-123")
  ∧ ErrorHandler.field body "detail"
    = Some (PStr "Failed to score response: upstream key sk-123")
  ∧ (∃ v, body = Some v
          ∧ ErrorHandler.mentions "Failed to score response: upstream key sk-123" v = true).
Proof.
  cbv zeta. split; [reflexivity |]. split; [reflexivity |].
  eexists. split; [reflexivity |]. vm_compute. reflexivity.
Qed.

(** C7.  The boundary handler gives every application exception the
    status the taxonomy lists for its kind: 401 for authentication, 400
    for validation, 429 for rate limiting, 503 for the external service,
    500 for generation, scoring and transcription.  An exception of any
    class without a handler of its own, those of the provider's library
    included, gets status 500, the code INTERNAL_ERROR and the fixed
    generic user message; its response is the same whatever the text of
    the exception, and holds the class name only. *)
Theorem C7_status_mapping :
  (∀ exc : Exceptions.t,
     Http.status_code (ErrorHandler.handle (AppExc exc))
     = taxonomy_status (Exceptions.cls exc))
  ∧ (∀ message user_message,
       Http.status_code
         (ErrorHandler.handle (AppExc (Exceptions.new_AuthenticationError message user_message)))
       = 401%Z)
  ∧ (∀ message user_message field,
       Http.status_code
         (ErrorHandler.handle
            (AppExc (Exceptions.new_ValidationError message user_message field)))
       = 400%Z)
  ∧ (∀ message user_message,
       Http.status_code
         (ErrorHandler.handle
            (AppExc (Exceptions.new_RateLimitExceededError message user_message)))
       = 429%Z)
  ∧ (∀ service message user_message,
       Http.status_code
         (ErrorHandler.handle
            (AppExc (Exceptions.new_ExternalAPIError service message user_message)))
       = 503%Z)
  ∧ (∀ message user_message,
       Http.status_code
         (ErrorHandler.handle
            (AppExc (Exceptions.new_ProblemGenerationError message user_message)))
       = 500%Z
       ∧ Http.status_code
           (ErrorHandler.handle (AppExc (Exceptions.new_ScoringError message user_message)))
         = 500%Z
       ∧ Http.status_code
           (ErrorHandler.handle
              (AppExc (Exceptions.new_SpeechProcessingError message user_message)))
         = 500%Z)
  ∧ (∀ (provider : option provider_class) (type_name text : string),
       let unrecognized text :=
         match provider with
         | Some c => ProviderExc c type_name text
         | None => OtherExc type_name text
         end in
       let response := ErrorHandler.handle (unrecognized text) in
       let error := ErrorHandler.field (ErrorHandler.json_of response) "error" in
       Http.status_code response = 500%Z
       ∧ ErrorHandler.field error "code" = Some (PStr "INTERNAL_ERROR")
       ∧ ErrorHandler.field error "user_message"
         = Some (PStr ErrorHandler.generic_user_message)
       ∧ ErrorHandler.field error "message"
         = Some (PStr ("Internal server error: " +:+ type_name))
       ∧ ErrorHandler.field error "details" = Some (PDict [])
       ∧ ErrorHandler.field (ErrorHandler.json_of response) "detail"
         = Some (PStr ("Internal server error: " +:+ type_name))
       ∧ ∀ text', ErrorHandler.handle (unrecognized text') = response).
Proof.
  split; [exact toefl_status |].
  repeat split; by destruct provider.
Qed.

(** An unclassified failure with a telling text: nothing of the text is
    in the body. *)
Example generic_hides_text :
  ∃ v, ErrorHandler.json_of
         (ErrorHandler.handle (OtherExc "KeyError" "no row for user 4711")) = Some v
       ∧ ErrorHandler.mentions "4711" v = false
       ∧ ErrorHandler.mentions "KeyError" v = true.
Proof. eexists. split; [reflexivity |]. vm_compute. done. Qed.

(** ** The retrying generation call *)

Section ClientFacts.
Import Client.
Variable create : nat → exn + string.

(** The body of [call_gpt4] raises nothing but [ExternalAPIError]. *)
Lemma call_gpt4_body_raises (attempt_number : nat) (e : exn) :
  call_gpt4_body create attempt_number = inl e →
  ∃ message, e = AppExc (Exceptions.new_ExternalAPIError "OpenAI" message None).
Proof.
  unfold call_gpt4_body.
  destruct (create attempt_number) as [[exc | | | [] | ] | ];
    intros H; inversion H; eauto.
Qed.

(** Such an exception is never one the decorator retries on. *)
Lemma external_error_not_retried (types : list provider_class) (exc : Exceptions.t) :
  retry_if_exception_type types (AppExc exc) = false.
Proof. reflexivity. Qed.

(** Hence the decorated call runs its body once. *)
Lemma call_gpt4_once :
  call_gpt4 create = (call_gpt4_body create 1, 1%nat).
Proof.
  unfold call_gpt4, max_attempts. cbn [retrying].
  destruct (call_gpt4_body create 1) as [e |] eqn:Hbody; [| reflexivity].
  destruct (call_gpt4_body_raises _ _ Hbody) as [message ->]. reflexivity.
Qed.

End ClientFacts.

(** C2, at the input where the code departs from it.  The provider is
    throttled at the first and the second call and would answer at the
    third: [call_gpt4] raises the external-service error for OpenAI
    after its first attempt, and no second attempt is made. *)
Theorem C2_throttled_call_is_not_retried :
  Client.call_gpt4 Inputs.flaky_provider
  = (inl (AppExc (Exceptions.new_ExternalAPIError "OpenAI"
                    "Rate limit exceeded. Please try again later." None)),
     1%nat).
Proof. rewrite call_gpt4_once. reflexivity. Qed.

(** The decorator itself does retry the provider's exceptions: applied
    to the provider call directly it reaches the third attempt. *)
Example retrying_reaches_third_attempt :
  Client.retrying (Client.stop_after_attempt 3)
    (Client.retry_if_exception_type [RateLimitError; APITimeoutError; APIError])
    Inputs.flaky_provider 3 1
  = (inr "generated text", 3%nat).
Proof. reflexivity. Qed.

(** A provider that times out at every call, and one that fails before
    the request is sent: in both cases one attempt is made and the
    external-service error for OpenAI is raised. *)
Example timing_out_call :
  Client.call_gpt4 Inputs.timing_out_provider
  = (inl (AppExc (Exceptions.new_ExternalAPIError "OpenAI"
                    "Request timed out. Please try again." None)),
     1%nat).
Proof. reflexivity. Qed.

Example malformed_call :
  Client.call_gpt4 Inputs.malformed_provider
  = (inl (AppExc (Exceptions.new_ExternalAPIError "OpenAI"
                    "Unexpected error: Missing required arguments" None)),
     1%nat).
Proof. reflexivity. Qed.

(** X1.  Whatever the provider does, [call_gpt4] makes one attempt; it
    returns the provider's first answer, or raises the external-service
    error that names the service. *)
Lemma call_gpt4_single_attempt (create : nat → exn + string) :
  snd (Client.call_gpt4 create) = 1%nat
  ∧ (∀ result, create 1%nat = inr result → fst (Client.call_gpt4 create) = inr result)
  ∧ (∀ e, create 1%nat = inl e →
       ∃ exc, fst (Client.call_gpt4 create) = inl (AppExc exc)
              ∧ Exceptions.cls exc = Exceptions.ExternalAPIError
              ∧ Exceptions.service exc = Some "OpenAI"
              ∧ Exceptions.details exc = [("service", PStr "OpenAI")]).
Proof.
  rewrite call_gpt4_once. cbn [fst snd]. split; [reflexivity |]. split.
  - intros result H. unfold Client.call_gpt4_body. by rewrite H.
  - intros e H.
    destruct (Client.call_gpt4_body create 1) as [e' | r] eqn:Hbody.
    + destruct (call_gpt4_body_raises _ _ _ Hbody) as [message ->].
      eexists. split; [reflexivity |]. done.
    + unfold Client.call_gpt4_body in Hbody. rewrite H in Hbody.
      destruct e as [? | | | [] | ]; discriminate.
Qed.

(** ** The sanitizer *)

(** The fenced answer of the test list is cleaned to the bare
    object, which parses to the record with the one member. *)
Example clean_fenced_answer :
  Sanitizer._clean_json_response Inputs.fenced_answer = "{" +:+ Inputs.quoted "a" +:+ ":1}"
  ∧ Json.loads (Sanitizer._clean_json_response Inputs.fenced_answer)
    = inr (PDict [("a", PInt 1)]).
Proof. vm_compute. done. Qed.

Section JsonFacts.
Import PyStr Json.

Local Abbreviation len := String.length.

Lemma skip_ws_length (s : string) : (len (skip_ws s) ≤ len s)%nat.
Proof.
  induction s as [| c s IH]; [done |]. cbn [skip_ws].
  destruct (is_ws c); cbn [String.length]; lia.
Qed.

Lemma drop_length (n : nat) (s : string) : len (drop n s) = (len s - n)%nat.
Proof.
  revert s. induction n as [| n IH]; intros [| c s]; cbn [drop String.length]; try lia.
  rewrite IH. lia.
Qed.

Lemma startswith_length (s p : string) : startswith s p = true → (len p ≤ len s)%nat.
Proof.
  revert s. induction p as [| a p IH]; intros [| b s]; cbn [startswith String.length];
    try lia; try discriminate.
  destruct (Ascii.eqb a b); [| discriminate]. intros H%IH. lia.
Qed.

Lemma literal_length (word s rest : string) (v w : pyval) :
  word ≠ "" → literal word v s = Some (w, rest) → (len rest < len s)%nat.
Proof.
  intros Hword. unfold literal. destruct (startswith s word) eqn:Hs; [| discriminate].
  intros [= _ <-]. rewrite drop_length. apply startswith_length in Hs.
  destruct word; [done |]. cbn [String.length] in *. lia.
Qed.

Lemma scanstring_result (n : nat) :
  ∀ s, (len s ≤ n)%nat →
       scanstring s ≠ inl OutOfFuel
       ∧ ∀ body rest, scanstring s = inr (body, rest) → (len rest < len s)%nat.
Proof.
  induction n as [| n IH]; intros [| c s] Hlen; cbn [String.length] in Hlen;
    try lia; cbn [scanstring]; try (split; [discriminate | intros ? ?; discriminate]).
  assert (Hrec : ∀ s' (x : ascii) (k : nat),
             (len s' ≤ n)%nat → (len s' < k)%nat →
             cons_char x (scanstring s') ≠ inl OutOfFuel
             ∧ ∀ body rest,
                 cons_char x (scanstring s') = inr (body, rest) → (len rest < k)%nat).
  { intros s' x k Hs' Hk. destruct (IH s' Hs') as [Hne Hlt]. unfold cons_char.
    destruct (scanstring s') as [err | [body rest]].
    - split; [congruence | discriminate].
    - split; [discriminate |]. intros b r [= _ <-]. specialize (Hlt _ _ eq_refl). lia. }
  destruct (Ascii.eqb c DQ).
  { split; [discriminate |]. intros body rest [= _ <-]. cbn [String.length]. lia. }
  destruct (Ascii.eqb c BS).
  - destruct s as [| e s'']; [split; [discriminate | intros ? ?; discriminate] |].
    cbn [String.length] in Hlen |- *.
    destruct (escape_char e) as [x |]; [apply Hrec; lia |].
    destruct (Ascii.eqb e "u"); [| split; [discriminate | intros ? ?; discriminate]].
    destruct s'' as [| h1 [| h2 [| h3 [| h4 s3]]]];
      try (split; [discriminate | intros ? ?; discriminate]).
    cbn [String.length] in Hlen |- *.
    destruct (hex4 h1 h2 h3 h4) as [uni |];
      [| split; [discriminate | intros ? ?; discriminate]].
    destruct (uni <? 256)%Z; [apply Hrec; lia |].
    split; [discriminate | intros ? ?; discriminate].
  - destruct (ord c <? 32)%N; [split; [discriminate | intros ? ?; discriminate] |].
    cbn [String.length]. apply Hrec; lia.
Qed.

Lemma digits_length (s : string) :
  ∀ acc k v k' rest, digits acc k s = (v, k', rest) →
                     (len rest ≤ len s)%nat ∧ (len rest + k' = len s + k)%nat.
Proof.
  induction s as [| c s IH]; intros acc k v k' rest; cbn [digits].
  - intros [= _ <- <-]. done.
  - destruct (digit c).
    + intros H%IH. cbn [String.length]. lia.
    + intros [= _ <- <-]. done.
Qed.

Lemma int_part_length (s rest : string) (neg : bool) (v : Z) :
  int_part s = Some (neg, v, rest) → (len rest < len s)%nat.
Proof.
  unfold int_part. destruct s as [| c s']; [discriminate |].
  destruct (Ascii.eqb c "-").
  - destruct s' as [| c2 s2]; [discriminate |].
    destruct (digit c2) as [[| d | d] |]; try discriminate.
    + intros [= _ _ <-]. cbn [String.length]. lia.
    + destruct (digits _ 1 s2) as [[v' k'] r] eqn:Hd. intros [= _ _ <-].
      apply digits_length in Hd. cbn [String.length]. lia.
    + destruct (digits _ 1 s2) as [[v' k'] r] eqn:Hd. intros [= _ _ <-].
      apply digits_length in Hd. cbn [String.length]. lia.
  - destruct (digit c) as [[| d | d] |]; try discriminate.
    + intros [= _ _ <-]. cbn [String.length]. lia.
    + destruct (digits _ 1 s') as [[v' k'] r] eqn:Hd. intros [= _ _ <-].
      apply digits_length in Hd. cbn [String.length]. lia.
    + destruct (digits _ 1 s') as [[v' k'] r] eqn:Hd. intros [= _ _ <-].
      apply digits_length in Hd. cbn [String.length]. lia.
Qed.

Lemma frac_part_length (s rest : string) (n : Z) (k : nat) :
  frac_part s = Some (n, k, rest) → (len rest ≤ len s)%nat.
Proof.
  unfold frac_part. destruct s as [| c s']; [discriminate |].
  destruct (Ascii.eqb c "."); [| discriminate].
  destruct (digits 0 0 s') as [[v k'] r] eqn:Hd. apply digits_length in Hd.
  destruct k'; [discriminate |]. intros [= _ _ <-]. cbn [String.length]. lia.
Qed.

Lemma exp_part_length (s rest : string) (e : Z) :
  exp_part s = Some (e, rest) → (len rest ≤ len s)%nat.
Proof.
  unfold exp_part. destruct s as [| c s']; [discriminate |].
  destruct (_ || _); [| discriminate].
  assert (Hsign : ∀ (neg : bool) (s1 : string),
             (len s1 ≤ len s')%nat →
             match digits 0 0 s1 with
             | (_, O, _) => None
             | (v, _, rest) => Some ((if neg then - v else v)%Z, rest)
             end = Some (e, rest) → (len rest ≤ len (String c s'))%nat).
  { intros neg s1 Hs1. destruct (digits 0 0 s1) as [[v k'] r] eqn:Hd.
    apply digits_length in Hd. destruct k'; [discriminate |].
    intros [= _ <-]. cbn [String.length]. lia. }
  destruct s' as [| g s'']; [apply (Hsign false); lia |].
  destruct (Ascii.eqb g "-"); [apply (Hsign true s''); cbn [String.length]; lia |].
  destruct (Ascii.eqb g "+");
    [apply (Hsign false s'') | apply (Hsign false (String g s''))];
    cbn [String.length]; lia.
Qed.

Lemma scan_number_length (s rest : string) (v : pyval) :
  scan_number s = Some (v, rest) → (len rest < len s)%nat.
Proof.
  unfold scan_number.
  destruct (int_part s) as [[[neg i] s1] |] eqn:Hint; [| discriminate].
  apply int_part_length in Hint.
  destruct (frac_part s1) as [[[n d] r] |] eqn:Hfrac.
  - apply frac_part_length in Hfrac.
    destruct (exp_part r) as [[e r'] |] eqn:Hexp.
    + apply exp_part_length in Hexp. intros [= _ <-]. lia.
    + intros [= _ <-]. lia.
  - destruct (exp_part s1) as [[e r'] |] eqn:Hexp.
    + apply exp_part_length in Hexp. intros [= _ <-]. lia.
    + intros [= _ <-]. lia.
Qed.

(** With fuel for twice the length of the text, the parser does not run
    out of it, and it consumes what it parses. *)
Lemma fuel_suffices (fuel : nat) :
  (∀ s, (2 * len s + 2 ≤ fuel)%nat →
        scan_once fuel s ≠ inl OutOfFuel
        ∧ ∀ v rest, scan_once fuel s = inr (v, rest) → (len rest < len s)%nat)
  ∧ (∀ acc s, (2 * len s + 3 ≤ fuel)%nat →
        parse_array fuel acc s ≠ inl OutOfFuel
        ∧ ∀ v rest, parse_array fuel acc s = inr (v, rest) → (len rest < len s)%nat)
  ∧ (∀ acc s, (2 * len s + 3 ≤ fuel)%nat →
        parse_object fuel acc s ≠ inl OutOfFuel
        ∧ ∀ v rest, parse_object fuel acc s = inr (v, rest) → (len rest < len s)%nat).
Proof.
  induction fuel as [| fuel (IHscan & IHarr & IHobj)].
  { repeat split; intros; lia. }
  split; [| split].
  - intros [| c s'] Hfuel; cbn [scan_once];
      [split; [discriminate | intros ? ?; discriminate] |].
    cbn [String.length] in Hfuel |- *.
    destruct (Ascii.eqb c DQ).
    { destruct (scanstring_result (len s') s' ltac:(lia)) as [Hne Hlt].
      destruct (scanstring s') as [err | [body r]].
      - split; [congruence | discriminate].
      - split; [discriminate |]. intros v rest [= _ <-]. specialize (Hlt _ _ eq_refl). lia. }
    pose proof (skip_ws_length s') as Hws.
    destruct (Ascii.eqb c "{").
    { destruct (skip_ws s') as [| c1 s1]; [split; [discriminate | intros ? ?; discriminate] |].
      cbn [String.length] in Hws.
      destruct (Ascii.eqb c1 "}").
      - split; [discriminate |]. intros v rest [= _ <-]. lia.
      - destruct (IHobj [] (String c1 s1)) as [Hne Hlt]; [cbn [String.length]; lia |].
        split; [exact Hne |]. intros v rest H. specialize (Hlt _ _ H).
        cbn [String.length] in Hlt. lia. }
    destruct (Ascii.eqb c "[").
    { destruct (skip_ws s') as [| c1 s1]; [split; [discriminate | intros ? ?; discriminate] |].
      cbn [String.length] in Hws.
      destruct (Ascii.eqb c1 "]").
      - split; [discriminate |]. intros v rest [= _ <-]. lia.
      - destruct (IHarr [] (String c1 s1)) as [Hne Hlt]; [cbn [String.length]; lia |].
        split; [exact Hne |]. intros v rest H. specialize (Hlt _ _ H).
        cbn [String.length] in Hlt. lia. }
    match goal with
    | |- context [List.find ?f ?l] => destruct (List.find f l) as [[r |] |] eqn:Hfind
    end; try (split; [discriminate | intros ? ?; discriminate]).
    split; [discriminate |]. intros v rest [= ->].
    apply find_some in Hfind as [Hin _]. cbn [In] in Hin.
    change (S (len s')) with (len (String c s')).
    destruct Hin as [H | [H | [H | [H | [H | [H | [H | []]]]]]]];
      try (by eapply literal_length in H).
    by apply scan_number_length in H.
  - intros acc s Hfuel. cbn [parse_array].
    destruct (IHscan s ltac:(lia)) as [Hne Hlt].
    destruct (scan_once fuel s) as [err | [w r]];
      [split; [congruence | discriminate] |].
    specialize (Hlt _ _ eq_refl). pose proof (skip_ws_length r) as Hws.
    destruct (skip_ws r) as [| c s1]; [split; [discriminate | intros ? ?; discriminate] |].
    cbn [String.length] in Hws.
    destruct (Ascii.eqb c "]").
    { split; [discriminate |]. intros v rest [= _ <-]. lia. }
    destruct (Ascii.eqb c ","); [| split; [discriminate | intros ? ?; discriminate]].
    pose proof (skip_ws_length s1) as Hws1.
    destruct (IHarr (acc ++ [w])%list (skip_ws s1) ltac:(lia)) as [Hne' Hlt'].
    split; [exact Hne' |]. intros v rest H. specialize (Hlt' _ _ H). lia.
  - intros acc [| q s0] Hfuel; cbn [parse_object];
      [split; [discriminate | intros ? ?; discriminate] |].
    cbn [String.length] in Hfuel |- *.
    destruct (Ascii.eqb q DQ); [| split; [discriminate | intros ? ?; discriminate]].
    destruct (scanstring_result (len s0) s0 ltac:(lia)) as [Hne Hlt].
    destruct (scanstring s0) as [err | [key r]];
      [split; [congruence | discriminate] |].
    specialize (Hlt _ _ eq_refl). pose proof (skip_ws_length r) as Hws.
    destruct (skip_ws r) as [| c s1]; [split; [discriminate | intros ? ?; discriminate] |].
    cbn [String.length] in Hws.
    destruct (Ascii.eqb c ":"); [| split; [discriminate | intros ? ?; discriminate]].
    pose proof (skip_ws_length s1) as Hws1.
    destruct (IHscan (skip_ws s1) ltac:(lia)) as [Hne1 Hlt1].
    destruct (scan_once fuel (skip_ws s1)) as [err | [v1 r1]];
      [split; [congruence | discriminate] |].
    specialize (Hlt1 _ _ eq_refl). pose proof (skip_ws_length r1) as Hws2.
    destruct (skip_ws r1) as [| d s2]; [split; [discriminate | intros ? ?; discriminate] |].
    cbn [String.length] in Hws2.
    destruct (Ascii.eqb d "}").
    { split; [discriminate |]. intros v rest [= _ <-]. lia. }
    destruct (Ascii.eqb d ","); [| split; [discriminate | intros ? ?; discriminate]].
    pose proof (skip_ws_length s2) as Hws3.
    destruct (IHobj (dict_set acc key v1) (skip_ws s2) ltac:(lia)) as [Hne' Hlt'].
    split; [exact Hne' |]. intros v rest H. specialize (Hlt' _ _ H). lia.
Qed.

(** [loads] is total: it parses, or reports a decoding error, or meets
    an escape beyond the strings of this development. *)
Theorem loads_never_out_of_fuel (s : string) : loads s ≠ inl OutOfFuel.
Proof.
  unfold loads. pose proof (skip_ws_length s) as Hws.
  destruct (fuel_suffices (2 * len s + 2)) as [Hscan _].
  destruct (Hscan (skip_ws s) ltac:(lia)) as [Hne _].
  destruct (scan_once _ (skip_ws s)) as [err | [v rest]]; [congruence |].
  destruct (skip_ws rest); discriminate.
Qed.

End JsonFacts.

Section SanitizerFacts.
Import PyStr Sanitizer.

(** *** Characters of the parts of a string *)

Lemma has_char_append (c : ascii) (a b : string) :
  has_char c (a +:+ b) = has_char c a || has_char c b.
Proof.
  induction a as [| x a IH]; [reflexivity |].
  change (has_char c (String x (a +:+ b)) = has_char c (String x a) || has_char c b).
  cbn [has_char]. rewrite IH. by rewrite orb_assoc.
Qed.

Lemma has_char_lstrip (c : ascii) (s : string) :
  has_char c (lstrip s) = true → has_char c s = true.
Proof.
  induction s as [| x s IH]; [done |]. cbn. destruct (isspace x); [| done].
  intros H. rewrite IH by done. apply orb_true_r.
Qed.

Lemma has_char_rstrip (c : ascii) (s : string) :
  has_char c (rstrip s) = true → has_char c s = true.
Proof.
  induction s as [| x s IH]; [done |]. cbn [rstrip].
  destruct (rstrip s) as [| y r] eqn:Hr.
  - destruct (isspace x); [done |]. cbn. rewrite orb_false_r. intros ->. reflexivity.
  - cbn [has_char]. intros [-> | H]%orb_prop; [reflexivity |].
    rewrite IH by done. apply orb_true_r.
Qed.

Lemma has_char_strip (c : ascii) (s : string) :
  has_char c (strip s) = true → has_char c s = true.
Proof. intros H. by apply has_char_rstrip, has_char_lstrip. Qed.

Lemma has_char_drop (c : ascii) (n : nat) (s : string) :
  has_char c (drop n s) = true → has_char c s = true.
Proof.
  revert s. induction n as [| n IH]; intros [| x s]; try done.
  cbn. intros H. rewrite IH by done. apply orb_true_r.
Qed.

Lemma has_char_take (c : ascii) (n : nat) (s : string) :
  has_char c (take n s) = true → has_char c s = true.
Proof.
  revert s. induction n as [| n IH]; intros [| x s]; try done.
  cbn. intros [-> | H]%orb_prop; [reflexivity |].
  rewrite IH by done. apply orb_true_r.
Qed.

Lemma has_char_filter (c : ascii) (keep : ascii → bool) (s : string) :
  has_char c (filter_chars keep s) = true → has_char c s = true.
Proof.
  induction s as [| x s IH]; [done |]. cbn. destruct (keep x); cbn.
  - intros [-> | H]%orb_prop; [reflexivity |]. rewrite IH by done. apply orb_true_r.
  - intros H. rewrite IH by done. apply orb_true_r.
Qed.

Lemma has_char_split (c sep : ascii) (s w : string) :
  w ∈ split_char sep s → has_char c w = true → has_char c s = true.
Proof.
  revert w. induction s as [| x s IH]; intros w.
  - cbn. intros ->%list_elem_of_singleton. done.
  - cbn [split_char]. destruct (Ascii.eqb x sep).
    + intros [-> | Hin]%elem_of_cons Hw; [done |].
      cbn. rewrite (IH w) by done. apply orb_true_r.
    + destruct (split_char sep s) as [| v vs] eqn:Hsplit.
      * intros ->%list_elem_of_singleton. cbn. rewrite orb_false_r. intros ->. done.
      * intros [-> | Hin]%elem_of_cons Hw; cbn.
        -- cbn in Hw. apply orb_prop in Hw as [-> | Hw]; [done |].
           rewrite (IH v) by (done || set_solver). apply orb_true_r.
        -- rewrite (IH w) by (done || set_solver). apply orb_true_r.
Qed.

Lemma has_char_join (c : ascii) (sep : string) (parts : list string) :
  has_char c (join sep parts) = true →
  has_char c sep = true ∨ ∃ w, w ∈ parts ∧ has_char c w = true.
Proof.
  induction parts as [| w ws IH]; [done |]. cbn [join].
  destruct ws as [| w' ws'].
  - intros H. right. exists w. split; [set_solver | done].
  - rewrite !has_char_append.
    intros [H | [H | H]%orb_prop]%orb_prop.
    + right. exists w. split; [set_solver | done].
    + by left.
    + destruct (IH H) as [? | (v & Hv & ?)]; [by left |].
      right. exists v. split; [set_solver | done].
Qed.

Lemma elem_of_inner {A} (x : A) (parts : list A) : x ∈ inner parts → x ∈ parts.
Proof.
  unfold inner. destruct parts as [| y l]; cbn; [done |].
  intros H. apply elem_of_cons. right. revert H.
  induction l as [| z l IH]; [done |]. cbn. destruct l as [| z' l'].
  - by intros ?%elem_of_nil.
  - intros [-> | H]%elem_of_cons; [set_solver |]. apply elem_of_cons. right. by apply IH.
Qed.

(** *** The stages of the sanitizer add no character but the line feed *)

Lemma has_char_unwrap_json_fence (c : ascii) (s : string) :
  has_char c (unwrap_json_fence s) = true → has_char c s = true.
Proof.
  unfold unwrap_json_fence. destruct (contains s fence_json); [| done].
  destruct (find s fence_json) as [i |]; [| done].
  destruct (find_from s fence _) as [j |]; [| done].
  intros H%has_char_strip. unfold slice in H. by apply has_char_take, has_char_drop in H.
Qed.

Lemma has_char_unwrap_bare_fence (c : ascii) (s : string) :
  c ≠ ascii_of_nat 10 →
  has_char c (unwrap_bare_fence s) = true → has_char c s = true.
Proof.
  intros Hc. unfold unwrap_bare_fence. destruct (_ && _); [| done].
  destruct (_ <? _)%nat; [| done].
  intros [H | (w & Hw%elem_of_inner & H)]%has_char_join.
  - cbn in H. rewrite orb_false_r in H. apply Ascii.eqb_eq in H. congruence.
  - by eapply has_char_split.
Qed.

Lemma has_char_from_first_brace (c : ascii) (s : string) :
  has_char c (from_first_brace s) = true → has_char c s = true.
Proof.
  unfold from_first_brace. destruct (negb _); [| done].
  destruct (find s "{"); [apply has_char_drop | done].
Qed.

Lemma has_char_to_last_brace (c : ascii) (s : string) :
  has_char c (to_last_brace s) = true → has_char c s = true.
Proof.
  unfold to_last_brace. destruct (negb _); [| done].
  destruct (rfind_char s "}"); [apply has_char_take | done].
Qed.

Lemma has_char_clean (c : ascii) (response : string) :
  c ≠ ascii_of_nat 10 →
  has_char c (_clean_json_response response) = true → has_char c response = true.
Proof.
  intros Hc H. unfold _clean_json_response in H.
  apply has_char_to_last_brace, has_char_from_first_brace, has_char_filter,
    has_char_unwrap_bare_fence, has_char_unwrap_json_fence, has_char_strip in H; done.
Qed.

(** *** No control character survives *)

Lemma all_chars_filter (keep : ascii → bool) (s : string) :
  all_chars keep (filter_chars keep s) = true.
Proof.
  induction s as [| x s IH]; [done |]. cbn. destruct (keep x) eqn:Hx; [| done].
  cbn. by rewrite Hx.
Qed.

Lemma all_chars_drop (P : ascii → bool) (n : nat) (s : string) :
  all_chars P s = true → all_chars P (drop n s) = true.
Proof.
  revert s. induction n as [| n IH]; intros [| x s]; try done.
  cbn. intros [_ H]%andb_prop. by apply IH.
Qed.

Lemma all_chars_take (P : ascii → bool) (n : nat) (s : string) :
  all_chars P s = true → all_chars P (take n s) = true.
Proof.
  revert s. induction n as [| n IH]; intros [| x s]; try done.
  cbn. intros [-> H]%andb_prop. by apply IH.
Qed.

(** *** The text starts and ends at its outer braces *)

Lemma find_char_found (s : string) (i : nat) :
  find s "{" = Some i → startswith (drop i s) "{" = true.
Proof.
  revert i. induction s as [| x s IH]; intros i; cbn [find].
  - cbn. discriminate.
  - destruct (startswith (String x s) "{") eqn:Hs.
    + intros [= <-]. exact Hs.
    + destruct (find s "{") as [j |] eqn:Hj; [| discriminate].
      intros [= <-]. cbn [drop]. by apply IH.
Qed.

Lemma startswith_take (s : string) (n : nat) :
  startswith s "{" = true → startswith (take (S n) s) "{" = true.
Proof.
  destruct s as [| x s]; [done |]. cbn [take startswith].
  destruct (Ascii.eqb "{" x); [| done]. intros _. by destruct (take n s).
Qed.

Lemma length_append (a b : string) :
  String.length (a +:+ b) = (String.length a + String.length b)%nat.
Proof.
  induction a as [| x a IH]; [reflexivity |].
  change (S (String.length (a +:+ b)) = S (String.length a + String.length b)).
  by rewrite IH.
Qed.

Lemma drop_append (a b : string) : drop (String.length a) (a +:+ b) = b.
Proof.
  induction a as [| x a IH]; [by destruct b |].
  change (drop (String.length a) (a +:+ b) = b). exact IH.
Qed.

Lemma endswith_append (a b : string) : endswith (a +:+ b) b = true.
Proof.
  unfold endswith. rewrite length_append.
  replace (String.length a + String.length b - String.length b)%nat
    with (String.length a) by lia.
  rewrite drop_append, String.eqb_refl, andb_true_r. apply Nat.leb_le. lia.
Qed.

Lemma has_char_find (s : string) :
  has_char "{" s = true → ∃ i, find s "{" = Some i.
Proof.
  induction s as [| x s IH]; [done |]. cbn [has_char find].
  destruct (startswith (String x s) "{") eqn:Hs; [by eauto |].
  intros [Hx | H]%orb_prop.
  - cbn [startswith] in Hs. rewrite Ascii.eqb_sym, Hx in Hs. by destruct s.
  - destruct (IH H) as [i ->]. by eauto.
Qed.

Lemma has_char_rfind (s : string) (c : ascii) :
  has_char c s = true → ∃ i, rfind_char s c = Some i.
Proof.
  induction s as [| x s IH]; [done |]. cbn [has_char rfind_char].
  destruct (rfind_char s c) as [j |]; [by eauto |].
  intros [-> | H]%orb_prop; [by eauto |]. by destruct (IH H).
Qed.

Lemma rfind_char_take (s : string) (c : ascii) (i : nat) :
  rfind_char s c = Some i → ∃ r, take (i + 1) s = r +:+ String c "".
Proof.
  revert i. induction s as [| x s IH]; intros i; [discriminate |]. cbn [rfind_char].
  destruct (rfind_char s c) as [j |] eqn:Hj.
  - intros [= <-]. destruct (IH j eq_refl) as [r Hr].
    exists (String x r). cbn [Nat.add take]. by rewrite Hr.
  - destruct (Ascii.eqb_spec x c) as [-> |]; [| discriminate].
    intros [= <-]. exists "". by destruct s.
Qed.

(** *** Only a text that opens with a brace parses to an object *)

Lemma scan_number_kind (s rest : string) (v : pyval) :
  Json.scan_number s = Some (v, rest) → (∃ z, v = PInt z) ∨ (∃ f, v = PFloat f).
Proof.
  unfold Json.scan_number.
  destruct (Json.int_part s) as [[[neg i] s1] |]; [| discriminate].
  destruct (Json.frac_part s1) as [[[n d] r] |];
    destruct (Json.exp_part _) as [[e r'] |]; intros [= <- _]; eauto.
Qed.

Lemma literal_value (word s rest : string) (v w : pyval) :
  Json.literal word v s = Some (w, rest) → w = v.
Proof. unfold Json.literal. destruct (startswith s word); by intros [= <- _]. Qed.

Lemma parse_array_list (fuel : nat) :
  ∀ acc s v rest, Json.parse_array fuel acc s = inr (v, rest) → ∃ items, v = PList items.
Proof.
  induction fuel as [| fuel IH]; intros acc s v rest; [discriminate |].
  cbn [Json.parse_array].
  destruct (Json.scan_once fuel s) as [err | [w r]]; [discriminate |].
  destruct (Json.skip_ws r) as [| c s1]; [discriminate |].
  destruct (Ascii.eqb c "]"); [intros [= <- _]; eauto |].
  destruct (Ascii.eqb c ","); [apply IH | discriminate].
Qed.

Lemma scan_once_object (fuel : nat) (s rest : string) (items : list (string * pyval)) :
  Json.scan_once fuel s = inr (PDict items, rest) → startswith s "{" = true.
Proof.
  destruct fuel as [| fuel]; [discriminate |]. cbn [Json.scan_once].
  destruct s as [| c s']; [discriminate |].
  destruct (Ascii.eqb c Json.DQ).
  { destruct (Json.scanstring s') as [err | [body r]]; discriminate. }
  destruct (Ascii.eqb_spec c "{") as [-> | _]; [by destruct s' |].
  destruct (Ascii.eqb c "[").
  { destruct (Json.skip_ws s') as [| c1 s1]; [discriminate |].
    destruct (Ascii.eqb c1 "]"); [discriminate |].
    intros H. apply parse_array_list in H as [l Hl]. discriminate. }
  match goal with |- context [List.find ?f ?l] => destruct (List.find f l) as [[r |] |] eqn:Hfind end;
    try discriminate.
  intros [= ->]. apply find_some in Hfind as [Hin _]. cbn [In] in Hin.
  destruct Hin as [H | [H | [H | [H | [H | [H | [H | []]]]]]]];
    try (apply literal_value in H; discriminate).
  apply scan_number_kind in H as [[z Hz] | [f Hf]]; discriminate.
Qed.

Lemma has_char_skip_ws (c : ascii) (s : string) :
  has_char c (Json.skip_ws s) = true → has_char c s = true.
Proof.
  induction s as [| x s IH]; [done |]. cbn. destruct (Json.is_ws x); [| done].
  intros H. rewrite IH by done. apply orb_true_r.
Qed.

Lemma loads_object (s : string) (items : list (string * pyval)) :
  Json.loads s = inr (PDict items) → has_char "{" s = true.
Proof.
  unfold Json.loads.
  destruct (Json.scan_once _ (Json.skip_ws s)) as [err | [v rest]] eqn:Hscan;
    [discriminate |].
  destruct (Json.skip_ws rest); [| discriminate]. intros [= ->].
  apply scan_once_object in Hscan. apply has_char_skip_ws.
  destruct (Json.skip_ws s) as [| x r]; [discriminate |].
  cbn [startswith has_char] in Hscan |- *.
  destruct (Ascii.eqb_spec "{" x) as [<- |]; [done | discriminate].
Qed.

End SanitizerFacts.

(** X2.  The cleaned text holds no control character other than line feed,
    carriage return and tab; when it holds an opening brace it starts
    with one, and when it holds a closing brace it ends with one; and
    apart from line feeds it holds no character that the raw text does
    not hold. *)
Theorem clean_json_response_shape (response : string) :
  let cleaned := Sanitizer._clean_json_response response in
  PyStr.all_chars Sanitizer.keep_char cleaned = true
  ∧ (PyStr.has_char "{" cleaned = true → PyStr.startswith cleaned "{" = true)
  ∧ (PyStr.has_char "}" cleaned = true → PyStr.endswith cleaned "}" = true)
  ∧ (∀ c, c ≠ ascii_of_nat 10 → PyStr.has_char c cleaned = true →
          PyStr.has_char c response = true).
Proof.
  cbv zeta. unfold Sanitizer._clean_json_response.
  set (x := Sanitizer.strip_control _).
  assert (Hx : PyStr.all_chars Sanitizer.keep_char x = true) by apply all_chars_filter.
  assert (Hfirst : PyStr.has_char "{" x = true →
                   PyStr.startswith (Sanitizer.from_first_brace x) "{" = true).
  { intros H. unfold Sanitizer.from_first_brace.
    destruct (PyStr.startswith x "{") eqn:Hs; [exact Hs |]. cbn [negb].
    destruct (has_char_find x H) as [i Hi]. rewrite Hi. by apply find_char_found. }
  split; [| split; [| split]].
  - unfold Sanitizer.to_last_brace, Sanitizer.from_first_brace.
    repeat case_match; auto using all_chars_take, all_chars_drop.
  - intros H. apply has_char_to_last_brace in H.
    specialize (Hfirst (has_char_from_first_brace _ _ H)).
    unfold Sanitizer.to_last_brace. destruct (negb _); [| exact Hfirst].
    destruct (PyStr.rfind_char _ _) as [j |]; [| exact Hfirst].
    rewrite Nat.add_1_r. by apply startswith_take.
  - intros H. apply has_char_to_last_brace in H. unfold Sanitizer.to_last_brace.
    destruct (PyStr.endswith (Sanitizer.from_first_brace x) "}") eqn:He; [exact He |].
    cbn [negb]. destruct (has_char_rfind _ _ H) as [j Hj]. rewrite Hj.
    destruct (rfind_char_take _ _ _ Hj) as [r ->]. apply endswith_append.
  - intros c Hc H. by apply (has_char_clean c response Hc).
Qed.

(** X3.  A raw text without an opening brace never yields a record:
    [generate_task4_problem] raises the generation error, or returns a
    parsed list or string as it is, or the text leaves the strings of
    this development. *)
Theorem brace_free_text_yields_no_record (response : string) :
  PyStr.has_char "{" response = false →
  (∃ e, Client.parse_task4 response = Client.Raise (AppExc e)
        ∧ Exceptions.cls e = Exceptions.ProblemGenerationError)
  ∨ Client.parse_task4 response = Client.Unmodelled
  ∨ (∃ v, Client.parse_task4 response = Client.Return v
          ∧ Json.loads (Sanitizer._clean_json_response response) = inr v
          ∧ ((∃ items, v = PList items) ∨ (∃ s, v = PStr s))).
Proof.
  intros Hfree. unfold Client.parse_task4.
  destruct (Json.loads _) as [[| |] | v] eqn:Hloads.
  - left. eexists. split; reflexivity.
  - right. by left.
  - right. by left.
  - destruct (Client.check_fields Client.required_fields v) as [e |] eqn:Hcheck.
    + left. unfold Client.required_fields in Hcheck. cbn [Client.check_fields] in Hcheck.
      destruct (Client.py_in "lecture_script" v) as [text | []];
        [injection Hcheck as <-; eexists; split; reflexivity
        | | injection Hcheck as <-; eexists; split; reflexivity].
      destruct (Client.py_in "question" v) as [text | []];
        [injection Hcheck as <-; eexists; split; reflexivity
        | discriminate | injection Hcheck as <-; eexists; split; reflexivity].
    + right. right. exists v. split; [reflexivity |]. split; [reflexivity |].
      destruct v as [| b | z | f | s | items | items]; try discriminate; eauto.
      exfalso. apply loads_object in Hloads.
      apply has_char_clean in Hloads; [congruence | discriminate].
Qed.

(** The theorem at a line of prose. *)
Lemma brace_free_text_yields_no_record_witness :
  ∃ e, Client.parse_task4 "I cannot help with that." = Client.Raise (AppExc e)
       ∧ Exceptions.cls e = Exceptions.ProblemGenerationError.
Proof.
  destruct (brace_free_text_yields_no_record "I cannot help with that." eq_refl)
    as [H | [H | (v & H & _)]]; [exact H | |]; vm_compute in H; discriminate.
Defined.

(** C5, at the input where the code departs from it.  The text is a JSON
    array of the two field names and holds no brace; the sanitizer
    leaves it as it is, it parses, both membership tests hold on the
    list, and [generate_task4_problem] returns the list instead of
    raising. *)
Theorem C5_brace_free_text_is_returned :
  PyStr.has_char "{" Inputs.field_list_answer = false
  ∧ PyStr.has_char "}" Inputs.field_list_answer = false
  ∧ Sanitizer._clean_json_response Inputs.field_list_answer = Inputs.field_list_answer
  ∧ Client.parse_task4 Inputs.field_list_answer
    = Client.Return (PList [PStr "lecture_script"; PStr "question"])
  ∧ Client.generate_task4_problem (λ _, inr Inputs.field_list_answer)
    = Client.Return (PList [PStr "lecture_script"; PStr "question"]).
Proof. vm_compute. done. Qed.

(** Brace-free texts that do raise: plain prose, and a bare number. *)
Example prose_raises_format_error :
  Client.parse_task4 "I cannot help with that."
  = Client.Raise (AppExc (Exceptions.new_ProblemGenerationError
                            "Failed to generate valid problem format" None)).
Proof. vm_compute. reflexivity. Qed.

Example number_raises_generation_error :
  Client.parse_task4 "42"
  = Client.Raise (AppExc (Exceptions.new_ProblemGenerationError
       "Failed to generate Task 4 problem: argument of type 'int' is not iterable" None)).
Proof. vm_compute. reflexivity. Qed.

(** ** Score validation *)

Section ScoringFacts.
Import PyNum Scoring.

(** [trunc] rounds toward zero: it is the integer of least magnitude
    that the value does not pass. *)
Lemma trunc_nonneg (q : Q) :
  (0 <= q)%Q → (inject_Z (trunc q) <= q)%Q ∧ (q < inject_Z (trunc q) + 1)%Q.
Proof.
  destruct q as [a b]. unfold trunc, Qle, Qlt. cbn. intros Ha.
  pose proof (Z.quot_rem' a (Z.pos b)) as Hqr.
  pose proof (Z.rem_bound_pos a (Z.pos b)) as Hrem.
  split; nia.
Qed.

Lemma trunc_nonpos (q : Q) :
  (q <= 0)%Q → (q <= inject_Z (trunc q))%Q ∧ (inject_Z (trunc q) - 1 < q)%Q.
Proof.
  destruct q as [a b]. unfold trunc, Qle, Qlt. cbn. intros Ha.
  pose proof (Z.quot_rem' a (Z.pos b)) as Hqr.
  pose proof (Z.rem_bound_pos_neg a (Z.pos b)) as Hrem.
  split; nia.
Qed.

Lemma range_check_in (score : pyval) (z : Z) (shown field_name : string) :
  (0 ≤ z ≤ 4)%Z → range_check score z shown field_name = inr score.
Proof.
  intros Hz. unfold range_check.
  destruct (z <? 0)%Z eqn:H0; [lia |]. destruct (4 <? z)%Z eqn:H4; [lia |]. reflexivity.
Qed.

Lemma range_check_out (score : pyval) (z : Z) (shown field_name : string) :
  ¬ (0 ≤ z ≤ 4)%Z →
  range_check score z shown field_name
  = inl (ScoringError ("Score for " +:+ field_name +:+ " must be between 0 and 4, got "
                       +:+ shown)).
Proof.
  intros Hz. unfold range_check.
  destruct (z <? 0)%Z eqn:H0; [reflexivity |].
  destruct (4 <? z)%Z eqn:H4; [reflexivity | lia].
Qed.

(** The earlier test in [score_response] passes a number iff it lies in
    0..4 as it is, before any truncation. *)
Lemma score_response_check_passes (py_str : pyval → string) (field : string)
  (z : Z) (q : Q) :
  (score_response_check py_str field (PInt z) = None ↔ (0 ≤ z ≤ 4)%Z)
  ∧ (score_response_check py_str field (PFloat (FFinite q)) = None
     ↔ (0 <= q)%Q ∧ (q <= 4)%Q).
Proof.
  unfold score_response_check. cbn [is_number negb orb below_zero above_four]. split.
  - destruct (Z.ltb_spec z 0); cbn [orb]; [split; [discriminate | lia] |].
    destruct (Z.ltb_spec 4 z); split; try discriminate; try lia; done.
  - rewrite <- !Qle_bool_iff.
    destruct (Qle_bool 0 q); cbn [negb orb]; [| split; [discriminate | intros []; done]].
    destruct (Qle_bool q 4); cbn [negb]; [done |].
    split; [discriminate | intros []; done].
Qed.

End ScoringFacts.

(** C4, as the code has it.  [_validate_score] on a field:
    - an integer is accepted, and returned, iff it lies in 0..4;
    - a finite float is first truncated toward zero, and the truncated
      integer is accepted, and returned in place of the float, iff it
      lies in 0..4;
    - a value out of the range raises a scoring error whose message
      names the field and the (truncated) value;
    - a string, list or object raises a scoring error whose message
      names the field and the type of the value, and a missing value one
      that names the field;
    - the test that [score_response] makes before, on the parsed
      answer, passes a number iff it lies in 0..4 as it is;
    - 4 is accepted, 5 and -1 are rejected, 3.9 is stored as 3. *)
Theorem C4_validate_score (field_name : string) :
  (∀ z : Z,
     ((0 ≤ z ≤ 4)%Z ↔ ∃ v, Scoring._validate_score (PInt z) field_name = inr v)
     ∧ ((0 ≤ z ≤ 4)%Z → Scoring._validate_score (PInt z) field_name = inr (PInt z))
     ∧ (¬ (0 ≤ z ≤ 4)%Z →
        Scoring._validate_score (PInt z) field_name
        = inl (Scoring.ScoringError
                 ("Score for " +:+ field_name +:+ " must be between 0 and 4, got "
                  +:+ PyStr.str_int z))))
  ∧ (∀ q : Q,
       let z := PyNum.trunc q in
       ((0 <= q)%Q → (inject_Z z <= q)%Q ∧ (q < inject_Z z + 1)%Q)
       ∧ ((q <= 0)%Q → (q <= inject_Z z)%Q ∧ (inject_Z z - 1 < q)%Q)
       ∧ ((0 ≤ z ≤ 4)%Z
          ↔ ∃ v, Scoring._validate_score (PFloat (FFinite q)) field_name = inr v)
       ∧ ((0 ≤ z ≤ 4)%Z →
          Scoring._validate_score (PFloat (FFinite q)) field_name = inr (PInt z))
       ∧ (¬ (0 ≤ z ≤ 4)%Z →
          Scoring._validate_score (PFloat (FFinite q)) field_name
          = inl (Scoring.ScoringError
                   ("Score for " +:+ field_name +:+ " must be between 0 and 4, got "
                    +:+ PyStr.str_int z))))
  ∧ (∀ v : pyval,
       match v with
       | PStr _ | PList _ | PDict _ =>
           Scoring._validate_score v field_name
           = inl (Scoring.ScoringError
                    ("Invalid score type for " +:+ field_name +:+ ": expected int, got "
                     +:+ Scoring.type_repr v))
       | PNone =>
           Scoring._validate_score v field_name
           = inl (Scoring.ScoringError ("Missing required field: " +:+ field_name))
       | PBool _ => Scoring._validate_score v field_name = inr v
       | _ => True
       end)
  ∧ (∀ (py_str : pyval → string) (z : Z) (q : Q),
       (Scoring.score_response_check py_str field_name (PInt z) = None ↔ (0 ≤ z ≤ 4)%Z)
       ∧ (Scoring.score_response_check py_str field_name (PFloat (FFinite q)) = None
          ↔ (0 <= q)%Q ∧ (q <= 4)%Q))
  ∧ Scoring._validate_score (PInt 4) field_name = inr (PInt 4)
  ∧ (∃ e, Scoring._validate_score (PInt 5) field_name = inl (AppExc e)
          ∧ Exceptions.cls e = Exceptions.ScoringError)
  ∧ (∃ e, Scoring._validate_score (PInt (-1)) field_name = inl (AppExc e)
          ∧ Exceptions.cls e = Exceptions.ScoringError)
  ∧ Scoring._validate_score (PFloat (FFinite (39 # 10))) field_name = inr (PInt 3).
Proof.
  split; [| split; [| split; [| split; [| repeat split]]]].
  - intros z. split; [| split].
    + split.
      * intros Hz. exists (PInt z). by apply range_check_in.
      * intros [v Hv]. destruct (decide (0 ≤ z ≤ 4)%Z) as [| Hout]; [done |].
        cbn in Hv. rewrite (range_check_out _ _ _ _ Hout) in Hv. discriminate.
    + apply range_check_in.
    + apply range_check_out.
  - intros q z. split; [apply trunc_nonneg |]. split; [apply trunc_nonpos |].
    split; [| split].
    + split.
      * intros Hz. exists (PInt z). by apply range_check_in.
      * intros [v Hv]. destruct (decide (0 ≤ z ≤ 4)%Z) as [| Hout]; [done |].
        cbn in Hv. fold z in Hv. rewrite (range_check_out _ _ _ _ Hout) in Hv. discriminate.
    + apply range_check_in.
    + apply range_check_out.
  - intros [| [] | | | | |]; try reflexivity; exact I.
  - intros py_str z q. apply score_response_check_passes.
  - eexists. split; reflexivity.
  - eexists. split; reflexivity.
Qed.

(** C4 as stated fails on its last clause: for a score given as a
    string the message names the field and the type, and is the same
    for every such value, so it does not name the value; for a missing
    score the message names the field alone. *)
Lemma C4_type_error_does_not_name_value :
  (∃ message,
     Scoring._validate_score (PStr "excellent") "overall_score"
     = inl (Scoring.ScoringError message)
     ∧ message = "Invalid score type for overall_score: expected int, got <class 'str'>"
     ∧ PyStr.contains message "excellent" = false
     ∧ Scoring._validate_score (PStr "poor") "overall_score"
       = inl (Scoring.ScoringError message))
  ∧ Scoring._validate_score PNone "overall_score"
    = inl (Scoring.ScoringError "Missing required field: overall_score").
Proof.
  split; [| reflexivity].
  eexists. split; [reflexivity |]. split; [reflexivity |]. split; [| reflexivity].
  vm_compute. reflexivity.
Qed.

(** X7.  A float that is not finite, the one that is not a number or
    an infinity of either sign, passes the truncation to the built-in
    conversion, whose exception leaves [_validate_score] as it is,
    whatever the field: a [ValueError] or an [OverflowError], not a
    scoring error. *)
Lemma validate_score_not_a_number (field : string) :
  Scoring._validate_score (PFloat FNaN) field
  = inl (OtherExc "ValueError" "cannot convert float NaN to integer")
  ∧ (∀ negative : bool,
       Scoring._validate_score (PFloat (FInf negative)) field
       = inl (OtherExc "OverflowError" "cannot convert float infinity to integer")).
Proof. split; reflexivity. Qed.

(** X5.  What passes the test of [score_response] on a finite number
    also passes [_validate_score]; the converse fails at 4.5 and at
    -0.5, which truncate into the range. *)
Lemma score_response_check_stricter (py_str : pyval → string) (field : string) (q : Q) :
  Scoring.score_response_check py_str field (PFloat (FFinite q)) = None →
  Scoring._validate_score (PFloat (FFinite q)) field = inr (PInt (PyNum.trunc q)).
Proof.
  unfold Scoring.score_response_check. cbn.
  destruct (Qle_bool 0 q) eqn:H0; cbn; [| discriminate].
  destruct (Qle_bool q 4) eqn:H4; cbn; [| discriminate].
  intros _. apply Qle_bool_iff in H0, H4.
  apply range_check_in.
  destruct (trunc_nonneg q H0) as [Hlo Hhi].
  assert (Hz4 : (inject_Z (PyNum.trunc q) <= inject_Z 4)%Q) by (eapply Qle_trans; eauto).
  assert (Hz0 : (inject_Z 0 < inject_Z (PyNum.trunc q) + 1)%Q).
  { eapply Qle_lt_trans; eauto. }
  rewrite <- Zle_Qle in Hz4.
  assert (Hz0' : (inject_Z 0 < inject_Z (PyNum.trunc q + 1))%Q).
  { rewrite inject_Z_plus. exact Hz0. }
  rewrite <- Zlt_Qlt in Hz0'. lia.
Qed.

(** The lemma at 3.9. *)
Lemma score_response_check_stricter_witness :
  Scoring._validate_score (PFloat (FFinite (39 # 10))) "overall_score" = inr (PInt 3).
Proof.
  apply (score_response_check_stricter (λ _, "3.9") "overall_score" (39 # 10)).
  reflexivity.
Defined.

Example score_response_check_rejects_more :
  ∀ py_str field,
    Scoring.score_response_check py_str field (PFloat (FFinite (9 # 2))) ≠ None
    ∧ Scoring._validate_score (PFloat (FFinite (9 # 2))) field = inr (PInt 4)
    ∧ Scoring.score_response_check py_str field (PFloat (FFinite (-1 # 2))) ≠ None
    ∧ Scoring._validate_score (PFloat (FFinite (-1 # 2))) field = inr (PInt 0).
Proof. intros. repeat split; done. Qed.

(** ** Audio cleanup *)

Lemma append_assoc (a b c : string) : (a +:+ b) +:+ c = a +:+ b +:+ c.
Proof.
  induction a as [| x a IH]; [reflexivity |].
  change (String x ((a +:+ b) +:+ c) = String x (a +:+ b +:+ c)). by f_equal.
Qed.

(** ** Paths *)

Section PathFacts.
Import PathLib.

Lemma has_char_app (c : ascii) (a b : string) :
  PyStr.has_char c (a +:+ b) = PyStr.has_char c a || PyStr.has_char c b.
Proof.
  induction a as [| x a IH]; [reflexivity |].
  change (String x a +:+ b) with (String x (a +:+ b)). cbn [PyStr.has_char].
  by rewrite IH, orb_assoc.
Qed.

Lemma split_no_sep (sep : ascii) (s : string) :
  Forall (λ x, PyStr.has_char sep x = false) (PyStr.split_char sep s).
Proof.
  induction s as [| c s IH]; cbn [PyStr.split_char].
  { by repeat constructor. }
  destruct (Ascii.eqb c sep) eqn:Hc.
  - by constructor.
  - destruct (PyStr.split_char sep s) as [| x xs]; [| inversion IH; subst].
    + repeat constructor. cbn. by rewrite Hc.
    + constructor; [| done]. cbn. by rewrite Hc.
Qed.

Lemma split_single (sep : ascii) (x : string) :
  PyStr.has_char sep x = false → PyStr.split_char sep x = [x].
Proof.
  induction x as [| c x IH]; [done |]. cbn. intros [Hc Hx]%orb_false_elim.
  rewrite Hc, (IH Hx). reflexivity.
Qed.

Lemma split_app (sep : ascii) (x rest : string) :
  PyStr.has_char sep x = false →
  PyStr.split_char sep (x +:+ String sep rest) = x :: PyStr.split_char sep rest.
Proof.
  induction x as [| c x IH].
  - intros _. change ("" +:+ String sep rest) with (String sep rest).
    cbn [PyStr.split_char]. by rewrite Ascii.eqb_refl.
  - cbn [PyStr.has_char]. intros [Hc Hx]%orb_false_elim.
    change (String c x +:+ String sep rest) with (String c (x +:+ String sep rest)).
    cbn [PyStr.split_char]. rewrite Hc, (IH Hx). reflexivity.
Qed.

Lemma split_join (sep : ascii) (x : string) (xs : list string) :
  Forall (λ y, PyStr.has_char sep y = false) (x :: xs) →
  PyStr.split_char sep (PyStr.join (String sep "") (x :: xs)) = x :: xs.
Proof.
  revert x. induction xs as [| y ys IH]; intros x Hall.
  - apply split_single. by inversion Hall.
  - inversion Hall as [| ? ? Hx Hrest]; subst.
    change (PyStr.join (String sep "") (x :: y :: ys))
      with (x +:+ String sep "" +:+ PyStr.join (String sep "") (y :: ys)).
    change (String sep "" +:+ ?r) with (String sep r).
    rewrite split_app by done. f_equal. by apply IH.
Qed.

Lemma filter_good (xs : list string) :
  Forall good_part xs → List.filter is_part xs = xs.
Proof.
  induction 1 as [| x xs [Hx _] _ IH]; [done |]. cbn. by rewrite Hx, IH.
Qed.

Lemma good_no_slash (xs : list string) :
  Forall good_part xs → Forall (λ y, PyStr.has_char "/" y = false) xs.
Proof. intros H. eapply Forall_impl; [exact H |]. by intros x [_ ?]. Qed.

(** The text of the parts does not start with a slash. *)
Lemma join_head (xs : list string) :
  Forall good_part xs →
  PyStr.startswith (PyStr.join "/" xs) "/" = false
  ∧ lstrip_slash (PyStr.join "/" xs) = PyStr.join "/" xs.
Proof.
  destruct 1 as [| x xs [Hpart Hslash] _]; [done |].
  destruct x as [| c x]; [done |].
  cbn in Hslash. apply orb_false_elim in Hslash as [Hc _].
  assert (Hc' : Ascii.eqb "/" c = false).
  { destruct (Ascii.eqb_spec "/" c) as [<- |]; [by rewrite Ascii.eqb_refl in Hc | done]. }
  destruct xs as [| y ys]; cbn [PyStr.join];
    [| change (String c x +:+ ?r) with (String c (x +:+ r))];
    cbn [PyStr.startswith lstrip_slash]; rewrite Hc, Hc'; done.
Qed.

Lemma parts_of_join (xs : list string) :
  Forall good_part xs →
  List.filter is_part (PyStr.split_char "/" (PyStr.join "/" xs)) = xs.
Proof.
  intros Hgood. destruct xs as [| x xs]; [reflexivity |].
  rewrite (split_join "/") by (by apply good_no_slash). by apply filter_good.
Qed.

Lemma startswith_nil (s : string) : PyStr.startswith s "" = true.
Proof. by destruct s. Qed.

(** [Path(str(p))] is [p]. *)
Lemma Path_str (p : PurePath) : normal p → Path (str p) = p.
Proof.
  destruct p as [r ps]. intros [Hroot Hgood]. cbn [root parts] in *.
  destruct (join_head ps Hgood) as [Hstart Hstrip].
  unfold str. cbn [root parts].
  apply elem_of_cons in Hroot as [-> | Hroot].
  { destruct ps as [| x xs]; [reflexivity |].
    change ("" +:+ ?s) with s. unfold Path, splitroot. rewrite Hstart.
    by rewrite parts_of_join. }
  apply elem_of_cons in Hroot as [-> | Hroot].
  { unfold Path, splitroot.
    change ("/" +:+ ?s) with (String "/" s).
    cbn [PyStr.startswith lstrip_slash]. rewrite Ascii.eqb_refl, startswith_nil, Hstrip.
    cbn [String.length]. replace (_ - _ =? 2)%nat with false.
    2:{ symmetry. apply Nat.eqb_neq. lia. }
    by rewrite parts_of_join. }
  apply list_elem_of_singleton in Hroot as ->.
  unfold Path, splitroot.
  change ("//" +:+ ?s) with (String "/" (String "/" s)).
  cbn [PyStr.startswith lstrip_slash]. rewrite !Ascii.eqb_refl, ?startswith_nil, Hstrip.
  cbn [String.length]. replace (_ - _ =? 2)%nat with true.
  2:{ symmetry. apply Nat.eqb_eq. lia. }
  by rewrite parts_of_join.
Qed.

Lemma Path_normal (s : string) : normal (Path s).
Proof.
  unfold Path, splitroot.
  assert (Hparts : ∀ rel, Forall good_part (List.filter is_part (PyStr.split_char "/" rel))).
  { intros rel. apply Forall_forall. intros x [Hin Hpart]%list_elem_of_In%filter_In.
    split; [done |]. pose proof (split_no_sep "/" rel) as Hall.
    rewrite Forall_forall in Hall. apply Hall. by apply list_elem_of_In. }
  destruct (PyStr.startswith s "/").
  - destruct (_ =? 2)%nat; (split; [set_solver | apply Hparts]).
  - split; [set_solver | apply Hparts].
Qed.

Lemma joinpath_normal (p : PurePath) (key : string) : normal p → normal (joinpath p key).
Proof.
  intros [Hroot Hgood]. unfold joinpath.
  destruct (Path_normal key) as [Hroot' Hgood'].
  destruct (String.eqb (root (Path key)) ""); [| done].
  split; [done |]. cbn. by apply Forall_app.
Qed.

Lemma child_normal (p : PurePath) (name : string) :
  normal p → good_part name → normal (child p name).
Proof.
  intros [Hroot Hgood] Hname. split; [done |]. cbn. apply Forall_app.
  split; [done |]. by constructor.
Qed.

Lemma valid_name_good (name : string) : Fs.valid_name name = true → good_part name.
Proof.
  unfold Fs.valid_name, good_part, is_part.
  rewrite !andb_true_iff, !negb_true_iff. intros (((((? & ?) & ?) & ?) & ?) & ?).
  repeat split; done.
Qed.

End PathFacts.

(** ** The filesystem *)

Section FsFacts.
Import PathLib Fs.

Lemma enter_ext (w w' : world) (d : list string) :
  files w' = files w → enter w' d = enter w d.
Proof. intros H. unfold enter. by rewrite H. Qed.

Lemma walk_ext (w w' : world) (names : list string) :
  files w' = files w → ∀ d, walk w' d names = walk w d names.
Proof.
  intros H. induction names as [| name names IH]; intros d; [done |].
  cbn [walk]. rewrite (enter_ext w w') by done.
  destruct (enter w d); [done |]. by rewrite !IH.
Qed.

Lemma locate_ext (w w' : world) (p : PurePath) :
  cwd w' = cwd w → files w' = files w → locate w' p = locate w p.
Proof.
  intros Hc Hf. unfold locate, start. rewrite Hc, (walk_ext w w') by done.
  by rewrite Hf.
Qed.

Lemma stat_ext (w w' : world) (p : PurePath) :
  cwd w' = cwd w → files w' = files w → stat w' p = stat w p.
Proof. intros Hc Hf. unfold stat. by rewrite (locate_ext w w'). Qed.

Lemma exists_ext (w w' : world) (p : PurePath) :
  cwd w' = cwd w → files w' = files w → exists_ w' p = exists_ w p.
Proof. intros Hc Hf. unfold exists_. by rewrite (stat_ext w w'). Qed.

(** A successful stat found a node that can be looked at. *)
Lemma stat_inr (w : world) (p : PurePath) (n : node) :
  stat w p = inr n ↔ ∃ key, locate w p = inr (key, n) ∧ stat_error n = None.
Proof.
  unfold stat. destruct (locate w p) as [e | [key n']]; [split; [done | by intros (? & ? & ?)] |].
  destruct (stat_error n') as [e |] eqn:He.
  - split; [done |]. intros (? & [= <- <-] & ?). congruence.
  - split.
    + intros [= <-]. eauto.
    + by intros (? & [= <- <-] & ?).
Qed.

Lemma locate_inr (w : world) (p : PurePath) (key : list string) (n : node) :
  locate w p = inr (key, n) ↔
  PyStr.has_char NUL (str p) = false
  ∧ (byte_length (str p) < PATH_MAX)%nat
  ∧ walk w (start w p) (names_of p) = inr key
  ∧ files w !! key = Some n.
Proof.
  unfold locate. destruct (PyStr.has_char NUL (str p)); [split; [done | by intros (? & _)] |].
  destruct (Nat.leb_spec PATH_MAX (byte_length (str p))) as [Hlen | Hlen].
  { split; [done |]. intros (_ & ? & _). lia. }
  destruct (walk w (start w p) (names_of p)) as [e | k];
    [split; [done | by intros (_ & _ & ? & _)] |].
  destruct (files w !! k) as [n' |] eqn:Hk.
  - split.
    + intros [= <- <-]. done.
    + intros (_ & _ & [= <-] & Hn). congruence.
  - split; [done |]. intros (_ & _ & [= <-] & Hn). congruence.
Qed.

(** Resolution looks at directories only: it is the same in a world
    that has kept them. *)
Lemma enter_stable (w w' : world) (d : list string) :
  (∀ k n, files w !! k = Some n → kind n = Directory → files w' !! k = Some n) →
  enter w d = inr tt → enter w' d = inr tt.
Proof.
  intros Hkeep. unfold enter.
  destruct (files w !! d) as [n |] eqn:Hd; [| done].
  destruct (kind n) eqn:Hk; try done. by rewrite (Hkeep d n Hd Hk), Hk.
Qed.

Lemma walk_stable (w w' : world) (names : list string) :
  (∀ k n, files w !! k = Some n → kind n = Directory → files w' !! k = Some n) →
  ∀ d key, walk w d names = inr key → walk w' d names = inr key.
Proof.
  intros Hkeep. induction names as [| name names IH]; intros d key; [done |].
  cbn [walk]. destruct (enter w d) as [e | []] eqn:He; [done |].
  rewrite (enter_stable w w' d Hkeep He).
  destruct (String.eqb name "."); [apply IH |].
  destruct (String.eqb name ".."); [apply IH |].
  destruct (_ <? _)%nat; [done | apply IH].
Qed.

Lemma walk_app (w : world) (a b : list string) :
  ∀ d, walk w d (a ++ b)
       = match walk w d a with
         | inl e => inl e
         | inr k => walk w k b
         end.
Proof.
  induction a as [| name a IH]; intros d; [done |].
  cbn [app walk]. destruct (enter w d); [done |].
  destruct (String.eqb name "."); [apply IH |].
  destruct (String.eqb name ".."); [apply IH |].
  destruct (_ <? _)%nat; [done | apply IH].
Qed.

(** The place of an entry of a directory. *)
Lemma walk_entry (w : world) (dir : list string) (name : string) :
  valid_name name = true →
  walk w dir [name]
  = match enter w dir with
    | inl e => inl e
    | inr _ => inr (dir ++ [name])%list
    end.
Proof.
  unfold valid_name. rewrite !andb_true_iff, !negb_true_iff.
  intros (((((_ & Hdot) & Hdots) & _) & _) & Hlen%Nat.leb_le).
  cbn [walk]. destruct (enter w dir); [done |]. rewrite Hdot, Hdots.
  destruct (Nat.ltb_spec NAME_MAX (byte_length name)); [lia | done].
Qed.

Lemma walk_child (w : world) (p : PurePath) (name : string) (d dir : list string) :
  valid_name name = true →
  walk w d (names_of p) = inr dir →
  walk w d (names_of (child p name))
  = match enter w dir with
    | inl e => inl e
    | inr _ => inr (dir ++ [name])%list
    end.
Proof.
  intros Hname Hdir.
  assert (Hnames : names_of (child p name) = (parts p ++ [name])%list).
  { unfold names_of, child. cbn [root parts]. destruct (root p); [| done].
    by destruct (parts p). }
  rewrite Hnames, walk_app.
  unfold names_of in Hdir. destruct (root p) as [| c r] eqn:Hroot.
  - destruct (parts p) as [| x xs] eqn:Hparts.
    + cbn [walk] in Hdir. destruct (enter w d) as [e | []] eqn:He; [done |].
      cbn in Hdir. injection Hdir as <-.
      assert (Hnil : walk w d [] = inr d) by reflexivity. rewrite Hnil.
      rewrite walk_entry by done. by rewrite He.
    + rewrite Hdir. by apply walk_entry.
  - rewrite Hdir. by apply walk_entry.
Qed.

Lemma start_child (w : world) (p : PurePath) (name : string) :
  start w (child p name) = start w p.
Proof. reflexivity. Qed.

(** A world that has shrunk has kept its directories. *)
Lemma shrunk_keeps (w0 w : world) :
  shrunk w0 w →
  ∀ k n, files w0 !! k = Some n → kind n = Directory → files w !! k = Some n.
Proof.
  intros [_ H] k n Hk Hdir. destruct (H k) as [-> | (_ & n' & Hn' & Hreg)]; [done |].
  congruence.
Qed.

Lemma shrunk_refl (w : world) : shrunk w w.
Proof. split; [done |]. by left. Qed.

Lemma shrunk_ext (w0 w w' : world) :
  shrunk w0 w → cwd w' = cwd w → files w' = files w → shrunk w0 w'.
Proof. intros [Hc H] Hc' Hf. split; [congruence |]. intros k. by rewrite Hf. Qed.

Lemma shrunk_delete (w0 w w' : world) (key : list string) (n : node) :
  shrunk w0 w → files w !! key = Some n → kind n = RegularFile →
  cwd w' = cwd w → files w' = delete key (files w) → shrunk w0 w'.
Proof.
  intros [Hc H] Hkey Hreg Hc' Hf. split; [congruence |]. intros k. rewrite Hf.
  destruct (decide (k = key)) as [-> | Hne].
  - right. split; [apply lookup_delete_eq |]. destruct (H key) as [Heq | [Hnone _]].
    + exists n. by rewrite <- Heq.
    + congruence.
  - rewrite lookup_delete_ne by done. apply H.
Qed.

Lemma shrunk_trans (w0 w1 w2 : world) : shrunk w0 w1 → shrunk w1 w2 → shrunk w0 w2.
Proof.
  intros [Hc1 H1] [Hc2 H2]. split; [congruence |]. intros k.
  destruct (H2 k) as [-> | (Hnone & n & Hn & Hreg)]; [apply H1 |].
  right. split; [done |]. destruct (H1 k) as [Heq | [? _]]; [| congruence].
  exists n. by rewrite <- Heq.
Qed.

End FsFacts.

(** ** [cleanup_audio_file] *)

Section CleanupFacts.
Import PathLib Fs AudioCleanup.

(** [cleanup_audio_file] always returns. *)
Lemma cleanup_returns (w : world) (file_path : string) :
  ∃ b, fst (cleanup_audio_file w file_path) = inr b.
Proof.
  unfold cleanup_audio_file.
  destruct (cleanup_body w file_path) as [[e | b] w']; [| eauto].
  destruct (is_permission_error e); eauto.
Qed.

(** What one call does, by what the system finds at the path. *)
Lemma cleanup_empty_path (w : world) :
  cleanup_audio_file w ""
  = (inr false, logger WARNING "cleanup_audio_file called with empty file_path" w).
Proof. reflexivity. Qed.

Lemma cleanup_absent (w : world) (file_path : string) :
  file_path ≠ "" → exists_ w (Path file_path) = inr false →
  cleanup_audio_file w file_path
  = (inr true,
     logger INFO ("Audio file does not exist (already deleted?): " +:+ file_path) w).
Proof.
  intros Hne Hex. unfold cleanup_audio_file, cleanup_body.
  apply String.eqb_neq in Hne. by rewrite Hne, Hex.
Qed.

Lemma cleanup_stat_fails (w : world) (file_path : string) (e : exc) :
  file_path ≠ "" → stat w (Path file_path) = inl e → ignored e = false →
  ∃ msg, cleanup_audio_file w file_path = (inr false, logger ERROR msg w).
Proof.
  intros Hne Hstat Hign. unfold cleanup_audio_file, cleanup_body, exists_.
  apply String.eqb_neq in Hne. rewrite Hne, Hstat, Hign.
  destruct (is_permission_error e); eauto.
Qed.

Lemma cleanup_not_a_file (w : world) (file_path : string) (n : node) :
  file_path ≠ "" → stat w (Path file_path) = inr n → kind n ≠ RegularFile →
  cleanup_audio_file w file_path
  = (inr false, logger WARNING ("Path is not a file: " +:+ file_path) w).
Proof.
  intros Hne Hstat Hkind. unfold cleanup_audio_file, cleanup_body, exists_, is_file.
  apply String.eqb_neq in Hne. rewrite Hne, Hstat.
  by rewrite bool_decide_eq_false_2.
Qed.

Lemma cleanup_unlink_fails (w : world) (file_path : string) (n : node) (e : errno) :
  file_path ≠ "" → stat w (Path file_path) = inr n → kind n = RegularFile →
  unlink_error n = Some e →
  ∃ msg, cleanup_audio_file w file_path = (inr false, logger ERROR msg w).
Proof.
  intros Hne Hstat Hkind Hunlink.
  unfold cleanup_audio_file, cleanup_body, exists_, is_file, unlink.
  apply String.eqb_neq in Hne. rewrite Hne, Hstat.
  rewrite bool_decide_eq_true_2 by done.
  apply stat_inr in Hstat as (key & -> & _). rewrite Hkind, Hunlink.
  destruct (is_permission_error _); eauto.
Qed.

Lemma cleanup_deletes (w : world) (file_path : string) (key : list string) (n : node) :
  file_path ≠ "" → locate w (Path file_path) = inr (key, n) → stat_error n = None →
  kind n = RegularFile → unlink_error n = None →
  cleanup_audio_file w file_path
  = (inr true,
     logger INFO ("Successfully deleted audio file: " +:+ file_path)
       {| cwd := cwd w; files := delete key (files w); log := log w |}).
Proof.
  intros Hne Hloc Hstat Hkind Hunlink.
  assert (Hs : stat w (Path file_path) = inr n) by (apply stat_inr; eauto).
  unfold cleanup_audio_file, cleanup_body, exists_, is_file, unlink.
  apply String.eqb_neq in Hne. rewrite Hne, Hs.
  rewrite bool_decide_eq_true_2 by done. by rewrite Hloc, Hkind, Hunlink.
Qed.

(** The cases together: the files are untouched, or the call returned
    true after unlinking the regular file that the path names. *)
Lemma cleanup_cases (w : world) (file_path : string) :
  let r := cleanup_audio_file w file_path in
  cwd (snd r) = cwd w
  ∧ ((files (snd r) = files w
      ∧ (fst r = inr true → file_path ≠ "" ∧ exists_ w (Path file_path) = inr false))
     ∨ (fst r = inr true
        ∧ file_path ≠ ""
        ∧ ∃ key n, locate w (Path file_path) = inr (key, n) ∧ stat_error n = None
                   ∧ kind n = RegularFile ∧ unlink_error n = None
                   ∧ files (snd r) = delete key (files w))).
Proof.
  cbv zeta. destruct (decide (file_path = "")) as [-> | Hne].
  { rewrite cleanup_empty_path. split; [done |]. left. done. }
  destruct (stat w (Path file_path)) as [e | n] eqn:Hstat.
  - destruct (ignored e) eqn:Hign.
    + rewrite cleanup_absent; [| done | by unfold exists_; rewrite Hstat, Hign].
      split; [done |]. left. split; [done |]. intros _. split; [done |].
      unfold exists_. by rewrite Hstat, Hign.
    + destruct (cleanup_stat_fails w file_path e) as [msg ->]; try done.
      split; [done |]. left. done.
  - destruct (decide (kind n = RegularFile)) as [Hkind | Hkind].
    + destruct (unlink_error n) as [e |] eqn:Hunlink.
      * destruct (cleanup_unlink_fails w file_path n e) as [msg ->]; try done.
        split; [done |]. left. done.
      * pose proof Hstat as (key & Hloc & Hse)%stat_inr.
        rewrite (cleanup_deletes w file_path key n) by done.
        split; [done |]. right. cbn. eauto 10.
    + rewrite (cleanup_not_a_file w file_path n) by done.
      split; [done |]. left. done.
Qed.

(** Nothing lies any more where a regular file was unlinked. *)
Lemma gone_after_delete (w w' : world) (p : PurePath) (key : list string) (n : node) :
  locate w p = inr (key, n) → kind n = RegularFile →
  cwd w' = cwd w → files w' = delete key (files w) →
  exists_ w' p = inr false.
Proof.
  intros (Hnul & Hlen & Hwalk & Hkey)%locate_inr Hkind Hc Hf.
  assert (Hwalk' : walk w' (start w' p) (names_of p) = inr key).
  { unfold start. rewrite Hc. fold (start w p).
    eapply walk_stable; [| exact Hwalk].
    intros k m Hk Hdir. rewrite Hf. rewrite lookup_delete_ne; [done |].
    intros <-. congruence. }
  unfold exists_, stat, locate. rewrite Hnul.
  destruct (Nat.leb_spec PATH_MAX (byte_length (str p))); [lia |].
  rewrite Hwalk', Hf, lookup_delete_eq. reflexivity.
Qed.

(** A second call changes nothing more and returns what the first did. *)
Lemma cleanup_idempotent (w : world) (file_path : string) :
  let r1 := cleanup_audio_file w file_path in
  let r2 := cleanup_audio_file (snd r1) file_path in
  fst r2 = fst r1 ∧ files (snd r2) = files (snd r1).
Proof.
  cbv zeta. destruct (decide (file_path = "")) as [-> | Hne].
  { rewrite !cleanup_empty_path. done. }
  destruct (stat w (Path file_path)) as [e | n] eqn:Hstat.
  - destruct (ignored e) eqn:Hign.
    + assert (Hex : exists_ w (Path file_path) = inr false)
        by (by unfold exists_; rewrite Hstat, Hign).
      rewrite (cleanup_absent w) by done. cbn [snd fst].
      rewrite cleanup_absent; [done | done |]. by rewrite (exists_ext w).
    + destruct (cleanup_stat_fails w file_path e) as [msg ->]; try done. cbn [snd fst].
      destruct (cleanup_stat_fails (logger ERROR msg w) file_path e) as [msg' ->];
        try done. by rewrite (stat_ext w).
  - destruct (decide (kind n = RegularFile)) as [Hkind | Hkind].
    + destruct (unlink_error n) as [e |] eqn:Hunlink.
      * destruct (cleanup_unlink_fails w file_path n e) as [msg ->]; try done.
        cbn [snd fst].
        destruct (cleanup_unlink_fails (logger ERROR msg w) file_path n e) as [msg' ->];
          try done. by rewrite (stat_ext w).
      * pose proof Hstat as (key & Hloc & Hse)%stat_inr.
        rewrite (cleanup_deletes w file_path key n) by done. cbn [snd fst].
        rewrite cleanup_absent; [done | done |].
        by eapply (gone_after_delete w).
    + rewrite (cleanup_not_a_file w file_path n) by done. cbn [snd fst].
      rewrite (cleanup_not_a_file _ file_path n); [done | done | | done].
      by rewrite (stat_ext w).
Qed.

End CleanupFacts.

(** C8, as the code has it: for a path that is not the empty string,
    read as [Path] reads it.  [cleanup_audio_file] always returns a
    boolean.  When the system finds nothing at the path (the path or
    one of the directories on the way is missing) it returns true and
    leaves the files alone; so it does in particular when the names of
    the path lead to a place where nothing lies.  With something there
    that is not a regular file it returns false.  When looking at the
    path fails with another error (a name that is too long, a directory
    that may not be searched, an input or output error), or when
    unlinking the file fails, it returns false, writes an error to the
    log and leaves the files alone.  A regular file that can be
    unlinked is removed, nothing else is, the result is true and the
    path exists no more.  A second call returns what the first returned
    and changes no file.  On the empty string the result is false. *)
Theorem C8_cleanup_audio_file (w : Fs.world) (file_path : string) :
  file_path ≠ "" →
  let path := PathLib.Path file_path in
  let r := AudioCleanup.cleanup_audio_file w file_path in
  (∃ b, fst r = inr b)
  ∧ (Fs.exists_ w path = inr false →
     fst r = inr true ∧ Fs.files (snd r) = Fs.files w)
  ∧ (∀ key, PyStr.has_char Fs.NUL (PathLib.str path) = false →
       (Fs.byte_length (PathLib.str path) < Fs.PATH_MAX)%nat →
       Fs.walk w (Fs.start w path) (Fs.names_of path) = inr key →
       Fs.files w !! key = None →
       fst r = inr true ∧ Fs.files (snd r) = Fs.files w)
  ∧ (∀ n, Fs.stat w path = inr n → Fs.kind n ≠ Fs.RegularFile →
       fst r = inr false ∧ Fs.files (snd r) = Fs.files w)
  ∧ (∀ e, Fs.stat w path = inl e → Fs.ignored e = false →
       fst r = inr false
       ∧ Fs.files (snd r) = Fs.files w
       ∧ ∃ msg, Fs.log (snd r) = (Fs.log w ++ [(Fs.ERROR, msg)])%list)
  ∧ (∀ n e, Fs.stat w path = inr n → Fs.kind n = Fs.RegularFile →
       Fs.unlink_error n = Some e →
       fst r = inr false
       ∧ Fs.files (snd r) = Fs.files w
       ∧ ∃ msg, Fs.log (snd r) = (Fs.log w ++ [(Fs.ERROR, msg)])%list)
  ∧ (∀ key n, Fs.locate w path = inr (key, n) → Fs.stat_error n = None →
       Fs.kind n = Fs.RegularFile → Fs.unlink_error n = None →
       fst r = inr true
       ∧ Fs.files (snd r) = delete key (Fs.files w)
       ∧ Fs.exists_ (snd r) path = inr false)
  ∧ (let r2 := AudioCleanup.cleanup_audio_file (snd r) file_path in
     fst r2 = fst r ∧ Fs.files (snd r2) = Fs.files (snd r))
  ∧ fst (AudioCleanup.cleanup_audio_file w "") = inr false.
Proof.
  intros Hne path r. subst r path.
  split; [apply cleanup_returns |].
  split; [intros Hex; by rewrite cleanup_absent |].
  split.
  { intros key Hnul Hlen Hwalk Hnone. rewrite cleanup_absent; [done | done |].
    unfold Fs.exists_, Fs.stat, Fs.locate. rewrite Hnul.
    destruct (Nat.leb_spec Fs.PATH_MAX (Fs.byte_length (PathLib.str (PathLib.Path file_path))));
      [lia |].
    by rewrite Hwalk, Hnone. }
  split; [intros n Hstat Hkind; by rewrite (cleanup_not_a_file w file_path n) |].
  split.
  { intros e Hstat Hign.
    destruct (cleanup_stat_fails w file_path e) as [msg ->]; eauto. }
  split.
  { intros n e Hstat Hkind Hunlink.
    destruct (cleanup_unlink_fails w file_path n e) as [msg ->]; eauto. }
  split.
  { intros key n Hloc Hstat Hkind Hunlink.
    rewrite (cleanup_deletes w file_path key n) by done. cbn [fst snd].
    split; [done |]. split; [done |]. by eapply (gone_after_delete w). }
  split; [apply cleanup_idempotent | reflexivity].
Qed.

(** The theorem at the old lecture file of the example directory,
    written with a dot and a doubled and a trailing slash. *)
Lemma C8_cleanup_audio_file_witness :
  let r := AudioCleanup.cleanup_audio_file Disk.storage "./audio//lecture_old.mp3/" in
  fst r = inr true
  ∧ Fs.files (snd r) !! ["srv"; "app"; "audio"; "lecture_old.mp3"] = None
  ∧ Fs.files (snd r) !! ["srv"; "app"; "audio"; "lecture_new.mp3"]
    = Some (Disk.plain_file 200000)
  ∧ Fs.exists_ (snd r) (PathLib.Path "audio/lecture_old.mp3") = inr false.
Proof.
  pose proof (C8_cleanup_audio_file Disk.storage "./audio//lecture_old.mp3/"
                ltac:(discriminate)) as (_ & _ & _ & _ & _ & _ & Hdel & _ & _).
  cbv zeta in *.
  destruct (Hdel ["srv"; "app"; "audio"; "lecture_old.mp3"] (Disk.plain_file 1000))
    as (Hres & Hfiles & Hgone);
    [vm_compute; reflexivity | reflexivity | reflexivity | reflexivity |].
  split; [exact Hres |]. rewrite Hfiles.
  split; [apply lookup_delete_eq |]. split; [| exact Hgone].
  rewrite lookup_delete_ne by discriminate. vm_compute. reflexivity.
Defined.

(** C8 as stated fails at a path where no file can lie: in the world
    that holds the root directory and nothing else, a name of 300
    letters is answered with false, as the system refuses to look at a
    name that long. *)
Lemma C8_long_name_is_refused :
  (∀ key, key ≠ [] → Fs.files Disk.empty_world !! key = None)
  ∧ String.length Disk.long_name = 300%nat
  ∧ Fs.stat Disk.empty_world (PathLib.Path Disk.long_name)
    = inl (Fs.OSError Fs.ENAMETOOLONG Disk.long_name)
  ∧ fst (AudioCleanup.cleanup_audio_file Disk.empty_world Disk.long_name) = inr false.
Proof.
  split; [| split; [| split]]; [| vm_compute; reflexivity ..].
  intros key Hkey. unfold Disk.empty_world. cbn [Fs.files].
  by rewrite lookup_singleton_ne.
Qed.

(** The same path forms in the example directory: a path to a directory
    is answered with false, with or without a slash at its end, and a
    path through a regular file with true. *)
Example cleanup_path_forms :
  fst (AudioCleanup.cleanup_audio_file Disk.storage "audio/") = inr false
  ∧ fst (AudioCleanup.cleanup_audio_file Disk.storage "audio") = inr false
  ∧ fst (AudioCleanup.cleanup_audio_file Disk.storage "audio/lecture_old.mp3/x") = inr true
  ∧ fst (AudioCleanup.cleanup_audio_file Disk.storage "private/lecture_1.mp3") = inr false
  ∧ fst (AudioCleanup.cleanup_audio_file Disk.storage "/srv/app/audio/missing.mp3")
    = inr true.
Proof. vm_compute. done. Qed.

(** C9.  On the empty path [cleanup_audio_file] returns false, in every
    world, whatever lies in it; it writes a warning and touches no
    file.  On every other path that does not exist it returns true. *)
Theorem C9_empty_path_returns_false (w : Fs.world) :
  AudioCleanup.cleanup_audio_file w ""
  = (inr false,
     Fs.logger Fs.WARNING "cleanup_audio_file called with empty file_path" w)
  ∧ fst (AudioCleanup.cleanup_audio_file w "") = inr false
  ∧ Fs.files (snd (AudioCleanup.cleanup_audio_file w "")) = Fs.files w
  ∧ (∀ file_path, file_path ≠ "" →
       Fs.exists_ w (PathLib.Path file_path) = inr false →
       fst (AudioCleanup.cleanup_audio_file w file_path) = inr true).
Proof.
  repeat split. intros file_path Hne Hex. by rewrite cleanup_absent.
Qed.

(** ** The age-based sweep *)

Section SweepFacts.
Import PathLib Fs AudioCleanup.

Lemma str_nonempty (p : PurePath) : normal p → str p ≠ "".
Proof.
  destruct p as [r ps]. intros [Hroot Hgood]. unfold str. cbn [root parts] in *.
  destruct r as [| c r]; [| done].
  destruct ps as [| x xs]; [done |].
  apply Forall_cons in Hgood as [[Hpart _] _].
  destruct x as [| c x]; [done |]. by destruct xs.
Qed.

(** The entries of a directory are the valid names under which
    something lies in it. *)
Lemma entry_name_spec (dir key : list string) (name : string) :
  entry_name dir key = Some name ↔ key = (dir ++ [name])%list ∧ valid_name name = true.
Proof.
  unfold entry_name. destruct key as [| x key']; [split; [done |] |].
  { intros [Hk _]. by destruct dir. }
  set (key := x :: key').
  assert (Hsplit : key = (List.removelast key ++ [List.last key ""])%list).
  { by apply app_removelast_last. }
  split.
  - destruct (bool_decide _ && _) eqn:Hb; [| done].
    apply andb_prop in Hb as [Hdir%bool_decide_eq_true Hvalid].
    intros [= <-]. split; [| done]. by rewrite <- Hdir.
  - intros [Hk Hvalid].
    assert (Hlast : List.last key "" = name) by (rewrite Hk; apply last_last).
    assert (Hinit : List.removelast key = dir) by (rewrite Hk; apply removelast_last).
    rewrite Hlast, Hvalid, bool_decide_eq_true_2 by done. reflexivity.
Qed.

Lemma entries_spec (w : world) (dir : list string) (name : string) :
  name ∈ entries w dir ↔
  valid_name name = true ∧ is_Some (files w !! (dir ++ [name])%list).
Proof.
  unfold entries. rewrite list_elem_of_omap. split.
  - intros (key & Hin & (-> & Hvalid)%entry_name_spec). split; [done |].
    apply list_elem_of_fmap in Hin as ([k n] & -> & Hin).
    apply elem_of_map_to_list in Hin. cbn. eauto.
  - intros [Hvalid [n Hn]]. exists (dir ++ [name])%list. split.
    + apply list_elem_of_fmap. exists ((dir ++ [name])%list, n). split; [done |].
      by apply elem_of_map_to_list.
    + by apply entry_name_spec.
Qed.

(** One round of the loop: the files stay as they are, or the regular
    file that the path names, older than the cutoff, is unlinked and
    counted. *)
Lemma sweep_step (c : pyfloat) (af : PurePath) (rest : list PurePath) (w : world)
  (count : nat) :
  normal af →
  ∃ w' count',
    sweep c (af :: rest) w count = sweep c rest w' count'
    ∧ cwd w' = cwd w
    ∧ ((files w' = files w ∧ count' = count)
       ∨ (∃ key n, locate w af = inr (key, n) ∧ stat_error n = None
                   ∧ kind n = RegularFile ∧ unlink_error n = None
                   ∧ PyFloat.lt (st_mtime n) c = true
                   ∧ files w' = delete key (files w) ∧ count' = S count)).
Proof.
  intros Hnormal. cbn [sweep]. unfold stat_mtime.
  destruct (stat w af) as [e | n] eqn:Hstat.
  { eexists _, _. split; [reflexivity |]. split; [done |]. left. done. }
  destruct (PyFloat.lt (st_mtime n) c) eqn:Hold.
  2:{ eexists _, _. split; [reflexivity |]. split; [done |]. left. done. }
  pose proof (cleanup_cases w (str af)) as Hcases. cbv zeta in Hcases.
  rewrite (Path_str af Hnormal) in Hcases.
  destruct (cleanup_audio_file w (str af)) as [[e | [|]] w1] eqn:Hclean;
    cbn [fst snd] in Hcases; destruct Hcases as [Hcwd Hcases];
    (eexists _, _; split; [reflexivity |]; split; [exact Hcwd |]).
  - left. destruct Hcases as [[Hf _] | (? & _)]; done.
  - right. destruct Hcases as [[_ Habs] | (_ & _ & key & n' & Hloc & Hse & Hk & Hu & Hf)].
    + destruct Habs as [_ Habs]; [done |]. unfold exists_ in Habs.
      by rewrite Hstat in Habs.
    + assert (n' = n) as ->.
      { apply stat_inr in Hstat as (key' & Hloc' & _). congruence. }
      exists key, n. done.
  - left. destruct Hcases as [[Hf _] | (? & _)]; done.
Qed.

(** The same round, when the file can be looked at and unlinked. *)
Lemma sweep_step_deletes (c : pyfloat) (af : PurePath) (rest : list PurePath) (w : world)
  (count : nat) (key : list string) (n : node) :
  normal af →
  locate w af = inr (key, n) → stat_error n = None → kind n = RegularFile →
  unlink_error n = None → PyFloat.lt (st_mtime n) c = true →
  ∃ w', sweep c (af :: rest) w count = sweep c rest w' (S count)
        ∧ cwd w' = cwd w ∧ files w' = delete key (files w).
Proof.
  intros Hnormal Hloc Hse Hk Hu Hold. cbn [sweep]. unfold stat_mtime.
  assert (Hstat : stat w af = inr n) by (apply stat_inr; eauto).
  rewrite Hstat, Hold.
  rewrite (cleanup_deletes w (str af) key n);
    [| by apply str_nonempty | by rewrite Path_str | done ..].
  eexists. split; [reflexivity |]. done.
Qed.

Section Directory.
(** A swept directory: the path [sp] leads to the place [dir] in the
    world [w0] the sweep starts in. *)
Variable c : pyfloat.
Variable sp : PurePath.
Variable w0 : world.
Variable dir : list string.
Hypothesis Hnormal : normal sp.
Hypothesis Hdir : walk w0 (start w0 sp) (names_of sp) = inr dir.

(** Where the path of an entry leads, in a world shrunk since. *)
Lemma locate_entry (w : world) (name : string) (key : list string) (n : node) :
  shrunk w0 w → valid_name name = true →
  locate w (child sp name) = inr (key, n) →
  key = (dir ++ [name])%list.
Proof.
  intros Hshrunk Hvalid (_ & _ & Hwalk & _)%locate_inr.
  assert (Hdir' : walk w (start w sp) (names_of sp) = inr dir).
  { unfold start. rewrite (proj1 Hshrunk). fold (start w0 sp).
    eapply walk_stable; [| exact Hdir]. by apply shrunk_keeps. }
  rewrite start_child, (walk_child w sp name _ dir Hvalid Hdir') in Hwalk.
  destruct (enter w dir); congruence.
Qed.

(** A path is changed by the loop only by being deleted, and then it
    was an entry of the directory among those listed, a regular file
    older than the cutoff; the count grows by the number of paths that
    disappeared. *)
Lemma sweep_spec (names : list string) :
  ∀ (w : world) (count : nat),
    shrunk w0 w →
    Forall (λ name, valid_name name = true) names →
    let r := sweep c (child sp <$> names) w count in
    cwd (snd r) = cwd w
    ∧ (∀ q, files (snd r) !! q = files w !! q
            ∨ (files (snd r) !! q = None
               ∧ ∃ name n, name ∈ names ∧ q = (dir ++ [name])%list
                           ∧ files w !! q = Some n ∧ kind n = RegularFile
                           ∧ PyFloat.lt (st_mtime n) c = true))
    ∧ fst r = (count + size (dom (files w) ∖ dom (files (snd r))))%nat.
Proof.
  induction names as [| name names IH]; intros w count Hshrunk Hvalid; cbv zeta.
  { cbn. split; [done |]. split; [by left |]. rewrite difference_diag_L, size_empty. lia. }
  apply Forall_cons in Hvalid as [Hname Hvalid].
  rewrite fmap_cons.
  destruct (sweep_step c (child sp name) (child sp <$> names) w count)
    as (w' & count' & -> & Hcwd & Hstep).
  { apply child_normal; [done | by apply valid_name_good]. }
  destruct Hstep as [[Hf ->] | (key & n & Hloc & Hse & Hk & Hu & Hold & Hf & ->)].
  - destruct (IH w' count) as (Hc & Hq & Hn); [by eapply shrunk_ext | done |].
    cbv zeta in Hc, Hq, Hn. rewrite Hf in Hq, Hn. split; [congruence |].
    split; [| exact Hn].
    intros q. destruct (Hq q) as [? | (? & name' & n' & ? & ?)]; [by left | right].
    split; [done |]. exists name', n'. split; [set_solver | done].
  - assert (Hkey : key = (dir ++ [name])%list) by (by eapply locate_entry).
    assert (Hlook : files w !! key = Some n) by (by apply locate_inr in Hloc as (_ & _ & _ & ?)).
    destruct (IH w' (S count)) as (Hc & Hq & Hn); [by eapply shrunk_delete | done |].
    cbv zeta in Hc, Hq, Hn. rewrite Hf in Hq, Hn.
    set (r := sweep c (child sp <$> names) w' (S count)) in *.
    assert (Hgone : files (snd r) !! key = None).
    { destruct (Hq key) as [-> | (? & _)]; [apply lookup_delete_eq | done]. }
    split; [congruence |]. split.
    + intros q. destruct (decide (q = key)) as [-> | Hne].
      * right. split; [done |]. exists name, n. split; [set_solver | done].
      * destruct (Hq q) as [Heq | (Hnone & name' & n' & Hin & Hqq & Hn' & ?)].
        -- left. by rewrite Heq, lookup_delete_ne.
        -- right. split; [done |]. exists name', n'. split; [set_solver |].
           split; [done |]. by rewrite lookup_delete_ne in Hn'.
    + rewrite Hn.
      assert (Hsub : dom (files (snd r)) ⊆ dom (files w) ∖ {[key]}).
      { intros q Hqin. apply elem_of_dom in Hqin as [x Hx].
        destruct (Hq q) as [Heq | (Hnone & _)]; [| congruence].
        rewrite Hx in Heq. apply elem_of_difference. split.
        - apply elem_of_dom. destruct (decide (q = key)) as [-> | Hne].
          + by rewrite lookup_delete_eq in Heq.
          + rewrite lookup_delete_ne in Heq by done. eauto.
        - intros ->%elem_of_singleton. by rewrite lookup_delete_eq in Heq. }
      assert (Hp : key ∈ dom (files w)) by (apply elem_of_dom; eauto).
      rewrite dom_delete_L.
      replace (dom (files w) ∖ dom (files (snd r)))
        with ({[key]} ∪ (dom (files w) ∖ {[key]}) ∖ dom (files (snd r))).
      * rewrite (size_union ({[key]} : gset (list string))) by set_solver.
        rewrite size_singleton. lia.
      * apply set_eq. intros q. rewrite elem_of_union, !elem_of_difference,
          elem_of_singleton.
        split.
        -- intros [-> | [[? ?] ?]]; [| done]. split; [done |].
           intros Hin. apply Hsub in Hin. set_solver.
        -- intros [? ?]. destruct (decide (q = key)); [by left | right; done].
Qed.

Lemma sweep_shrinks (names : list string) (w : world) (count : nat) :
  shrunk w0 w → Forall (λ name, valid_name name = true) names →
  shrunk w (snd (sweep c (child sp <$> names) w count)).
Proof.
  intros Hshrunk Hvalid.
  destruct (sweep_spec names w count Hshrunk Hvalid) as (Hc & Hq & _).
  split; [done |]. intros k. destruct (Hq k) as [? | (? & _ & n & _ & _ & ? & ? & _)];
    [by left | right; eauto].
Qed.

(** What the loop removes for sure: a listed entry that is a regular
    file older than the cutoff, that can be looked at and unlinked,
    under a path that the system accepts. *)
Lemma sweep_deletes (name0 : string) (n0 : node) :
  valid_name name0 = true →
  PyStr.has_char NUL (str (child sp name0)) = false →
  (byte_length (str (child sp name0)) < PATH_MAX)%nat →
  enter w0 dir = inr tt →
  files w0 !! (dir ++ [name0])%list = Some n0 →
  stat_error n0 = None → kind n0 = RegularFile → unlink_error n0 = None →
  PyFloat.lt (st_mtime n0) c = true →
  ∀ (names : list string) (w : world) (count : nat),
    shrunk w0 w → Forall (λ name, valid_name name = true) names →
    name0 ∈ names →
    files (snd (sweep c (child sp <$> names) w count)) !! (dir ++ [name0])%list = None.
Proof.
  intros Hvalid0 Hnul Hlen Henter Hlook Hse Hk Hu Hold.
  induction names as [| name names IH]; intros w count Hshrunk Hvalid Hin.
  { by apply elem_of_nil in Hin. }
  apply Forall_cons in Hvalid as [Hname Hvalid].
  assert (Hchild : normal (child sp name)).
  { apply child_normal; [done | by apply valid_name_good]. }
  rewrite fmap_cons.
  (* what lies at the entry now *)
  destruct (decide (name = name0)) as [-> | Hne].
  - destruct (proj2 Hshrunk (dir ++ [name0])%list) as [Hsame | [Hnone _]].
    + rewrite Hlook in Hsame.
      assert (Hloc : locate w (child sp name0) = inr ((dir ++ [name0])%list, n0)).
      { apply locate_inr. split; [done |]. split; [done |]. split; [| done].
        assert (Hdir' : walk w (start w sp) (names_of sp) = inr dir).
        { unfold start. rewrite (proj1 Hshrunk). fold (start w0 sp).
          eapply walk_stable; [| exact Hdir]. by apply shrunk_keeps. }
        rewrite start_child, (walk_child w sp name0 _ dir Hvalid0 Hdir').
        by rewrite (enter_stable w0 w dir (shrunk_keeps w0 w Hshrunk) Henter). }
      destruct (sweep_step_deletes c (child sp name0) (child sp <$> names) w count
                  _ n0 Hchild Hloc Hse Hk Hu Hold) as (w' & -> & Hcwd & Hf).
      assert (Hshrunk' : shrunk w0 w') by (by eapply shrunk_delete).
      destruct (sweep_spec names w' (S count) Hshrunk' Hvalid) as (_ & Hq & _).
      destruct (Hq (dir ++ [name0])%list) as [-> | [? _]]; [| done].
      rewrite Hf. apply lookup_delete_eq.
    + destruct (sweep_step c (child sp name0) (child sp <$> names) w count Hchild)
        as (w' & count' & -> & Hcwd & Hstep).
      assert (Hshrunk' : shrunk w0 w').
      { destruct Hstep as [[Hf _] | (key & n & Hloc & _ & Hreg & _ & _ & Hf & _)].
        - by eapply shrunk_ext.
        - eapply shrunk_delete; try done.
          by apply locate_inr in Hloc as (_ & _ & _ & ?). }
      assert (Hnone' : files w' !! (dir ++ [name0])%list = None).
      { destruct Hstep as [[-> _] | (key & _ & _ & _ & _ & _ & _ & -> & _)]; [done |].
        destruct (decide ((dir ++ [name0])%list = key)) as [<- | ?];
          [apply lookup_delete_eq | by rewrite lookup_delete_ne]. }
      destruct (sweep_spec names w' count' Hshrunk' Hvalid) as (_ & Hq & _).
      destruct (Hq (dir ++ [name0])%list) as [-> | [? _]]; done.
  - destruct (sweep_step c (child sp name) (child sp <$> names) w count Hchild)
      as (w' & count' & -> & Hcwd & Hstep).
    apply IH; [| done | set_solver].
    destruct Hstep as [[Hf _] | (key & n & Hloc & _ & Hreg & _ & _ & Hf & _)].
    + by eapply shrunk_ext.
    + eapply shrunk_delete; try done.
      by apply locate_inr in Hloc as (_ & _ & _ & ?).
Qed.

End Directory.

End SweepFacts.

Section GlobFacts.
Import PathLib Fs AudioCleanup.

(** What [glob] lists: nothing, or the matching entries of the
    directory that the path names. *)
Lemma glob_spec (w : world) (sp : PurePath) (audio_files : list PurePath) :
  glob w sp = inr audio_files →
  audio_files = []
  ∨ ∃ dir d, locate w sp = inr (dir, d) ∧ kind d = Directory
             ∧ audio_files = child sp <$> List.filter glob_match (entries w dir).
Proof.
  unfold glob, is_dir, scandir.
  destruct (stat w sp) as [e | d] eqn:Hstat.
  { destruct (ignored e); [| done]. intros [= <-]. by left. }
  destruct (bool_decide (kind d = Directory)) eqn:Hk; [| intros [= <-]; by left].
  apply bool_decide_eq_true in Hk.
  apply stat_inr in Hstat as (dir & Hloc & _). rewrite Hloc, Hk.
  destruct (scandir_error d) as [e |].
  { destruct (is_permission_error _); [| done]. intros [= <-]. by left. }
  intros [= <-]. right. eauto.
Qed.

Lemma glob_lists (w : world) (sp : PurePath) (dir : list string) (d : node) :
  locate w sp = inr (dir, d) → kind d = Directory → stat_error d = None →
  scandir_error d = None →
  glob w sp = inr (child sp <$> List.filter glob_match (entries w dir)).
Proof.
  intros Hloc Hk Hse Hsc. unfold glob, is_dir, scandir.
  assert (Hstat : stat w sp = inr d) by (apply stat_inr; eauto).
  rewrite Hstat, bool_decide_eq_true_2 by done. by rewrite Hloc, Hk, Hsc.
Qed.

Lemma listed_valid (w : world) (dir : list string) :
  Forall (λ name, valid_name name = true) (List.filter glob_match (entries w dir)).
Proof.
  apply Forall_forall. intros name [Hin _]%list_elem_of_In%filter_In.
  apply list_elem_of_In, entries_spec in Hin. tauto.
Qed.

Lemma has_char_join_snoc (c : ascii) (xs : list string) (name : string) :
  Ascii.eqb "/" c = false →
  PyStr.has_char c (PyStr.join "/" (xs ++ [name]))
  = PyStr.has_char c (PyStr.join "/" xs) || PyStr.has_char c name.
Proof.
  intros Hc. induction xs as [| x xs IH]; [reflexivity |].
  destruct xs as [| y ys].
  - cbn [app PyStr.join]. rewrite !has_char_app. cbn [PyStr.has_char]. by rewrite Hc.
  - change (PyStr.join "/" ((x :: y :: ys) ++ [name]))
      with (x +:+ "/" +:+ PyStr.join "/" ((y :: ys) ++ [name])).
    change (PyStr.join "/" (x :: y :: ys)) with (x +:+ "/" +:+ PyStr.join "/" (y :: ys)).
    rewrite !has_char_app, IH. cbn [PyStr.has_char]. rewrite Hc.
    by rewrite !orb_false_r, ?orb_false_l, orb_assoc.
Qed.

(** A character that is neither in the text of a path nor in a name is
    not in the text of the entry of that name. *)
Lemma str_child_chars (c : ascii) (p : PurePath) (name : string) :
  Ascii.eqb "/" c = false →
  PyStr.has_char c (str p) = false → PyStr.has_char c name = false →
  PyStr.has_char c (str (child p name)) = false.
Proof.
  intros Hc Hp Hname. destruct p as [r ps]. unfold str, child in *. cbn [root parts] in *.
  destruct r as [| a r].
  - destruct ps as [| x xs]; [done |].
    cbn [app]. change ("" +:+ ?s) with s in *.
    change (x :: (xs ++ [name]))%list with ((x :: xs) ++ [name])%list.
    by rewrite has_char_join_snoc, Hp, Hname.
  - destruct (ps ++ [name])%list eqn:Happ; [by destruct ps |]. rewrite <- Happ.
    assert (Hsplit : PyStr.has_char c (String a r) = false
                     ∧ PyStr.has_char c (PyStr.join "/" ps) = false).
    { destruct ps; rewrite has_char_app in Hp; by apply orb_false_elim in Hp. }
    rewrite has_char_app, has_char_join_snoc by done.
    destruct Hsplit as [-> ->]. by rewrite Hname.
Qed.

End GlobFacts.

(** C10.  The sweep changes a place only by deleting what lies there,
    and a deleted place is an entry of the directory that the storage
    path names, under a name that matches lecture_*.mp3, a regular file
    whose modification time lies before the cutoff.  Every file whose
    name does not match keeps what it had, whatever its age, and so
    does every file outside the directory.  The number returned is the
    number of places that were taken before and are free after, all of
    them matching. *)
Theorem C10_sweep_touches_only_lecture_files (AUDIO_STORAGE_PATH : option string)
  (w : Fs.world) (audio_storage_path : option string) (max_age_hours : Z) (now : Q) :
  let r :=
    AudioCleanup.cleanup_old_audio_files AUDIO_STORAGE_PATH w audio_storage_path
      max_age_hours now in
  let storage_path :=
    PathLib.Path (AudioCleanup.storage_of AUDIO_STORAGE_PATH audio_storage_path) in
  (∀ q, AudioCleanup.glob_match (List.last q "") = false →
        Fs.files (snd r) !! q = Fs.files w !! q)
  ∧ (∀ q, Fs.files (snd r) !! q ≠ Fs.files w !! q →
          Fs.files (snd r) !! q = None
          ∧ ∃ dir d name n cutoff_time,
              Fs.locate w storage_path = inr (dir, d)
              ∧ Fs.kind d = Fs.Directory
              ∧ q = (dir ++ [name])%list
              ∧ AudioCleanup.glob_match name = true
              ∧ Fs.files w !! q = Some n
              ∧ Fs.kind n = Fs.RegularFile
              ∧ AudioCleanup.cutoff now max_age_hours = inr cutoff_time
              ∧ PyFloat.lt (Fs.st_mtime n) cutoff_time = true)
  ∧ fst r = size (dom (Fs.files w) ∖ dom (Fs.files (snd r))).
Proof.
  cbv zeta. set (sp := PathLib.Path _).
  (* the changes, in one statement *)
  enough (Hall :
    let r := AudioCleanup.cleanup_old_audio_files AUDIO_STORAGE_PATH w audio_storage_path
               max_age_hours now in
    (∀ q, Fs.files (snd r) !! q = Fs.files w !! q
          ∨ (Fs.files (snd r) !! q = None
             ∧ ∃ dir d name n cutoff_time,
                 Fs.locate w sp = inr (dir, d)
                 ∧ Fs.kind d = Fs.Directory
                 ∧ q = (dir ++ [name])%list
                 ∧ AudioCleanup.glob_match name = true
                 ∧ Fs.files w !! q = Some n
                 ∧ Fs.kind n = Fs.RegularFile
                 ∧ AudioCleanup.cutoff now max_age_hours = inr cutoff_time
                 ∧ PyFloat.lt (Fs.st_mtime n) cutoff_time = true))
    ∧ fst r = size (dom (Fs.files w) ∖ dom (Fs.files (snd r)))).
  { cbv zeta in Hall. destruct Hall as [Hq Hcount]. split; [| split; [| exact Hcount]].
    - intros q Hno. destruct (Hq q) as [? | (_ & dir & d & name & n & c & _ & _ & -> & Hm & _)];
        [done |].
      rewrite last_last in Hno. congruence.
    - intros q Hchanged. destruct (Hq q) as [? | ?]; done. }
  cbv zeta. unfold AudioCleanup.cleanup_old_audio_files. fold sp.
  assert (Hsame : ∀ w' : Fs.world,
            Fs.files w' = Fs.files w →
            (∀ q, Fs.files w' !! q = Fs.files w !! q
                  ∨ (Fs.files w' !! q = None
                     ∧ ∃ dir d name n cutoff_time,
                         Fs.locate w sp = inr (dir, d)
                         ∧ Fs.kind d = Fs.Directory
                         ∧ q = (dir ++ [name])%list
                         ∧ AudioCleanup.glob_match name = true
                         ∧ Fs.files w !! q = Some n
                         ∧ Fs.kind n = Fs.RegularFile
                         ∧ AudioCleanup.cutoff now max_age_hours = inr cutoff_time
                         ∧ PyFloat.lt (Fs.st_mtime n) cutoff_time = true))
            ∧ 0%nat = size (dom (Fs.files w) ∖ dom (Fs.files w'))).
  { intros w' ->. split; [by left |]. by rewrite difference_diag_L, size_empty. }
  destruct (Fs.exists_ w sp) as [e | []] eqn:Hex; cbn [fst snd]; try by apply Hsame.
  destruct (AudioCleanup.cutoff now max_age_hours) as [e | cutoff_time] eqn:Hcut;
    cbn [fst snd]; [by apply Hsame |].
  destruct (AudioCleanup.glob w sp) as [e | audio_files] eqn:Hglob;
    cbn [fst snd]; [by apply Hsame |].
  destruct (glob_spec w sp audio_files Hglob) as [-> | (dir & d & Hloc & Hk & ->)].
  { cbn. by apply Hsame. }
  pose proof Hloc as (_ & _ & Hwalk & _)%locate_inr.
  pose proof (sweep_spec cutoff_time sp w dir (Path_normal _) Hwalk
                (List.filter AudioCleanup.glob_match (Fs.entries w dir)) w 0
                (shrunk_refl w) (listed_valid w dir)) as Hspec.
  cbv zeta in Hspec.
  destruct (AudioCleanup.sweep _ _ w 0) as [deleted_count w'] eqn:Hsweep.
  cbn [fst snd Fs.files Fs.logger] in *.
  destruct Hspec as (_ & Hq & Hcount). split; [| by rewrite Hcount].
  intros q. destruct (Hq q) as [? | (Hnone & name & n & Hin & -> & Hn & Hreg & Hold)];
    [by left | right].
  split; [done |]. exists dir, d, name, n, cutoff_time.
  apply list_elem_of_In, filter_In in Hin as [_ Hmatch]. done.
Qed.

(** The sweep on the example directory, a day and more after the old
    files were written, the storage path given with a slash at its end:
    the old lecture file goes, the recent one, the old file of another
    name and the one that cannot be unlinked stay. *)
Example sweep_example :
  let r := AudioCleanup.cleanup_old_audio_files None Disk.storage (Some "audio/") 24 100000 in
  fst r = 1%nat
  ∧ Fs.files (snd r) !! ["srv"; "app"; "audio"; "lecture_old.mp3"] = None
  ∧ Fs.files (snd r) !! ["srv"; "app"; "audio"; "lecture_new.mp3"]
    = Some (Disk.plain_file 200000)
  ∧ Fs.files (snd r) !! ["srv"; "app"; "audio"; "notes_old.mp3"]
    = Some (Disk.plain_file 1000)
  ∧ Fs.files (snd r) !! ["srv"; "app"; "audio"; "lecture_locked.mp3"]
    = Some (Disk.locked_file 1000).
Proof. vm_compute. done. Qed.

(** ** The rate limiter *)

Section RateLimiterFacts.
Import Http RateLimiter.
Variable call_next : Request → Response.

Lemma Qltb_lt (x y : Q) : Qltb x y = true ↔ (x < y)%Q.
Proof.
  unfold Qltb. rewrite negb_true_iff. split.
  - intros H. apply Qnot_le_lt. intros Hle. apply Qle_bool_iff in Hle. congruence.
  - intros H. destruct (Qle_bool y x) eqn:Hle; [| reflexivity].
    apply Qle_bool_iff in Hle. exfalso. by apply (Qlt_not_le x y).
Qed.

Lemma history_of_set (self : RateLimitMiddleware) (k k' : string) (l : list Q) :
  history_of (set_history self k l) k' = if decide (k = k') then l else history_of self k'.
Proof.
  unfold history_of, set_history. cbn. rewrite lookup_insert. by case_decide.
Qed.

Lemma clean_history (self : RateLimitMiddleware) (k : string) (t : Q) :
  history_of (_clean_old_requests self k t) k = kept self k t.
Proof. unfold _clean_old_requests. rewrite history_of_set. by case_decide. Qed.

Lemma dispatch_exempt (self : RateLimitMiddleware) (request : Request) (t : Q) :
  path (url request) ∈ exempt_paths →
  dispatch call_next self request t = (call_next request, self).
Proof. intros H. unfold dispatch. by rewrite bool_decide_eq_true_2. Qed.

Lemma dispatch_limited (self : RateLimitMiddleware) (request : Request) (t : Q)
  (k := _get_user_identifier request) :
  path (url request) ∉ exempt_paths →
  (requests_per_minute self ≤ Z.of_nat (length (kept self k t)))%Z →
  dispatch call_next self request t
  = (limited_response self t, set_history self k (kept self k t)).
Proof.
  intros Hpath Hfull. unfold dispatch. rewrite bool_decide_eq_false_2 by done.
  unfold _is_rate_limited. fold k. rewrite clean_history. cbn [requests_per_minute
    _clean_old_requests set_history].
  destruct (_ <=? _)%Z eqn:Hle; [reflexivity | lia].
Qed.

Lemma dispatch_admitted (self : RateLimitMiddleware) (request : Request) (t : Q)
  (k := _get_user_identifier request)
  (capacity := requests_per_minute self)
  (count := Z.of_nat (length (kept self k t))) :
  path (url request) ∉ exempt_paths →
  window_size self = 60%Z →
  (count < capacity)%Z →
  dispatch call_next self request t
  = (admitted_response (call_next request) capacity (capacity - count - 1) t,
     set_history self k (kept self k t ++ [t])).
Proof.
  intros Hpath Hwin Hfree. unfold dispatch.
  rewrite bool_decide_eq_false_2 by done.
  unfold _is_rate_limited. fold k. rewrite clean_history.
  cbn [requests_per_minute _clean_old_requests set_history window_size].
  fold count capacity.
  destruct (_ <=? _)%Z eqn:Hle; [lia |].
  rewrite Z.max_r by lia. unfold admitted_response, reset_time.
  cbn [window_size set_history _clean_old_requests]. rewrite Hwin.
  f_equal.
  unfold set_history. cbn. f_equal. apply insert_insert_eq.
Qed.

Lemma response_at_ext (self self' : RateLimitMiddleware) (request : Request)
  (i : nat) (t : Q) :
  requests_per_minute self' = requests_per_minute self →
  window_size self' = window_size self →
  response_at call_next self' request i t = response_at call_next self request i t.
Proof.
  intros Hc Hw. unfold response_at, limited_response, reset_time. by rewrite Hc, Hw.
Qed.

Lemma response_at_full (self : RateLimitMiddleware) (request : Request)
  (i j : nat) (t : Q) :
  (requests_per_minute self ≤ Z.of_nat i)%Z → (requests_per_minute self ≤ Z.of_nat j)%Z →
  response_at call_next self request i t = response_at call_next self request j t.
Proof.
  intros Hi Hj. unfold response_at.
  destruct (Z.of_nat i <? _)%Z eqn:H1; [lia |].
  destruct (Z.of_nat j <? _)%Z eqn:H2; [lia | reflexivity].
Qed.

(** Inside a window that starts at [lo], a timestamp that is stale at
    [lo] is dropped and one taken in the window is kept. *)
Lemma kept_in_window (self : RateLimitMiddleware) (k : string) (lo t : Q) :
  window_size self = 60%Z →
  (lo <= t)%Q → (t < lo + 60)%Q →
  (∀ ts, ts ∈ history_of self k → (ts <= lo - 60)%Q ∨ (lo <= ts)%Q) →
  kept self k t = List.filter (Qle_bool lo) (history_of self k).
Proof.
  intros Hwin Hlo Hhi Hhist. unfold kept. rewrite Hwin.
  change (inject_Z 60) with 60%Q.
  apply filter_ext_in. intros ts Hin%list_elem_of_In.
  destruct (Hhist ts Hin) as [Hstale | Hfresh].
  - transitivity false.
    + apply not_true_is_false. rewrite Qltb_lt. intros H. lra.
    + symmetry. apply not_true_is_false. rewrite Qle_bool_iff. intros H. lra.
  - transitivity true.
    + apply Qltb_lt. lra.
    + symmetry. by apply Qle_bool_iff.
Qed.

Lemma filter_fresh_idem (lo : Q) (l : list Q) :
  List.filter (Qle_bool lo) (List.filter (Qle_bool lo) l) = List.filter (Qle_bool lo) l.
Proof.
  induction l as [| x l IH]; [reflexivity |]. cbn.
  destruct (Qle_bool lo x) eqn:Hx; cbn; rewrite ?Hx, IH; reflexivity.
Qed.

Lemma filter_fresh_elem (lo : Q) (l : list Q) (ts : Q) :
  ts ∈ List.filter (Qle_bool lo) l → (lo <= ts)%Q.
Proof.
  rewrite list_elem_of_In, filter_In. intros [_ H]. by apply Qle_bool_iff.
Qed.

(** A run inside one window: with [h] timestamps of the window already
    taken, arrival [i] is answered as arrival [h + i] of a run that
    starts with none, and the timestamps taken in the window afterwards
    are the former ones and the arrivals that found a free slot. *)
Lemma run_in_window (request : Request) (lo : Q) :
  path (url request) ∉ exempt_paths →
  let k := _get_user_identifier request in
  ∀ (times : list Q) (self : RateLimitMiddleware),
    window_size self = 60%Z →
    (∀ t, t ∈ times → (lo <= t)%Q ∧ (t < lo + 60)%Q) →
    (∀ ts, ts ∈ history_of self k → (ts <= lo - 60)%Q ∨ (lo <= ts)%Q) →
    let fresh := List.filter (Qle_bool lo) (history_of self k) in
    let h := length fresh in
    let r := run call_next self request times in
    fst r = imap (λ i t, response_at call_next self request (h + i) t) times
    ∧ List.filter (Qle_bool lo) (history_of (snd r) k)
      = (fresh ++ take (Z.to_nat (requests_per_minute self - Z.of_nat h)) times)%list
    ∧ requests_per_minute (snd r) = requests_per_minute self
    ∧ window_size (snd r) = 60%Z.
Proof.
  intros Hpath k times.
  induction times as [| t times IH]; intros self Hwin Htimes Hhist fresh h r.
  { subst r. cbn. rewrite take_nil, app_nil_r. done. }
  assert (Hhdef : h = length fresh) by reflexivity. clearbody h.
  destruct (Htimes t) as [Hlo Hhi]; [set_solver |].
  assert (Hkept : kept self k t = fresh) by (by apply kept_in_window).
  assert (Htail : ∀ t', t' ∈ times → (lo <= t')%Q ∧ (t' < lo + 60)%Q).
  { intros t' Hin. apply Htimes. set_solver. }
  subst r. cbn [run]. rewrite imap_cons.
  destruct (decide (requests_per_minute self ≤ Z.of_nat h)%Z) as [Hfull | Hfree].
  - rewrite dispatch_limited by (try fold k; rewrite ?Hkept, <- ?Hhdef; done).
    fold k. rewrite Hkept. cbn [fst snd].
    set (self' := set_history self k fresh).
    assert (Hh' : history_of self' k = fresh).
    { unfold self'. rewrite history_of_set. by case_decide. }
    destruct (IH self') as (Hresp & Hstamps & Hcap & Hwin'); [done | done | |].
    { rewrite Hh'. intros ts Hts. right. by eapply filter_fresh_elem. }
    rewrite Hh' in Hresp, Hstamps. unfold fresh in Hresp, Hstamps.
    rewrite filter_fresh_idem in Hresp, Hstamps. fold fresh in Hresp, Hstamps.
    rewrite <- Hhdef in Hresp, Hstamps.
    split; [| split; [| split]].
    + f_equal.
      * unfold response_at. destruct (Z.ltb_spec (Z.of_nat (h + 0)) (requests_per_minute self)) as [Hlt | Hlt];
          [exfalso; clear - Hlt Hfull; lia | reflexivity].
      * rewrite Hresp. apply imap_ext. intros i x _. cbn.
        rewrite (response_at_ext self self') by done.
        apply response_at_full; clear - Hfull; lia.
    + rewrite Hstamps. cbn [requests_per_minute self' set_history].
      replace (Z.to_nat _) with 0%nat by (clear - Hfull; lia). reflexivity.
    + rewrite Hcap. reflexivity.
    + exact Hwin'.
  - assert (Hfree' : (Z.of_nat (length (kept self k t)) < requests_per_minute self)%Z).
    { rewrite Hkept, <- Hhdef. clear - Hfree. lia. }
    rewrite dispatch_admitted by done. fold k. rewrite Hkept, <- Hhdef.
    cbn [fst snd].
    set (self' := set_history self k (fresh ++ [t])).
    assert (Hh' : history_of self' k = (fresh ++ [t])%list).
    { unfold self'. rewrite history_of_set. by case_decide. }
    assert (Hff : List.filter (Qle_bool lo) (fresh ++ [t]) = (fresh ++ [t])%list).
    { rewrite List.filter_app. unfold fresh at 1. rewrite filter_fresh_idem. fold fresh.
      cbn. apply Qle_bool_iff in Hlo. by rewrite Hlo. }
    destruct (IH self') as (Hresp & Hstamps & Hcap & Hwin'); [done | done | |].
    { rewrite Hh'. intros ts [Hts | ->%list_elem_of_singleton]%elem_of_app.
      - right. by eapply filter_fresh_elem.
      - by right. }
    rewrite Hh', Hff in Hresp, Hstamps. rewrite length_app in Hresp, Hstamps.
    cbn [length] in Hresp, Hstamps. rewrite <- Hhdef in Hresp, Hstamps.
    split; [| split; [| split]].
    + f_equal.
      * unfold response_at. rewrite Nat.add_0_r.
        destruct (Z.ltb_spec (Z.of_nat h) (requests_per_minute self)) as [Hlt | Hlt];
          [reflexivity | exfalso; clear - Hlt Hfree; lia].
      * rewrite Hresp. apply imap_ext. intros i x _. cbn.
        rewrite (response_at_ext self self') by done.
        f_equal. clear. lia.
    + rewrite Hstamps. cbn [requests_per_minute self' set_history].
      rewrite <- app_assoc. f_equal. cbn [app].
      replace (Z.to_nat (requests_per_minute self - Z.of_nat h))
        with (S (Z.to_nat (requests_per_minute self - Z.of_nat (h + 1))))
        by (clear - Hfree; lia).
      reflexivity.
    + rewrite Hcap. reflexivity.
    + exact Hwin'.
Qed.

End RateLimiterFacts.

Section RateLimiterHeaders.
Import Http RateLimiter.

Lemma limited_response_headers (self : RateLimitMiddleware) (t : Q) :
  let response := limited_response self t in
  status_code response = 429%Z
  ∧ headers response !! "retry-after" = Some (PyStr.str_int (window_size self))
  ∧ headers response !! "x-ratelimit-limit"
    = Some (PyStr.str_int (requests_per_minute self))
  ∧ headers response !! "x-ratelimit-remaining" = Some "0"
  ∧ headers response !! "x-ratelimit-reset"
    = Some (PyStr.str_int (PyNum.trunc (PyFloat.add_int t (window_size self)))).
Proof.
  cbv zeta. unfold limited_response, reset_time, JSONResponse.
  split; [reflexivity |]. repeat split; header_lookup.
Qed.

Lemma admitted_response_headers (downstream : Response) (capacity remaining : Z) (t : Q) :
  let response := admitted_response downstream capacity remaining t in
  status_code response = status_code downstream
  ∧ body response = body downstream
  ∧ headers response !! "x-ratelimit-limit" = Some (PyStr.str_int capacity)
  ∧ headers response !! "x-ratelimit-remaining" = Some (PyStr.str_int remaining)
  ∧ headers response !! "x-ratelimit-reset"
    = Some (PyStr.str_int (PyNum.trunc (PyFloat.add_int t 60)))
  ∧ ∀ name, name ∉ ["x-ratelimit-limit"; "x-ratelimit-remaining"; "x-ratelimit-reset"] →
            headers response !! name = headers downstream !! name.
Proof.
  cbv zeta. unfold admitted_response.
  split; [reflexivity |]. split; [reflexivity |].
  split; [header_lookup |]. split; [header_lookup |]. split; [header_lookup |].
  intros name Hname. unfold with_header, headers_set. cbn [headers].
  repeat match goal with
    | |- context [lower ?n] =>
        let v := eval vm_compute in (lower n) in change (lower n) with v
    end.
  rewrite !lookup_insert_ne; [done | | |]; intros <-; apply Hname; set_solver.
Qed.

Lemma filter_none {A} (f : A → bool) (l : list A) :
  (∀ x, x ∈ l → f x = false) → List.filter f l = [].
Proof.
  induction l as [| x l IH]; intros H; [reflexivity |]. cbn.
  rewrite (H x) by set_solver. apply IH. intros y Hy. apply H. set_solver.
Qed.

End RateLimiterHeaders.

(** C1, as the code has it.  A check for the identity [k] at time [t],
    on a path that is not exempt, keeps of [k]'s timestamps exactly
    those newer than [t - 60], so all that are older are dropped.  With
    [count] timestamps kept and capacity [C]:
    if [C <= count] the answer is a 429 with Retry-After 60,
    X-RateLimit-Limit [C], X-RateLimit-Remaining 0 and X-RateLimit-Reset
    the whole seconds of the float sum [t + 60], and nothing is
    appended;
    otherwise [t] is appended, the answer is the downstream response
    with X-RateLimit-Limit [C], X-RateLimit-Remaining [C - count - 1]
    and the same X-RateLimit-Reset.  No other identity's history
    changes.  In a sequential run whose arrivals all lie in one window
    [lo, lo + 60), when every timestamp stored for [k] before the run is
    at most [lo - 60], the arrivals up to the [C]-th are admitted, each
    with one slot less remaining, and every later one is rejected. *)
Theorem C1_sliding_window (call_next : Http.Request → Http.Response)
  (self : RateLimiter.RateLimitMiddleware) (request : Http.Request) (t : Q) :
  RateLimiter.window_size self = 60%Z →
  Http.path (Http.url request) ∉ RateLimiter.exempt_paths →
  let k := RateLimiter._get_user_identifier request in
  let capacity := RateLimiter.requests_per_minute self in
  let count := Z.of_nat (length (kept self k t)) in
  let r := RateLimiter.dispatch call_next self request t in
  let reset := PyStr.str_int (PyNum.trunc (PyFloat.add_int t 60)) in
  (∀ ts, ts ∈ kept self k t ↔ ts ∈ RateLimiter.history_of self k ∧ (t - 60 < ts)%Q)
  ∧ ((capacity ≤ count)%Z →
     Http.status_code (fst r) = 429%Z
     ∧ Http.headers (fst r) !! "retry-after" = Some "60"
     ∧ Http.headers (fst r) !! "x-ratelimit-limit" = Some (PyStr.str_int capacity)
     ∧ Http.headers (fst r) !! "x-ratelimit-remaining" = Some "0"
     ∧ Http.headers (fst r) !! "x-ratelimit-reset" = Some reset
     ∧ RateLimiter.history_of (snd r) k = kept self k t)
  ∧ ((count < capacity)%Z →
     fst r = admitted_response (call_next request) capacity (capacity - count - 1) t
     ∧ Http.status_code (fst r) = Http.status_code (call_next request)
     ∧ Http.body (fst r) = Http.body (call_next request)
     ∧ Http.headers (fst r) !! "x-ratelimit-limit" = Some (PyStr.str_int capacity)
     ∧ Http.headers (fst r) !! "x-ratelimit-remaining"
       = Some (PyStr.str_int (capacity - count - 1))
     ∧ Http.headers (fst r) !! "x-ratelimit-reset" = Some reset
     ∧ RateLimiter.history_of (snd r) k = (kept self k t ++ [t])%list)
  ∧ (∀ k', k' ≠ k → RateLimiter.history_of (snd r) k' = RateLimiter.history_of self k')
  ∧ (∀ (times : list Q) (lo : Q),
       (∀ t', t' ∈ times → (lo <= t')%Q ∧ (t' < lo + 60)%Q) →
       (∀ ts, ts ∈ RateLimiter.history_of self k → (ts <= lo - 60)%Q) →
       let rr := RateLimiter.run call_next self request times in
       fst rr = imap (λ i t', response_at call_next self request i t') times
       ∧ List.filter (Qle_bool lo) (RateLimiter.history_of (snd rr) k)
         = take (Z.to_nat capacity) times).
Proof.
  intros Hwin Hpath k capacity count r reset.
  split; [| split; [| split; [| split]]].
  - intros ts. unfold kept. rewrite Hwin, !list_elem_of_In, filter_In, Qltb_lt. done.
  - intros Hfull. subst r. rewrite dispatch_limited by done. cbn [fst snd].
    destruct (limited_response_headers self t) as (Hs & Hra & Hl & Hrem & Hreset).
    rewrite Hwin in Hra, Hreset.
    split; [exact Hs |]. split; [exact Hra |]. split; [exact Hl |].
    split; [exact Hrem |]. split; [exact Hreset |].
    fold k. rewrite history_of_set. by case_decide.
  - intros Hfree. subst r. rewrite dispatch_admitted by done. cbn [fst snd].
    fold k capacity count.
    destruct (admitted_response_headers (call_next request) capacity
                (capacity - count - 1) t) as (Hs & Hb & Hl & Hrem & Hreset & _).
    split; [reflexivity |]. split; [exact Hs |]. split; [exact Hb |].
    split; [exact Hl |]. split; [exact Hrem |]. split; [exact Hreset |].
    rewrite history_of_set. by case_decide.
  - intros k' Hk'. subst r.
    destruct (decide (capacity ≤ count)%Z) as [Hfull | Hfree].
    + rewrite dispatch_limited by done. cbn [snd]. fold k.
      rewrite history_of_set. by case_decide.
    + apply Z.nle_gt in Hfree. rewrite dispatch_admitted by done. cbn [snd]. fold k.
      rewrite history_of_set. by case_decide.
  - intros times lo Htimes Hstale rr. subst rr.
    assert (Hnone : List.filter (Qle_bool lo) (RateLimiter.history_of self k) = []).
    { apply filter_none. intros ts Hin. apply not_true_is_false.
      rewrite Qle_bool_iff. specialize (Hstale ts Hin). lra. }
    destruct (run_in_window call_next request lo Hpath times self Hwin Htimes)
      as (Hresp & Hstamps & _).
    { intros ts Hin. left. by apply Hstale. }
    fold k in Hresp, Hstamps. rewrite Hnone in Hresp, Hstamps.
    cbn [length app] in Hresp, Hstamps. rewrite Z.sub_0_r in Hstamps.
    split; [exact Hresp | exact Hstamps].
Qed.

(** The theorem at the first request of a client with a bearer token,
    capacity 2, half a second after time zero. *)
Lemma C1_sliding_window_witness :
  let r := RateLimiter.dispatch Inputs.ok_app (RateLimiter.init 2) Inputs.token_request
             (1 # 2) in
  Http.status_code (fst r) = 200%Z
  ∧ Http.headers (fst r) !! "x-ratelimit-limit" = Some "2"
  ∧ Http.headers (fst r) !! "x-ratelimit-remaining" = Some "1"
  ∧ Http.headers (fst r) !! "x-ratelimit-reset" = Some "60"
  ∧ RateLimiter.history_of (snd r) "token-of-alice" = [1 # 2].
Proof.
  assert (Hpath : Http.path (Http.url Inputs.token_request) ∉ RateLimiter.exempt_paths).
  { vm_compute. intros H. repeat (apply elem_of_cons in H as [H | H]; [discriminate |]).
    by apply elem_of_nil in H. }
  pose proof (C1_sliding_window Inputs.ok_app (RateLimiter.init 2) Inputs.token_request
                (1 # 2) eq_refl Hpath) as (_ & _ & Hadmitted & _).
  cbv zeta in Hadmitted.
  destruct Hadmitted as (_ & Hstatus & _ & Hlimit & Hremaining & Hreset & Hhistory);
    [vm_compute; reflexivity |].
  cbv zeta. split; [exact Hstatus |]. split; [exact Hlimit |].
  split; [exact Hremaining |]. split; [exact Hreset |]. exact Hhistory.
Defined.

(** C1 as stated fails in two places.  The reset header: at half a
    second past time zero the header of the admitted response, and of
    the rejected one that follows, reads 60, which is not [t + 60].
    The run: with capacity 2 and arrivals at 0, 1, 30, 31 and 32, the
    window of 60 seconds from 30 on holds three arrivals and not one
    admission, as the two admissions at 0 and 1 are less than 60 seconds
    old. *)
Lemma C1_reset_header_and_window :
  let first := RateLimiter.dispatch Inputs.ok_app (RateLimiter.init 1) Inputs.token_request
                 (1 # 2) in
  let second := RateLimiter.dispatch Inputs.ok_app (snd first) Inputs.token_request
                  (1 # 2) in
  (Http.status_code (fst first) = 200%Z
   ∧ Http.headers (fst first) !! "x-ratelimit-reset" = Some (PyStr.str_int 60)
   ∧ Http.status_code (fst second) = 429%Z
   ∧ Http.headers (fst second) !! "x-ratelimit-reset" = Some (PyStr.str_int 60)
   ∧ ¬ (inject_Z 60 == (1 # 2) + 60)%Q)
  ∧ Http.status_code <$>
      fst (RateLimiter.run Inputs.ok_app (RateLimiter.init 2) Inputs.token_request
             [0; 1; 30; 31; 32]%Q)
    = [200; 200; 429; 429; 429]%Z.
Proof.
  cbv zeta. split; [| vm_compute; reflexivity].
  split; [vm_compute; reflexivity |]. split; [vm_compute; reflexivity |].
  split; [vm_compute; reflexivity |]. split; [vm_compute; reflexivity |].
  intros H. vm_compute in H. discriminate.
Qed.

(** The sum is a float sum: just below one second past time zero the
    exact sum lies below 61 and the float sum is 61. *)
Example reset_header_rounds_up :
  let t := (9007199254740991 # 9007199254740992)%Q in
  let r := RateLimiter.dispatch Inputs.ok_app (RateLimiter.init 2) Inputs.token_request t in
  Http.headers (fst r) !! "x-ratelimit-reset" = Some "61"
  ∧ PyNum.trunc (t + 60) = 60%Z.
Proof. vm_compute. done. Qed.

(** A run with capacity 2 inside one window: two admissions, then
    rejections. *)
Example run_inside_window :
  Http.status_code <$>
    fst (RateLimiter.run Inputs.ok_app (RateLimiter.init 2) Inputs.token_request
           [0; 1 # 2; 1; 59]%Q)
  = [200; 200; 429; 429]%Z.
Proof. vm_compute. reflexivity. Qed.

(** At the edge of the window: the identity is at capacity after
    the arrivals at 0 and 0.5 and is rejected at 1; the arrival at 60
    finds the timestamp 0 dropped, as it is no longer newer than
    [t - 60], and is admitted; the next one is rejected again. *)
Example run_at_window_edge :
  Http.status_code <$>
    fst (RateLimiter.run Inputs.ok_app (RateLimiter.init 2) Inputs.token_request
           [0; 1 # 2; 1; 60; 60]%Q)
  = [200; 200; 429; 200; 429]%Z.
Proof. vm_compute. reflexivity. Qed.

(** Requests on the exempt paths pass without a check or a
    record. *)
Lemma exempt_paths_bypass (call_next : Http.Request → Http.Response)
  (self : RateLimiter.RateLimitMiddleware) (request : Http.Request) (t : Q) :
  Http.path (Http.url request) ∈ ["/"; "/health"; "/docs"; "/openapi.json"] →
  RateLimiter.dispatch call_next self request t = (call_next request, self).
Proof. apply dispatch_exempt. Qed.


(** The lemma at a health check, with the capacity used up. *)
Lemma exempt_paths_bypass_witness :
  let health :=
    {| Http.url := {| Http.scheme := "http"; Http.netloc := "api.example.org";
                      Http.hostname := Some "api.example.org";
                      Http.path := "/health"; Http.query := "" |};
       Http.req_headers := ∅; Http.client := None |} in
  RateLimiter.dispatch Inputs.ok_app (RateLimiter.init 0) health 5
  = (Inputs.ok_app health, RateLimiter.init 0).
Proof.
  cbv zeta. apply exempt_paths_bypass. cbn. set_solver.
Defined.

(** * Properties of the services and of the gateway as a whole *)

(** ** The sanitizer on well-formed answers *)

Section CleanFacts.
Import PyStr Sanitizer.

Lemma append_cons (c : ascii) (a b : string) : String c a +:+ b = String c (a +:+ b).
Proof. reflexivity. Qed.

Lemma append_nil_r (a : string) : a +:+ "" = a.
Proof. induction a as [| c a IH]; [done |]. rewrite append_cons. by rewrite IH. Qed.

Lemma take_append (a b : string) : take (String.length a) (a +:+ b) = a.
Proof.
  induction a as [| c a IH]; [by destruct b |].
  rewrite append_cons. cbn [String.length take]. by rewrite IH.
Qed.

Lemma startswith_append (p s : string) : startswith (p +:+ s) p = true.
Proof.
  induction p as [| c p IH]; [by destruct s |].
  rewrite append_cons. cbn [startswith]. by rewrite Ascii.eqb_refl.
Qed.

(** A pattern is first found behind a text that lacks its first
    character. *)
Lemma find_behind (c : ascii) (p a r : string) :
  has_char c a = false →
  find (a +:+ String c p +:+ r) (String c p) = Some (String.length a).
Proof.
  intros Ha. induction a as [| x a IH].
  - change ("" +:+ String c p +:+ r) with (String c p +:+ r).
    destruct (String c p +:+ r) eqn:Heq; [discriminate |].
    cbn [find]. rewrite <- Heq. by rewrite startswith_append.
  - cbn [has_char] in Ha. apply orb_false_elim in Ha as [Hx Ha].
    rewrite append_cons. cbn [find startswith String.length].
    rewrite Ascii.eqb_sym, Hx. by rewrite IH.
Qed.

Lemma find_absent (c : ascii) (p s : string) :
  has_char c s = false → find s (String c p) = None.
Proof.
  induction s as [| x s IH]; [done |]. cbn [has_char find startswith].
  intros [Hx Hs]%orb_false_elim. rewrite Ascii.eqb_sym, Hx. by rewrite IH.
Qed.

Lemma lstrip_append (a b : string) (c : ascii) :
  isspace c = false → lstrip (a +:+ String c b) = lstrip a +:+ String c b.
Proof.
  intros Hc. induction a as [| x a IH].
  - change (lstrip (String c b) = String c b). cbn [lstrip]. by rewrite Hc.
  - rewrite append_cons. cbn [lstrip]. destruct (isspace x); [exact IH | done].
Qed.

Lemma rstrip_append (a b : string) (c : ascii) :
  isspace c = false → rstrip (a +:+ String c b) = a +:+ rstrip (String c b).
Proof.
  intros Hc. assert (Hne : rstrip (String c b) ≠ "").
  { cbn [rstrip]. destruct (rstrip b); [by rewrite Hc | done]. }
  set (R := rstrip (String c b)) in *.
  induction a as [| x a IH]; [done |].
  rewrite !append_cons. cbn [rstrip]. rewrite IH.
  destruct R; [done |]. by destruct a.
Qed.

Lemma rstrip_last (a : string) (c : ascii) :
  isspace c = false → rstrip (a +:+ String c "") = a +:+ String c "".
Proof.
  intros Hc. rewrite rstrip_append by done. cbn [rstrip]. by rewrite Hc.
Qed.

Lemma filter_chars_id (keep : ascii → bool) (s : string) :
  all_chars keep s = true → filter_chars keep s = s.
Proof.
  induction s as [| c s IH]; [done |]. cbn [all_chars filter_chars].
  intros [-> Hs]%andb_prop. by rewrite IH.
Qed.

Lemma has_char_lstrip_false (c : ascii) (s : string) :
  has_char c s = false → has_char c (lstrip s) = false.
Proof.
  induction s as [| x s IH]; [done |]. cbn [lstrip].
  destruct (isspace x); [| done]. cbn [has_char]. intros [_ H]%orb_false_elim. auto.
Qed.

Lemma all_chars_append (P : ascii → bool) (a b : string) :
  all_chars P (a +:+ b) = all_chars P a && all_chars P b.
Proof.
  induction a as [| x a IH]; [done |]. rewrite append_cons. cbn [all_chars].
  by rewrite IH, andb_assoc.
Qed.

(** An object between braces, free of control characters, passes the
    last three steps unchanged. *)
Lemma object_steps (inner : string) :
  all_chars keep_char inner = true →
  let object := "{" +:+ inner +:+ "}" in
  unwrap_bare_fence object = object
  ∧ strip_control object = object
  ∧ from_first_brace object = object
  ∧ to_last_brace object = object
  ∧ strip object = object.
Proof.
  intros Hkeep object.
  assert (Hend : endswith object "}" = true).
  { subst object. rewrite <- append_assoc. apply endswith_append. }
  assert (Hstart : startswith object "{" = true).
  { subst object. rewrite append_cons. cbn [startswith]. rewrite Ascii.eqb_refl.
    by destruct ("" +:+ inner +:+ "}"). }
  split; [reflexivity |]. split; [| split; [| split]].
  - apply filter_chars_id. subst object. by rewrite !all_chars_append, Hkeep.
  - unfold from_first_brace. by rewrite Hstart.
  - unfold to_last_brace. by rewrite Hend.
  - unfold strip. subst object. rewrite <- append_assoc.
    rewrite rstrip_last by done. by rewrite append_assoc.
Qed.

End CleanFacts.

(** X6.  A bare JSON object passes the sanitizer unchanged: a text that
    opens with a brace and closes with one, holds no back quote and no
    control character other than line feed, carriage return and tab is
    returned as it is. *)
Theorem clean_json_response_keeps_object (inner : string) :
  PyStr.has_char "`" inner = false →
  PyStr.all_chars Sanitizer.keep_char inner = true →
  Sanitizer._clean_json_response ("{" +:+ inner +:+ "}") = "{" +:+ inner +:+ "}".
Proof.
  intros Htick Hkeep.
  destruct (object_steps inner Hkeep) as (Hbare & Hcontrol & Hfirst & Hlast & Hstrip).
  unfold Sanitizer._clean_json_response. rewrite Hstrip.
  assert (Hjson : Sanitizer.unwrap_json_fence ("{" +:+ inner +:+ "}")
                  = "{" +:+ inner +:+ "}").
  { unfold Sanitizer.unwrap_json_fence, PyStr.contains, Sanitizer.fence_json.
    rewrite find_absent; [reflexivity |].
    rewrite !has_char_append, Htick. reflexivity. }
  by rewrite Hjson, Hbare, Hcontrol, Hfirst, Hlast.
Qed.

(** The theorem at the object with the one member a = 1. *)
Lemma clean_json_response_keeps_object_witness :
  Sanitizer._clean_json_response ("{" +:+ (Inputs.quoted "a" +:+ ":1") +:+ "}")
  = "{" +:+ (Inputs.quoted "a" +:+ ":1") +:+ "}".
Proof.
  exact (clean_json_response_keeps_object (Inputs.quoted "a" +:+ ":1") eq_refl eq_refl).
Defined.

Section FenceFacts.
Import PyStr Sanitizer.

Lemma rstrip_cons (c : ascii) (b : string) :
  isspace c = false → rstrip (String c b) = String c (rstrip b).
Proof. intros Hc. cbn [rstrip]. destruct (rstrip b); by rewrite ?Hc. Qed.

Lemma find_from_behind (c : ascii) (p a b r : string) :
  has_char c b = false →
  find_from (a +:+ b +:+ String c p +:+ r) (String c p) (String.length a)
  = Some (String.length a + String.length b)%nat.
Proof.
  intros Hb. unfold find_from. rewrite drop_append, find_behind by done.
  rewrite length_append.
  destruct (Nat.leb_spec (String.length a)
              (String.length a + String.length (b +:+ String c p +:+ r))); [done | lia].
Qed.

Lemma slice_middle (a b r : string) :
  slice (String.length a) (String.length a + String.length b) (a +:+ b +:+ r) = b.
Proof.
  unfold slice. rewrite drop_append.
  replace (String.length a + String.length b - String.length a)%nat
    with (String.length b) by lia.
  apply take_append.
Qed.

(** The text of a [json] fence with an object in it, after [strip]. *)
Lemma unwrap_fenced (lead inner rest : string) :
  has_char "`" lead = false → has_char "`" inner = false →
  let object := "{" +:+ inner +:+ "}" in
  unwrap_json_fence (lead +:+ fence_json +:+ LF +:+ object +:+ LF +:+ fence +:+ rest)
  = object.
Proof.
  intros Hlead Hinner object. unfold unwrap_json_fence, contains.
  set (middle := LF +:+ object +:+ LF).
  assert (Hmiddle : has_char "`" middle = false).
  { subst middle object. by rewrite !has_char_append, Hinner. }
  assert (Hshape : lead +:+ fence_json +:+ LF +:+ object +:+ LF +:+ fence +:+ rest
                   = (lead +:+ fence_json) +:+ middle +:+ fence +:+ rest).
  { subst middle. by rewrite !append_assoc. }
  assert (Hfind : find (lead +:+ fence_json +:+ LF +:+ object +:+ LF +:+ fence +:+ rest)
                    fence_json = Some (String.length lead)).
  { apply (find_behind "`" "``json"). exact Hlead. }
  rewrite Hfind. rewrite Hshape.
  replace (String.length lead + String.length fence_json)%nat
    with (String.length (lead +:+ fence_json)) by apply length_append.
  change fence with (String "`" "``").
  rewrite (find_from_behind "`" "``" (lead +:+ fence_json) middle rest Hmiddle).
  rewrite slice_middle. subst middle.
  unfold strip.
  assert (Hr : rstrip (LF +:+ object +:+ LF) = LF +:+ object).
  { subst object.
    replace (LF +:+ ("{" +:+ inner +:+ "}") +:+ LF)
      with ((LF +:+ "{" +:+ inner) +:+ String "}" LF)
      by (by rewrite !append_assoc).
    rewrite rstrip_append by done. by rewrite !append_assoc. }
  rewrite Hr. subst object. reflexivity.
Qed.

End FenceFacts.

(** X4.  The sanitizer extracts a fenced object exactly.  For a JSON object
    between braces inside a [json] fence, each on a line of its own,
    with any text before the fence and any after it, the sanitizer
    returns the object, provided the text before and the object hold no
    back quote and the object holds no control character other than
    line feed, carriage return and tab. *)
Theorem fenced_object_is_extracted (lead inner trailer : string) :
  PyStr.has_char "`" lead = false →
  PyStr.has_char "`" inner = false →
  PyStr.all_chars Sanitizer.keep_char inner = true →
  Sanitizer._clean_json_response
    (lead +:+ "```json" +:+ Sanitizer.LF +:+ "{" +:+ inner +:+ "}" +:+ Sanitizer.LF
     +:+ "```" +:+ trailer)
  = "{" +:+ inner +:+ "}".
Proof.
  intros Hlead Hinner Hkeep.
  destruct (object_steps inner Hkeep) as (Hbare & Hcontrol & Hfirst & Hlast & _).
  unfold Sanitizer._clean_json_response.
  assert (Hstrip :
    PyStr.strip (lead +:+ "```json" +:+ Sanitizer.LF +:+ "{" +:+ inner +:+ "}"
                 +:+ Sanitizer.LF +:+ "```" +:+ trailer)
    = PyStr.lstrip lead +:+ Sanitizer.fence_json +:+ Sanitizer.LF
      +:+ ("{" +:+ inner +:+ "}") +:+ Sanitizer.LF +:+ Sanitizer.fence
      +:+ PyStr.rstrip trailer).
  { unfold PyStr.strip.
    replace (lead +:+ "```json" +:+ Sanitizer.LF +:+ "{" +:+ inner +:+ "}"
             +:+ Sanitizer.LF +:+ "```" +:+ trailer)
      with ((lead +:+ "```json" +:+ Sanitizer.LF +:+ "{" +:+ inner +:+ "}"
             +:+ Sanitizer.LF +:+ "``") +:+ String "`" trailer)
      by (by rewrite !append_assoc).
    rewrite rstrip_append, rstrip_cons by done.
    rewrite !append_assoc.
    change ("```json" +:+ ?x) with (String "`" ("``json" +:+ x)).
    rewrite lstrip_append by done. reflexivity. }
  rewrite Hstrip.
  rewrite unwrap_fenced by (done || by apply has_char_lstrip_false).
  by rewrite Hbare, Hcontrol, Hfirst, Hlast.
Qed.

Lemma fenced_object_is_extracted_witness :
  Sanitizer._clean_json_response Inputs.fenced_answer
  = "{" +:+ Inputs.quoted "a" +:+ ":1}".
Proof.
  exact (fenced_object_is_extracted "" (Inputs.quoted "a" +:+ ":1") " trailing note"
           eq_refl eq_refl eq_refl).
Defined.

(** ** The scoring service *)

Section ScoringServiceFacts.
Import Py ScoringService.

Lemma validate_score_cases (v : pyval) (field_name : string) :
  match Scoring._validate_score v field_name with
  | inr s => score_in_range s
  | inl e => (∃ message, e = ScoringError message) ∨ (∃ name text, e = OtherExc name text)
  end.
Proof.
  assert (Hrange : ∀ s z shown, (s = PInt z ∨ ∃ b, s = PBool b) →
            match Scoring.range_check s z shown field_name with
            | inr s' => s' = s ∧ (0 ≤ z ≤ 4)%Z
            | inl e => ∃ message, e = ScoringError message
            end).
  { intros s z shown _. unfold Scoring.range_check.
    destruct (Z.ltb_spec z 0); cbn [orb]; [eauto |].
    destruct (Z.ltb_spec 4 z); [eauto |]. split; [done | lia]. }
  destruct v as [| b | z | [q | neg |] | s | items | items]; cbn;
    try (left; eauto; fail); try (right; eauto; fail).
  - specialize (Hrange (PBool b) (if b then 1 else 0)%Z (if b then "True" else "False")).
    destruct (Scoring.range_check _ _ _ _); [left; apply Hrange; eauto |].
    destruct Hrange as [-> _]; [eauto | done].
  - specialize (Hrange (PInt z) z (PyStr.str_int z)).
    destruct (Scoring.range_check _ _ _ _); [left; apply Hrange; eauto |].
    destruct Hrange as [-> ?]; [eauto | done].
  - specialize (Hrange (PInt (PyNum.trunc q)) (PyNum.trunc q)
                  (PyStr.str_int (PyNum.trunc q))).
    destruct (Scoring.range_check _ _ _ _); [left; apply Hrange; eauto |].
    destruct Hrange as [-> ?]; [eauto | done].
Qed.

Lemma except_is_scoring_error (prefix : string) (e : exn) :
  app_class (except prefix e) = Some Exceptions.ScoringError.
Proof.
  unfold except, reraise. destruct e as [exc | | | |]; try reflexivity.
  case_decide as Hcls; [by cbn; rewrite Hcls | reflexivity].
Qed.

Lemma validate_score_bind {B : Type} (v : pyval) (field_name : string)
  (k : pyval → exn + B) (r : B) :
  (let! s := Scoring._validate_score v field_name in k s) = inr r →
  ∃ s, score_in_range s ∧ k s = inr r.
Proof.
  pose proof (validate_score_cases v field_name) as H.
  destruct (Scoring._validate_score v field_name) as [e | s]; [discriminate |].
  intros Hk. by exists s.
Qed.

Lemma raise_if_bind {B : Type} (cond : bool) (e : exn) (k : exn + B) (r : B) :
  (let! _ := raise_if cond e in k) = inr r → cond = false ∧ k = inr r.
Proof. destruct cond; [discriminate | done]. Qed.

End ScoringServiceFacts.

Lemma parse_scoring_data_cases (data : pyval) :
  match ScoringService._parse_scoring_data data with
  | inl e => app_class e = Some Exceptions.ScoringError
  | inr result => scoring_result_valid result
  end.
Proof.
  unfold ScoringService._parse_scoring_data.
  destruct (ScoringService.parse_scoring_try data) as [e | result] eqn:Htry;
    [apply except_is_scoring_error |].
  unfold ScoringService.parse_scoring_try in Htry.
  destruct data as [| | | | | | items]; try discriminate. cbn [Py.get Py.bind] in Htry.
  apply validate_score_bind in Htry as (s1 & H1 & Htry).
  apply validate_score_bind in Htry as (s2 & H2 & Htry).
  apply validate_score_bind in Htry as (s3 & H3 & Htry).
  apply validate_score_bind in Htry as (s4 & H4 & Htry).
  apply raise_if_bind in Htry as (F1%negb_false_iff & Htry).
  apply raise_if_bind in Htry as (F2%negb_false_iff & Htry).
  apply raise_if_bind in Htry as (F3%negb_false_iff & Htry).
  apply raise_if_bind in Htry as (L%negb_false_iff & Htry).
  apply raise_if_bind in Htry as (T%negb_false_iff & Htry).
  injection Htry as <-. unfold scoring_result_valid. cbn.
  repeat (split; [assumption |]).
  destruct (default (PList []) (ErrorHandler.dict_get items "improvement_tips"))
    as [| | | | | [| tip tips] |]; try discriminate. eauto.
Qed.

(** X20.  [_parse_scoring_data] raises nothing but [ScoringError], whatever
    the data, also where [int] fails on a float that is not finite or
    the data is not a dict.  A result it returns holds four scores that
    are integers from 0 to 4 (or booleans), three feedback values that
    are not empty, and a list of tips that is not empty. *)
Theorem parse_scoring_data_result (data : pyval) :
  match ScoringService._parse_scoring_data data with
  | inl e => app_class e = Some Exceptions.ScoringError
  | inr result => scoring_result_valid result
  end.
Proof. apply parse_scoring_data_cases. Qed.

(** X21.  Data that [_parse_scoring_data] accepts: a dict whose four scores
    are integers from 0 to 4, whose three feedback texts are strings
    that are not empty and whose tips are a list that is not empty is
    returned field by field. *)
Theorem parse_scoring_data_accepts (items : list (string * pyval))
  (d l t o : Z) (fd fl ft : string) (tip : pyval) (tips : list pyval) :
  ErrorHandler.dict_get items "delivery_score" = Some (PInt d) →
  ErrorHandler.dict_get items "language_use_score" = Some (PInt l) →
  ErrorHandler.dict_get items "topic_dev_score" = Some (PInt t) →
  ErrorHandler.dict_get items "overall_score" = Some (PInt o) →
  (0 ≤ d ≤ 4)%Z → (0 ≤ l ≤ 4)%Z → (0 ≤ t ≤ 4)%Z → (0 ≤ o ≤ 4)%Z →
  ErrorHandler.dict_get items "delivery_feedback" = Some (PStr fd) → fd ≠ "" →
  ErrorHandler.dict_get items "language_use_feedback" = Some (PStr fl) → fl ≠ "" →
  ErrorHandler.dict_get items "topic_dev_feedback" = Some (PStr ft) → ft ≠ "" →
  ErrorHandler.dict_get items "improvement_tips" = Some (PList (tip :: tips)) →
  ScoringService._parse_scoring_data (PDict items)
  = inr {| ScoringService.overall_score := PInt o;
           ScoringService.delivery :=
             {| ScoringService.score := PInt d; ScoringService.feedback := PStr fd |};
           ScoringService.language_use :=
             {| ScoringService.score := PInt l; ScoringService.feedback := PStr fl |};
           ScoringService.topic_development :=
             {| ScoringService.score := PInt t; ScoringService.feedback := PStr ft |};
           ScoringService.improvement_tips := PList (tip :: tips) |}.
Proof.
  intros Hd Hl Ht Ho Rd Rl Rt Ro Hfd Nd Hfl Nl Hft Nt Htips.
  unfold ScoringService._parse_scoring_data, ScoringService.parse_scoring_try, Py.get.
  rewrite Hd, Hl, Ht, Ho, Hfd, Hfl, Hft, Htips. cbn [default from_option id Py.bind].
  unfold Scoring._validate_score.
  rewrite !range_check_in by done. cbn [Py.bind].
  apply String.eqb_neq in Nd, Nl, Nt.
  cbn [Py.truthy ScoringService.is_list]. rewrite Nd, Nl, Nt. reflexivity.
Qed.

Lemma parse_scoring_data_accepts_witness :
  ∃ result,
    ScoringService._parse_scoring_data
      (PDict [ ("delivery_score", PInt 3); ("delivery_feedback", PStr "clear");
               ("language_use_score", PInt 2); ("language_use_feedback", PStr "simple");
               ("topic_dev_score", PInt 4); ("topic_dev_feedback", PStr "complete");
               ("overall_score", PInt 3); ("improvement_tips", PList [PStr "slow down"]) ])
    = inr result
    ∧ ScoringService.overall_score result = PInt 3.
Proof.
  eexists. split.
  - apply (parse_scoring_data_accepts _ 3 2 4 3 "clear" "simple" "complete"
             (PStr "slow down") []); try reflexivity; try lia; discriminate.
  - reflexivity.
Defined.

Section ModelAnswerFacts.
Import Py ScoringService.

Lemma parse_phrase_valid (phrase_data : pyval) (p : HighlightedPhrase) :
  parse_phrase phrase_data = Some p →
  truthy (text p) = true
  ∧ ∃ s, category p = PStr s ∧ s ∈ valid_categories.
Proof.
  unfold parse_phrase. destruct phrase_data as [| | | | | | items]; try discriminate.
  destruct (truthy (default (PStr "") (ErrorHandler.dict_get items "text"))) eqn:Htext;
    [| discriminate].
  intros [= <-]. cbn [text category]. split; [exact Htext |].
  destruct (is_valid_category _) eqn:Hcat.
  - unfold is_valid_category in Hcat.
    destruct (default (PStr "") (ErrorHandler.dict_get items "category"))
      as [| | | | s | |]; try discriminate.
    exists s. split; [reflexivity |]. by apply bool_decide_eq_true_1 in Hcat.
  - exists "example". split; [reflexivity |]. set_solver.
Qed.

Lemma omap_length_le {A B} (f : A → option B) (l : list A) :
  (length (omap f l) ≤ length l)%nat.
Proof. induction l as [| x l IH]; cbn; [lia |]. destruct (f x); cbn; lia. Qed.

End ModelAnswerFacts.

Lemma parse_model_answer_data_cases (data : pyval) :
  match ScoringService._parse_model_answer_data data with
  | inl e => app_class e = Some Exceptions.ScoringError
  | inr result =>
      model_answer_valid result
      ∧ ∃ phrases,
          Py.get data "highlighted_phrases" (PList []) = inr (PList phrases)
          ∧ ScoringService.highlighted_phrases result
            = omap ScoringService.parse_phrase phrases
          ∧ (length (ScoringService.highlighted_phrases result) ≤ length phrases)%nat
  end.
Proof.
  unfold ScoringService._parse_model_answer_data.
  destruct (ScoringService.parse_model_answer_try data) as [e | result] eqn:Htry;
    [apply except_is_scoring_error |].
  unfold ScoringService.parse_model_answer_try in Htry.
  destruct data as [| | | | | | items]; try discriminate. cbn [Py.get Py.bind] in Htry.
  apply raise_if_bind in Htry as (Hanswer%negb_false_iff & Htry).
  cbn [Py.get].
  destruct (default (PList []) (ErrorHandler.dict_get items "highlighted_phrases"))
    as [| | | | | phrases |]; try discriminate.
  injection Htry as <-. unfold model_answer_valid.
  cbn [ScoringService.model_answer ScoringService.highlighted_phrases].
  split; [split; [exact Hanswer |] |].
  - apply Forall_forall. intros p [phrase_data [_ Hp]]%list_elem_of_omap.
    by apply (parse_phrase_valid phrase_data).
  - exists phrases. split; [reflexivity |]. split; [reflexivity | apply omap_length_le].
Qed.

(** X22.  [_parse_model_answer_data] raises nothing but [ScoringError].  A
    result it returns holds an answer that is not empty, and every
    phrase in it has a text that is not empty and one of the three
    categories transition, example and conclusion; the phrases are taken
    in order from the entries of the data, none is added. *)
Theorem parse_model_answer_data_result (data : pyval) :
  match ScoringService._parse_model_answer_data data with
  | inl e => app_class e = Some Exceptions.ScoringError
  | inr result =>
      model_answer_valid result
      ∧ ∃ phrases,
          Py.get data "highlighted_phrases" (PList []) = inr (PList phrases)
          ∧ ScoringService.highlighted_phrases result
            = omap ScoringService.parse_phrase phrases
          ∧ (length (ScoringService.highlighted_phrases result) ≤ length phrases)%nat
  end.
Proof. apply parse_model_answer_data_cases. Qed.

(** ** The client's methods *)

Section GenerationFacts.
Import Py OpenAIClient.
Variable create : nat → exn + string.

Lemma reraise_class (keep : Exceptions.exc_class) (wrap : string → exn) (prefix : string)
  (e : exn) :
  app_class (reraise keep wrap prefix e) = Some keep
  ∨ ∃ message, reraise keep wrap prefix e = wrap message.
Proof.
  unfold reraise. destruct e as [exc | | | |]; eauto.
  case_decide as Hcls; [left; cbn; by rewrite Hcls | eauto].
Qed.

(** What the frame of the generation methods lets through. *)
Lemma generation_cases (format_error : exn) (wrap : string → exn) (prefix : string)
  (validate : pyval → exn + pyval) :
  match generation create format_error wrap prefix validate with
  | Client.Return v =>
      ∃ response data,
        fst (Client.call_gpt4 create) = inr response
        ∧ Json.loads (Sanitizer._clean_json_response response) = inr data
        ∧ validate data = inr v
  | Client.Raise e =>
      e = format_error
      ∨ app_class e = Some Exceptions.ExternalAPIError
      ∨ ∃ message, e = wrap message
  | Client.Unmodelled => True
  end.
Proof.
  unfold generation.
  destruct (fst (Client.call_gpt4 create)) as [e | response] eqn:Hcall.
  { right. apply reraise_class. }
  destruct (Json.loads _) as [[| |] | data] eqn:Hloads; [by left | done | done |].
  destruct (validate data) as [e | v] eqn:Hv.
  - right. apply reraise_class.
  - eauto.
Qed.

Lemma require_present (field : string) (data : pyval) (missing : exn) :
  require field data missing = inr tt → Client.py_in field data = inr true.
Proof.
  unfold require. destruct (Client.py_in field data) as [| []]; done.
Qed.

Lemma getitem_dict (data : pyval) (key : string) (v : pyval) :
  getitem data key = inr v →
  ∃ items, data = PDict items ∧ ErrorHandler.dict_get items key = Some v.
Proof.
  destruct data as [| | | | | | items]; cbn; try discriminate.
  destruct (ErrorHandler.dict_get items key) as [w |] eqn:Hget; [| discriminate].
  intros [= <-]. eauto.
Qed.

Lemma bind_inr {A B : Type} (m : exn + A) (k : A → exn + B) (r : B) :
  Py.bind m k = inr r → ∃ a, m = inr a ∧ k a = inr r.
Proof. destruct m as [e | a]; [discriminate | eauto]. Qed.

Lemma score_response_check_sound (py_str : pyval → string) (field : string)
  (score : pyval) :
  Scoring.score_response_check py_str field score = None → passes_range_test score.
Proof.
  unfold Scoring.score_response_check.
  destruct (negb (Scoring.is_number score) || Scoring.below_zero score
            || Scoring.above_four score) eqn:H; [discriminate |].
  intros _. apply orb_false_elim in H as [H Ha]. apply orb_false_elim in H as [Hn Hb].
  destruct score as [| b | z | [q | neg |] | | |]; try discriminate; cbn in *; try done.
  - lia.
  - apply negb_false_iff in Ha, Hb. by rewrite !Qle_bool_iff in *.
  - destruct neg; discriminate.
Qed.

Lemma check_scores_sound (py_str : pyval → string) (fields : list string)
  (scoring_data : pyval) (field : string) :
  check_scores py_str fields scoring_data = inr tt → field ∈ fields →
  ∃ items score,
    scoring_data = PDict items ∧ ErrorHandler.dict_get items field = Some score
    ∧ passes_range_test score.
Proof.
  induction fields as [| f fields IH]; intros Hcheck Hin; [by apply elem_of_nil in Hin |].
  cbn [check_scores] in Hcheck.
  apply bind_inr in Hcheck as ([] & _ & Hcheck).
  apply bind_inr in Hcheck as (score & Hget & Hcheck).
  destruct (Scoring.score_response_check py_str f score) eqn:Hscore; [discriminate |].
  apply elem_of_cons in Hin as [-> | Hin]; [| by apply IH].
  apply getitem_dict in Hget as (items & -> & Hget).
  exists items, score. split; [done |]. split; [done |].
  by eapply score_response_check_sound.
Qed.

End GenerationFacts.

(** X15.  The client's [score_response] raises nothing but [ScoringError] and
    [ExternalAPIError].  What it returns is a dict in which each of the
    four score fields is present and passes the range test: an integer
    or finite float from 0 to 4, a boolean, or the float that is not a
    number.  A parsed list or string never comes back. *)
Theorem score_response_returns_scores (create : nat → exn + string)
  (py_str : pyval → string) :
  match OpenAIClient.score_response create py_str with
  | Client.Return v =>
      ∃ items, v = PDict items
        ∧ ∀ field, field ∈ ["delivery_score"; "language_use_score"; "topic_dev_score";
                            "overall_score"] →
            ∃ score, ErrorHandler.dict_get items field = Some score
                     ∧ passes_range_test score
  | Client.Raise e =>
      app_class e = Some Exceptions.ScoringError
      ∨ app_class e = Some Exceptions.ExternalAPIError
  | Client.Unmodelled => True
  end.
Proof.
  unfold OpenAIClient.score_response.
  match goal with
  | |- context [OpenAIClient.generation ?c ?f ?w ?p ?v] =>
      pose proof (generation_cases c f w p v) as H;
      destruct (OpenAIClient.generation c f w p v) as [v0 | e |]
  end; [| | done].
  - destruct H as (response & data & _ & _ & Hv).
    apply bind_inr in Hv as ([] & Hcheck & [= <-]).
    destruct (check_scores_sound py_str _ data "overall_score" Hcheck) as (items & _ & -> & _);
      [set_solver |].
    exists items. split; [reflexivity |]. intros field Hfield.
    destruct (check_scores_sound py_str _ _ field Hcheck Hfield)
      as (items' & score & [= <-] & Hget & Hrange).
    eauto.
  - destruct H as [-> | [H | [message ->]]]; [by left | by right | by left].
Qed.

Section BlankFacts.
Import PyStr.

Lemma rstrip_blank (s : string) : all_chars isspace s = true → rstrip s = "".
Proof.
  induction s as [| c s IH]; [done |]. cbn [all_chars rstrip].
  intros [Hc Hs]%andb_prop. rewrite (IH Hs), Hc. reflexivity.
Qed.

Lemma rstrip_blank_inv (s : string) :
  all_chars isspace (rstrip s) = true → all_chars isspace s = true.
Proof.
  induction s as [| c s IH]; [done |]. cbn [rstrip].
  destruct (rstrip s) as [| d r] eqn:Hr.
  - destruct (isspace c) eqn:Hc; cbn [all_chars]; rewrite Hc; [| discriminate].
    intros _. by rewrite IH.
  - cbn [all_chars] in *. intros [-> H]%andb_prop. by rewrite IH.
Qed.

Lemma lstrip_blank (s : string) : lstrip s = "" ↔ all_chars isspace s = true.
Proof.
  induction s as [| c s IH]; [done |]. cbn [lstrip all_chars].
  destruct (isspace c); [exact IH | split; discriminate].
Qed.

Lemma strip_blank (s : string) : strip s = "" ↔ all_chars isspace s = true.
Proof.
  unfold strip. rewrite lstrip_blank. split; [apply rstrip_blank_inv |].
  intros H. by rewrite rstrip_blank.
Qed.

Lemma blank_spec (s : string) :
  ScoringService.blank s = true ↔ all_chars isspace s = true.
Proof.
  unfold ScoringService.blank. rewrite orb_true_iff, !String.eqb_eq, strip_blank.
  split; [intros [-> | H]; done | auto].
Qed.

End BlankFacts.

(** X23.  [evaluate_response] refuses blank input before the model is
    called: when the transcript, the lecture script or the question is
    empty or white space only, or a reading text is given and is empty
    or white space only, it raises a [ScoringError] that is the same
    for every behaviour of the provider. *)
Theorem evaluate_response_refuses_blank_input (transcript : string)
  (reading_text : option string) (lecture_script question : string) :
  PyStr.all_chars PyStr.isspace transcript = true
  ∨ (∃ r, reading_text = Some r ∧ PyStr.all_chars PyStr.isspace r = true)
  ∨ PyStr.all_chars PyStr.isspace lecture_script = true
  ∨ PyStr.all_chars PyStr.isspace question = true →
  ∃ message,
    ∀ (create : nat → exn + string) (py_str : pyval → string),
      ScoringService.evaluate_response create py_str transcript reading_text
        lecture_script question
      = Py.Raises (ScoringService.ScoringError message).
Proof.
  intros H. unfold ScoringService.evaluate_response.
  destruct (ScoringService.blank transcript) eqn:Ht; [eauto |].
  destruct (ScoringService.blank_when_given reading_text) eqn:Hr; [eauto |].
  destruct (ScoringService.blank lecture_script) eqn:Hl; [eauto |].
  destruct (ScoringService.blank question) eqn:Hq; [eauto |].
  exfalso. destruct H as [H | [(r & -> & H) | [H | H]]].
  - apply blank_spec in H. congruence.
  - apply strip_blank in H. cbn in Hr. rewrite H in Hr. discriminate.
  - apply blank_spec in H. congruence.
  - apply blank_spec in H. congruence.
Qed.

Lemma evaluate_response_refuses_blank_input_witness :
  ∃ message,
    ∀ (create : nat → exn + string) (py_str : pyval → string),
      ScoringService.evaluate_response create py_str "  " None "a lecture" "a question"
      = Py.Raises (ScoringService.ScoringError message).
Proof.
  apply (evaluate_response_refuses_blank_input "  " None "a lecture" "a question").
  left. reflexivity.
Defined.

Section Task1Facts.
Import Py OpenAIClient.

Lemma score_task1_response_cases (create : nat → exn + string) (py_str : pyval → string) :
  match score_task1_response create py_str with
  | Client.Return v =>
      ∃ items score,
        v = PDict items ∧ ErrorHandler.dict_get items "overall_score" = Some score
        ∧ passes_range_test score
  | Client.Raise e =>
      app_class e = Some Exceptions.ScoringError
      ∨ app_class e = Some Exceptions.ExternalAPIError
  | Client.Unmodelled => True
  end.
Proof.
  unfold score_task1_response.
  match goal with
  | |- context [generation ?c ?f ?w ?p ?v] =>
      pose proof (generation_cases c f w p v) as H;
      destruct (generation c f w p v) as [v0 | e |]
  end; [| | done].
  - destruct H as (response & data & _ & _ & Hv).
    apply bind_inr in Hv as ([] & _ & Hv).
    apply bind_inr in Hv as (score & Hget & Hv).
    apply raise_if_bind in Hv as (Hcheck & [= <-]).
    apply getitem_dict in Hget as (items & -> & Hget).
    exists items, score. split; [done |]. split; [done |].
    apply (score_response_check_sound py_str "overall_score").
    unfold Scoring.score_response_check. by rewrite Hcheck.
  - destruct H as [-> | [H | [message ->]]]; [by left | by right | by left].
Qed.

End Task1Facts.

(** X24.  [evaluate_response] raises nothing but [ScoringError], whatever the
    provider does and whatever it answers; a result it returns holds
    four scores that are integers from 0 to 4 (or booleans), three
    feedback values that are not empty, and a list of tips that is not
    empty.  [evaluate_task1_response] raises nothing but [ScoringError]
    as well, and returns only a dict whose overall score passes the
    range test. *)
Theorem evaluate_response_outcome (create : nat → exn + string) (py_str : pyval → string)
  (transcript : string) (reading_text : option string) (lecture_script question : string) :
  match ScoringService.evaluate_response create py_str transcript reading_text
          lecture_script question with
  | Py.Raises e => app_class e = Some Exceptions.ScoringError
  | Py.Returns result => scoring_result_valid result
  | Py.Beyond => True
  end
  ∧ match ScoringService.evaluate_task1_response create py_str transcript question with
    | Py.Raises e => app_class e = Some Exceptions.ScoringError
    | Py.Returns v =>
        ∃ items score,
          v = PDict items ∧ ErrorHandler.dict_get items "overall_score" = Some score
          ∧ passes_range_test score
    | Py.Beyond => True
    end.
Proof.
  split.
  - unfold ScoringService.evaluate_response.
    repeat (match goal with |- context [if ?b then _ else _] => destruct b end;
            [reflexivity |]).
    unfold ScoringService.after_client.
    destruct (OpenAIClient.score_response create py_str) as [data | e |];
      [| apply except_is_scoring_error | done].
    pose proof (parse_scoring_data_cases data) as H.
    destruct (ScoringService._parse_scoring_data data) as [e | result];
      [apply except_is_scoring_error | exact H].
  - unfold ScoringService.evaluate_task1_response.
    repeat (match goal with |- context [if ?b then _ else _] => destruct b end;
            [reflexivity |]).
    unfold ScoringService.after_client.
    pose proof (score_task1_response_cases create py_str) as H.
    destruct (OpenAIClient.score_task1_response create py_str) as [data | e |];
      [| apply except_is_scoring_error | done].
    destruct H as (items & score & -> & Hget & Hrange). cbn. eauto.
Qed.


(** X25.  [generate_model_answer] of the scoring service raises nothing but
    [ScoringError], whatever the provider does and whatever it answers;
    a model answer it returns is not empty and each of its phrases has a
    text that is not empty and one of the three categories. *)
Theorem generate_model_answer_outcome (create : nat → exn + string)
  (reading_text : option string) (lecture_script question : string) :
  match ScoringService.generate_model_answer create reading_text lecture_script
          question with
  | Py.Raises e => app_class e = Some Exceptions.ScoringError
  | Py.Returns result => model_answer_valid result
  | Py.Beyond => True
  end.
Proof.
  unfold ScoringService.generate_model_answer.
  repeat (match goal with |- context [if ?b then _ else _] => destruct b end;
          [reflexivity |]).
  unfold ScoringService.after_client.
  destruct (OpenAIClient.generate_model_answer create) as [data | e |];
    [| apply except_is_scoring_error | done].
  pose proof (parse_model_answer_data_cases data) as H.
  destruct (ScoringService._parse_model_answer_data data) as [e | result];
    [apply except_is_scoring_error | apply H].
Qed.

Section OutageFacts.
Import Py.

Lemma reraise_keeps (keep : Exceptions.exc_class) (wrap : string → exn) (prefix : string)
  (exc : Exceptions.t) :
  Exceptions.cls exc = keep → reraise keep wrap prefix (AppExc exc) = AppExc exc.
Proof. intros H. unfold reraise. by rewrite decide_True. Qed.

End OutageFacts.

(** X26.  A failure of the provider during scoring is answered as a client
    error.  When the call to the provider raises, [call_gpt4] raises
    [ExternalAPIError], the client's [score_response] lets it pass,
    [evaluate_response] of the service wraps it into a [ScoringError],
    and the endpoint turns that into the status 400, with the text of
    the provider failure as detail; the 503 the endpoint keeps for
    [ExternalAPIError] is not reached. *)
Theorem provider_failure_is_answered_400 (create : nat → exn + string)
  (py_str : pyval → string) (transcript : string) (reading_text : option string)
  (lecture_script question : string) (failure : exn) :
  create 1%nat = inl failure →
  ScoringService.blank transcript = false →
  ScoringService.blank_when_given reading_text = false →
  ScoringService.blank lecture_script = false →
  ScoringService.blank question = false →
  ∃ message,
    let text := "Failed to evaluate response: OpenAI API Error: " +:+ message in
    fst (Client.call_gpt4 create) = inl (OpenAIClient.ExternalAPIError message)
    ∧ ScoringService.evaluate_response create py_str transcript reading_text
        lecture_script question
      = Py.Raises (ScoringService.ScoringError text)
    ∧ ScoringRouter.evaluate_except (ScoringService.ScoringError text) = HTTPExc 400 text
    ∧ Http.status_code (ErrorHandler.handle (HTTPExc 400 text)) = 400%Z
    ∧ ErrorHandler.field
        (ErrorHandler.json_of (ErrorHandler.handle (HTTPExc 400 text))) "detail"
      = Some (PStr text).
Proof.
  intros Hfail Ht Hr Hl Hq.
  destruct (Client.call_gpt4_body create 1) as [e | response] eqn:Hbody.
  2:{ unfold Client.call_gpt4_body in Hbody. rewrite Hfail in Hbody.
      destruct failure as [? | | | [] | ]; discriminate. }
  destruct (call_gpt4_body_raises _ _ _ Hbody) as [message ->].
  exists message. cbv zeta.
  assert (Hcall : fst (Client.call_gpt4 create)
                  = inl (OpenAIClient.ExternalAPIError message)).
  { rewrite call_gpt4_once. cbn [fst]. exact Hbody. }
  split; [exact Hcall |]. split; [| split; [| split]]; try reflexivity.
  unfold ScoringService.evaluate_response. rewrite Ht, Hr, Hl, Hq.
  unfold OpenAIClient.score_response, OpenAIClient.generation. rewrite Hcall.
  unfold OpenAIClient.ExternalAPIError. rewrite reraise_keeps by reflexivity.
  reflexivity.
Qed.

Lemma provider_failure_is_answered_400_witness :
  ∃ message,
    ScoringService.evaluate_response Inputs.timing_out_provider (λ _, "")
      "my answer" None "a lecture" "a question"
    = Py.Raises (ScoringService.ScoringError
                   ("Failed to evaluate response: OpenAI API Error: " +:+ message)).
Proof.
  destruct (provider_failure_is_answered_400 Inputs.timing_out_provider (λ _, "")
              "my answer" None "a lecture" "a question" _ eq_refl eq_refl eq_refl eq_refl
              eq_refl) as (message & _ & H & _).
  exists message. exact H.
Defined.

Section DictFacts.
Import Py.

Lemma dict_get_set (items : list (string * pyval)) (key : string) (v : pyval) :
  ErrorHandler.dict_get (Json.dict_set items key v) key = Some v.
Proof.
  induction items as [| [k w] items IH]; cbn.
  - by rewrite String.eqb_refl.
  - destruct (String.eqb k key) eqn:Hk; cbn; by rewrite Hk.
Qed.

Lemma dict_get_set_ne (items : list (string * pyval)) (key key' : string) (v : pyval) :
  key ≠ key' →
  ErrorHandler.dict_get (Json.dict_set items key v) key' = ErrorHandler.dict_get items key'.
Proof.
  intros Hne. induction items as [| [k w] items IH]; cbn.
  - apply String.eqb_neq in Hne. by rewrite Hne.
  - destruct (String.eqb k key) eqn:Hk; cbn; [| by rewrite IH].
    apply String.eqb_eq in Hk as ->. apply String.eqb_neq in Hne. by rewrite Hne.
Qed.

Lemma py_in_dict (items : list (string * pyval)) (key : string) :
  Client.py_in key (PDict items) = inr true → is_Some (ErrorHandler.dict_get items key).
Proof.
  cbn. intros [= H]. induction items as [| [k w] items IH]; [discriminate |].
  cbn in *. destruct (String.eqb k key); [eauto | by apply IH].
Qed.

End DictFacts.

(** X16.  The client's [generate_task1_question] returns a dict whose
    question is a string and nothing else: a parsed list or string
    holding the word is refused by the subscript that follows the
    membership test.  It raises nothing but [ProblemGenerationError]
    and [ExternalAPIError]. *)
Theorem generate_task1_question_returns_question (create : nat → exn + string) :
  match OpenAIClient.generate_task1_question create with
  | Client.Return v =>
      ∃ items question,
        v = PDict items ∧ ErrorHandler.dict_get items "question" = Some (PStr question)
  | Client.Raise e =>
      app_class e = Some Exceptions.ProblemGenerationError
      ∨ app_class e = Some Exceptions.ExternalAPIError
  | Client.Unmodelled => True
  end.
Proof.
  unfold OpenAIClient.generate_task1_question.
  match goal with
  | |- context [OpenAIClient.generation ?c ?f ?w ?p ?v] =>
      pose proof (generation_cases c f w p v) as H;
      destruct (OpenAIClient.generation c f w p v) as [v0 | e |]
  end; [| | done].
  - destruct H as (response & data & _ & _ & Hv).
    apply bind_inr in Hv as ([] & _ & Hv).
    apply bind_inr in Hv as (question & Hget & Hv).
    apply bind_inr in Hv as ([] & Hsplit & [= <-]).
    apply getitem_dict in Hget as (items & -> & Hget).
    destruct question as [| | | | q | |]; try discriminate. eauto.
  - destruct H as [-> | [H | [message ->]]]; [by left | by right | by left].
Qed.

Section ReviewFacts.
Import Py OpenAIClient.

Lemma require_all_present (fields : list string) (review_data : pyval) (field : string) :
  require_all fields review_data = inr tt → field ∈ fields →
  Client.py_in field review_data = inr true.
Proof.
  induction fields as [| f fields IH]; intros Hall Hin; [by apply elem_of_nil in Hin |].
  cbn [require_all] in Hall. apply bind_inr in Hall as ([] & Hreq & Hall).
  apply elem_of_cons in Hin as [-> | Hin]; [by eapply require_present | by apply IH].
Qed.

Lemma ensure_list_dict (review_data : pyval) (key : string) (v : pyval) :
  ensure_list review_data key = inr v →
  ∃ items items' l,
    review_data = PDict items ∧ v = PDict items'
    ∧ ErrorHandler.dict_get items' key = Some (PList l)
    ∧ (∀ key', key' ≠ key →
         ErrorHandler.dict_get items' key' = ErrorHandler.dict_get items key').
Proof.
  unfold ensure_list. intros (value & Hget & Hv)%bind_inr.
  apply getitem_dict in Hget as (items & -> & Hget). exists items.
  destruct value as [| | | | | l |];
    try (injection Hv as <-; eexists _, _; split; [done |]; split; [done |];
         split; [apply dict_get_set |]; intros; by apply dict_get_set_ne).
  injection Hv as <-. exists items, l. done.
Qed.

End ReviewFacts.

Section ReviewShape.
Import Py OpenAIClient.

Lemma generate_ai_review_cases (create : nat → exn + string) :
  match generate_ai_review create with
  | Client.Return v => review_valid v
  | Client.Raise e => app_class e = Some Exceptions.ExternalAPIError
  | Client.Unmodelled => True
  end.
Proof.
  unfold generate_ai_review.
  match goal with
  | |- context [generation ?c ?f ?w ?p ?v] =>
      pose proof (generation_cases c f w p v) as H;
      destruct (generation c f w p v) as [v0 | e |]
  end; [| | done].
  - destruct H as (response & data & _ & _ & Hv).
    apply bind_inr in Hv as ([] & Hall & Hv).
    apply bind_inr in Hv as (d1 & H1 & Hv).
    apply bind_inr in Hv as (d2 & H2 & [= <-]).
    apply ensure_list_dict in H1 as (items & items1 & l1 & -> & -> & Hs1 & Hrest1).
    apply ensure_list_dict in H2 as (? & items2 & l2 & [= <-] & -> & Hs2 & Hrest2).
    exists items2. split; [reflexivity |]. split; [| split].
    + intros field Hfield.
      destruct (decide (field = "improvements")) as [-> | Hi]; [by rewrite Hs2 |].
      rewrite Hrest2 by done.
      destruct (decide (field = "strengths")) as [-> | Hs]; [by rewrite Hs1 |].
      rewrite Hrest1 by done.
      apply py_in_dict. by eapply require_all_present.
    + exists l1. by rewrite Hrest2.
    + eauto.
  - destruct H as [-> | [H | [message ->]]]; done.
Qed.

End ReviewShape.

(** X17.  The client's [generate_ai_review] returns a dict that holds all
    five fields of a review and in which the strengths and the
    improvements are lists: a value that is not a list is wrapped into
    a list of one.  It raises nothing but [ExternalAPIError].  The
    method of the scoring service hands the same dict on, raises
    nothing but [ScoringError], and refuses a task type other than
    task1 to task4 whatever the provider would do. *)
Theorem generate_ai_review_returns_review (create : nat → exn + string)
  (task_type user_transcript question : string) :
  match OpenAIClient.generate_ai_review create with
  | Client.Return v => review_valid v
  | Client.Raise e => app_class e = Some Exceptions.ExternalAPIError
  | Client.Unmodelled => True
  end
  ∧ match ScoringService.generate_ai_review create task_type user_transcript
            question with
    | Py.Returns v => review_valid v ∧ task_type ∈ ["task1"; "task2"; "task3"; "task4"]
    | Py.Raises e => app_class e = Some Exceptions.ScoringError
    | Py.Beyond => True
    end.
Proof.
  split; [apply generate_ai_review_cases |].
  unfold ScoringService.generate_ai_review.
  repeat (match goal with |- context [if ?b then _ else _] => destruct b eqn:? end;
          [reflexivity |]).
  unfold ScoringService.after_client.
  pose proof (generate_ai_review_cases create) as H.
  destruct (OpenAIClient.generate_ai_review create) as [data | e |];
    [| apply except_is_scoring_error | done].
  cbn. split; [exact H |].
  match goal with
  | Hb : negb (bool_decide _) = false |- _ =>
      apply negb_false_iff, bool_decide_eq_true_1 in Hb; exact Hb
  end.
Qed.

(** ** Transcription and speech *)

Section AudioFacts.
Import Py OpenAIClient.

Lemma transcribe_except_class (filename : string) (e : exn) :
  app_class (transcribe_except filename e) = Some Exceptions.SpeechProcessingError.
Proof. destruct e as [| | | [] |]; reflexivity. Qed.

Lemma transcribe_audio_once (create : string → nat → exn + string)
  (audio_file : list Byte.byte) (filename : string) :
  transcribe_audio create audio_file filename
  = (transcribe_audio_body create audio_file filename 1, 1%nat).
Proof.
  unfold transcribe_audio. cbn [Client.retrying].
  destruct (transcribe_audio_body create audio_file filename 1) as [e |] eqn:Hbody;
    [| reflexivity].
  unfold transcribe_audio_body in Hbody.
  destruct (transcribe_try create audio_file filename 1) as [[e' | t] f]; [| discriminate].
  injection Hbody as <-.
  pose proof (transcribe_except_class f e') as Hc.
  destruct (transcribe_except f e'); try discriminate. reflexivity.
Qed.

Lemma generate_speech_body_raises (create : pyval → string → nat → exn + list Byte.byte)
  (text : pyval) (voice : option string) (n : nat) (e : exn) :
  generate_speech_body create text voice n = inl e → ∃ message, e = TTSError message.
Proof.
  unfold generate_speech_body.
  destruct (create text _ n) as [[exc | | | [] | ] | ]; intros [= <-]; eauto.
Qed.

Lemma generate_speech_once (create : pyval → string → nat → exn + list Byte.byte)
  (text : pyval) (voice : option string) :
  generate_speech create text voice = (generate_speech_body create text voice 1, 1%nat).
Proof.
  unfold generate_speech. cbn [Client.retrying].
  destruct (generate_speech_body create text voice 1) as [e |] eqn:Hbody; [| reflexivity].
  destruct (generate_speech_body_raises _ _ _ _ _ Hbody) as [message ->]. reflexivity.
Qed.

End AudioFacts.

(** X18.  The client's [transcribe_audio] calls the provider at most once,
    whatever the decorator allows: each failure of the provider is
    turned into a [SpeechProcessingError], on which no retry is made.
    It returns the provider's first answer or raises
    [SpeechProcessingError].  For an empty audio the provider is not
    called at all: the error, the same for every provider, reads
    Unexpected error: Audio file is empty. *)
Theorem transcribe_audio_single_attempt (create : string → nat → exn + string)
  (audio_file : list Byte.byte) (filename : string) :
  let r := OpenAIClient.transcribe_audio create audio_file filename in
  snd r = 1%nat
  ∧ match fst r with
    | inr transcript =>
        audio_file ≠ []
        ∧ ∃ name, create name 1%nat = inr transcript
    | inl e => app_class e = Some Exceptions.SpeechProcessingError
    end
  ∧ (audio_file = [] →
     fst r = inl (OpenAIClient.SpeechProcessingError
                    "Unexpected error: Audio file is empty")).
Proof.
  cbv zeta. rewrite transcribe_audio_once. cbn [fst snd]. split; [reflexivity |].
  unfold OpenAIClient.transcribe_audio_body, OpenAIClient.transcribe_try. split.
  - destruct audio_file as [| b rest]; cbn [length Nat.eqb]; [reflexivity |].
    match goal with |- context [create ?f 1%nat] => destruct (create f 1%nat) eqn:Hc end;
      [apply transcribe_except_class | eauto].
  - intros ->. reflexivity.
Qed.

(** X19.  The client's [generate_speech] calls the provider once: every
    failure of the provider is turned into an [ExternalAPIError] for
    the service OpenAI TTS, on which no retry is made; a missing or
    empty voice is replaced by alloy. *)
Theorem generate_speech_single_attempt
  (create : pyval → string → nat → exn + list Byte.byte)
  (text : pyval) (voice : option string) :
  let r := OpenAIClient.generate_speech create text voice in
  let used := match voice with Some (String c v) => String c v | _ => "alloy" end in
  snd r = 1%nat
  ∧ match fst r with
    | inr audio_bytes => create text used 1%nat = inr audio_bytes
    | inl e =>
        ∃ exc, e = AppExc exc
               ∧ Exceptions.cls exc = Exceptions.ExternalAPIError
               ∧ Exceptions.service exc = Some "OpenAI TTS"
               ∧ ∃ failure, create text used 1%nat = inl failure
    end.
Proof.
  cbv zeta. rewrite generate_speech_once. cbn [fst snd]. split; [reflexivity |].
  destruct (OpenAIClient.generate_speech_body create text voice 1) as [e | b] eqn:Hbody.
  - destruct (generate_speech_body_raises _ _ _ _ _ Hbody) as [message ->].
    eexists. split; [reflexivity |]. split; [reflexivity |]. split; [reflexivity |].
    unfold OpenAIClient.generate_speech_body in Hbody.
    unfold Exceptions.or_str, OpenAIClient.tts_voice in Hbody.
    destruct (create text _ 1%nat) eqn:Hc; [eauto | discriminate].
  - unfold OpenAIClient.generate_speech_body in Hbody.
    unfold Exceptions.or_str, OpenAIClient.tts_voice in Hbody.
    destruct (create text _ 1%nat) as [[exc | | | [] | ] | ] eqn:Hc; try discriminate.
    by injection Hbody as <-.
Qed.

Section StripFacts.
Import PyStr.

Lemma rstrip_idem (s : string) : rstrip (rstrip s) = rstrip s.
Proof.
  induction s as [| c s IH]; [done |]. cbn [rstrip].
  destruct (rstrip s) as [| d r] eqn:Hr.
  - destruct (isspace c) eqn:Hc; [done |]. cbn [rstrip]. by rewrite Hc.
  - cbn [rstrip] in IH |- *. by rewrite IH.
Qed.

Lemma lstrip_idem (s : string) : lstrip (lstrip s) = lstrip s.
Proof.
  induction s as [| c s IH]; [done |]. cbn [lstrip].
  destruct (isspace c) eqn:Hc; [exact IH |]. cbn [lstrip]. by rewrite Hc.
Qed.

Lemma rstrip_lstrip (s : string) : rstrip (lstrip s) = lstrip (rstrip s).
Proof.
  induction s as [| c s IH]; [done |].
  destruct (isspace c) eqn:Hc.
  - cbn [lstrip rstrip]. rewrite Hc, IH.
    destruct (rstrip s) as [| d r]; [done |]. cbn [lstrip]. by rewrite Hc.
  - cbn [lstrip]. rewrite Hc. cbn [rstrip].
    destruct (rstrip s) as [| d r]; rewrite ?Hc; cbn [lstrip]; by rewrite Hc.
Qed.

Lemma strip_idem (s : string) : strip (strip s) = strip s.
Proof.
  unfold strip. by rewrite rstrip_lstrip, rstrip_idem, lstrip_idem.
Qed.

End StripFacts.

(** X27.  [transcribe_audio] of the speech service raises nothing but
    [SpeechProcessingError].  A transcript it returns is the provider's
    text stripped of surrounding white space and is not empty; the
    audio was not empty and not larger than 25 MB. *)
Theorem speech_transcript_is_stripped (create : string → nat → exn + string)
  (audio_file : list Byte.byte) (filename : string) :
  match SpeechService.transcribe_audio create audio_file filename with
  | inr transcript =>
      transcript ≠ ""
      ∧ PyStr.strip transcript = transcript
      ∧ (∃ name text, create name 1%nat = inr text ∧ transcript = PyStr.strip text)
      ∧ audio_file ≠ []
      ∧ (Z.of_nat (length audio_file) ≤ 25 * 1024 * 1024)%Z
  | inl e => app_class e = Some Exceptions.SpeechProcessingError
  end.
Proof.
  unfold SpeechService.transcribe_audio.
  destruct (SpeechService.transcribe_try create audio_file filename) as [e | r] eqn:Htry.
  - destruct (reraise_class Exceptions.SpeechProcessingError
                SpeechService.SpeechProcessingError
                "音声の文字起こし中に予期しないエラーが発生しました: " e)
      as [H | [message ->]]; [exact H | reflexivity].
  - unfold SpeechService.transcribe_try in Htry.
    apply raise_if_bind in Htry as (Hempty & Htry).
    apply raise_if_bind in Htry as (Hsize & Htry).
    apply bind_inr in Htry as (text & Hcall & Htry).
    apply raise_if_bind in Htry as (Hblank & [= <-]).
    apply orb_false_elim in Hblank as [_ Hlen].
    pose proof (transcribe_audio_once create audio_file filename) as Honce.
    rewrite Honce in Hcall. cbn [fst] in Hcall.
    split; [| split; [| split; [| split]]].
    + intros Heq. rewrite Heq in Hlen. discriminate.
    + apply strip_idem.
    + unfold OpenAIClient.transcribe_audio_body, OpenAIClient.transcribe_try in Hcall.
      rewrite Hempty in Hcall.
      match type of Hcall with
      | context [create ?f 1%nat] => destruct (create f 1%nat) eqn:Hc
      end; [discriminate |]. injection Hcall as ->. eauto.
    + intros ->. discriminate.
    + apply Z.ltb_ge in Hsize. exact Hsize.
Qed.

(** ** The problem generator *)

Section GeneratorFacts.
Import Py ProblemGenerator.
Variable create : nat → exn + string.
Variable speech_create : pyval → string → nat → exn + list Byte.byte.
Variable write_file : string → list Byte.byte → option exn.
Variable AUDIO_STORAGE_PATH : option string.
Variable uuid : string.
Variable now : string.
Variable draw : nat.

Lemma wrap_class (prefix : string) (e : exn) :
  app_class (wrap prefix e) = Some Exceptions.ProblemGenerationError.
Proof. reflexivity. Qed.

Lemma after_client_cases (prefix : string) (o : Client.outcome)
  (build : pyval → exn + pyval) :
  match after_client prefix o build with
  | Returns v => ∃ problem_data, o = Client.Return problem_data ∧ build problem_data = inr v
  | Raises e => app_class e = Some Exceptions.ProblemGenerationError
  | Beyond => o = Client.Unmodelled
  end.
Proof.
  unfold after_client. destruct o as [problem_data | e |]; [| done | done].
  destruct (build problem_data) as [e | v] eqn:Hb; [done | eauto].
Qed.

Lemma audio_url_cases (script : pyval) (audio_filename : string) :
  let url := audio_url_of speech_create write_file AUDIO_STORAGE_PATH script "alloy"
               audio_filename in
  (url = PNone ∨ url = PStr ("/audio/" +:+ audio_filename))
  ∧ ((∃ e, speech_create script "alloy" 1%nat = inl e) → url = PNone)
  ∧ ((∀ path audio_bytes, is_Some (write_file path audio_bytes)) → url = PNone).
Proof.
  cbv zeta. unfold audio_url_of. rewrite generate_speech_once. cbn [fst].
  destruct (OpenAIClient.generate_speech_body speech_create script (Some "alloy") 1)
    as [e | audio_bytes] eqn:Hbody.
  { split; [by left |]. done. }
  destruct (write_file _ audio_bytes) as [e |] eqn:Hw.
  { split; [by left |]. done. }
  split; [by right |]. split.
  - intros [e He]. unfold OpenAIClient.generate_speech_body in Hbody.
    cbn [Exceptions.or_str] in Hbody. rewrite He in Hbody.
    destruct e as [? | | | [] | ]; discriminate.
  - intros Hfail. specialize (Hfail (PyStrMore.os_path_join
                                       (audio_storage_path AUDIO_STORAGE_PATH)
                                       audio_filename) audio_bytes).
    rewrite Hw in Hfail. by destruct Hfail.
Qed.

Lemma select_random_topic_listed :
  _select_random_topic draw ∈ TOPIC_CATEGORIES.
Proof.
  unfold _select_random_topic. apply list_elem_of_In, nth_In.
  apply Nat.mod_upper_bound. discriminate.
Qed.

End GeneratorFacts.

(** X28.  [_generate_task4_problem] raises nothing but
    [ProblemGenerationError].  It returns only when the client's method
    returned a dict, and then the lecture script and the question of
    the problem are those of that dict; the other fields are fixed.
    The audio URL is [None] or the URL of the file lecture_<id>.mp3, and
    it is [None] whenever the speech provider fails or the file cannot
    be written: a failure of the speech never fails the generation. *)
Theorem task4_problem_outcome (create : nat → exn + string)
  (speech_create : pyval → string → nat → exn + list Byte.byte)
  (write_file : string → list Byte.byte → option exn)
  (AUDIO_STORAGE_PATH : option string) (uuid now : string) :
  match ProblemGenerator._generate_task4_problem create speech_create write_file
          AUDIO_STORAGE_PATH uuid now with
  | Py.Raises e => app_class e = Some Exceptions.ProblemGenerationError
  | Py.Returns v =>
      ∃ items lecture_script question audio_url,
        Client.generate_task4_problem create = Client.Return (PDict items)
        ∧ ErrorHandler.dict_get items "lecture_script" = Some lecture_script
        ∧ ErrorHandler.dict_get items "question" = Some question
        ∧ v = PDict [ ("problem_id", PStr uuid);
                      ("reading_text", PNone);
                      ("lecture_script", lecture_script);
                      ("lecture_audio_url", audio_url);
                      ("question", question);
                      ("topic_category", PStr "academic_lecture");
                      ("task_type", PStr "task4");
                      ("created_at", PStr now) ]
        ∧ (audio_url = PNone
           ∨ audio_url = PStr ("/audio/" +:+ "lecture_" +:+ uuid +:+ ".mp3"))
        ∧ ((∃ e, speech_create lecture_script "alloy" 1%nat = inl e) → audio_url = PNone)
        ∧ ((∀ path audio_bytes, is_Some (write_file path audio_bytes)) →
           audio_url = PNone)
  | Py.Beyond => True
  end.
Proof.
  unfold ProblemGenerator._generate_task4_problem.
  match goal with
  | |- context [ProblemGenerator.after_client ?p ?o ?b] =>
      pose proof (after_client_cases p o b) as H;
      destruct (ProblemGenerator.after_client p o b) as [v | e |]
  end; [| exact H | done].
  destruct H as (problem_data & Hclient & Hbuild).
  apply bind_inr in Hbuild as (lecture_script & Hl & Hbuild).
  apply bind_inr in Hbuild as (question & Hq & [= <-]).
  apply getitem_dict in Hl as (items & -> & Hl).
  apply getitem_dict in Hq as (? & [= <-] & Hq).
  exists items, lecture_script, question.
  eexists. split; [exact Hclient |]. split; [exact Hl |]. split; [exact Hq |].
  split; [reflexivity |].
  apply (audio_url_cases speech_create write_file AUDIO_STORAGE_PATH lecture_script
           ("lecture_" +:+ uuid +:+ ".mp3")).
Qed.

(** X29.  The generator closes the gap the client leaves.  When the raw
    answer of the model holds no opening brace, the client may hand back
    a parsed list or string, but [_generate_task4_problem] never returns
    a problem: the subscript on a value that is not a dict raises, and
    the failure leaves as [ProblemGenerationError]. *)
Theorem task4_problem_needs_a_record (create : nat → exn + string)
  (speech_create : pyval → string → nat → exn + list Byte.byte)
  (write_file : string → list Byte.byte → option exn)
  (AUDIO_STORAGE_PATH : option string) (uuid now : string) (response : string) :
  create 1%nat = inr response →
  PyStr.has_char "{" response = false →
  match ProblemGenerator._generate_task4_problem create speech_create write_file
          AUDIO_STORAGE_PATH uuid now with
  | Py.Raises e => app_class e = Some Exceptions.ProblemGenerationError
  | Py.Returns v => False
  | Py.Beyond => Client.parse_task4 response = Client.Unmodelled
  end.
Proof.
  intros Hcreate Hfree.
  assert (Hclient : Client.generate_task4_problem create = Client.parse_task4 response).
  { unfold Client.generate_task4_problem. rewrite call_gpt4_once. cbn [fst].
    unfold Client.call_gpt4_body. by rewrite Hcreate. }
  unfold ProblemGenerator._generate_task4_problem.
  match goal with
  | |- context [ProblemGenerator.after_client ?p ?o ?b] =>
      pose proof (after_client_cases p o b) as H;
      destruct (ProblemGenerator.after_client p o b) as [v | e |]
  end; [| exact H | congruence].
  destruct H as (problem_data & Hreturn & Hbuild).
  apply bind_inr in Hbuild as (lecture_script & Hl & _).
  apply getitem_dict in Hl as (items & -> & _).
  rewrite Hclient in Hreturn. unfold Client.parse_task4 in Hreturn.
  destruct (Json.loads _) as [[| |] | parsed] eqn:Hloads; try discriminate.
  destruct (Client.check_fields _ parsed); [discriminate |]. injection Hreturn as ->.
  apply loads_object in Hloads. apply has_char_clean in Hloads; [congruence | discriminate].
Qed.

Lemma task4_problem_needs_a_record_witness :
  ∃ e,
    ProblemGenerator._generate_task4_problem (λ _, inr Inputs.field_list_answer)
      (λ _ _ _, inr []) (λ _ _, None) None "0000" "2024-01-01T00:00:00"
    = Py.Raises e
    ∧ app_class e = Some Exceptions.ProblemGenerationError.
Proof.
  pose proof (task4_problem_needs_a_record (λ _, inr Inputs.field_list_answer)
                (λ _ _ _, inr []) (λ _ _, None) None "0000" "2024-01-01T00:00:00"
                Inputs.field_list_answer eq_refl eq_refl) as H.
  destruct (ProblemGenerator._generate_task4_problem _ _ _ _ _ _) as [v | e |].
  - destruct H.
  - exists e. split; [reflexivity | exact H].
  - vm_compute in H. discriminate.
Defined.

Section DispatchFacts.
Import Py ProblemGenerator.

Lemma dict_get_topic (a b c d e f g h : pyval) :
  ErrorHandler.dict_get
    [ ("problem_id", a); ("reading_text", b); ("lecture_script", c);
      ("lecture_audio_url", d); ("question", e); ("topic_category", f);
      ("task_type", g); ("created_at", h) ] "topic_category" = Some f.
Proof. reflexivity. Qed.

End DispatchFacts.

(** X30.  [generate_problem] of the service raises nothing but
    [ProblemGenerationError], for every task type and whatever the
    providers do, so a failure of the provider reaches the caller as a
    generation error, not as [ExternalAPIError].  A task type other than
    the four is refused without a call of the model.  A Task 3 problem
    that is returned names one of the ten topic categories, also when
    the caller asked for a topic that is not among them. *)
Theorem generate_problem_outcome (create : nat → exn + string)
  (speech_create : pyval → string → nat → exn + list Byte.byte)
  (write_file : string → list Byte.byte → option exn)
  (AUDIO_STORAGE_PATH : option string) (uuid now : string) (draw : nat)
  (task_type : string) (topic_category : option string) :
  let r := ProblemGenerator.generate_problem create speech_create write_file
             AUDIO_STORAGE_PATH uuid now draw task_type topic_category in
  (∀ e, r = Py.Raises e → app_class e = Some Exceptions.ProblemGenerationError)
  ∧ (task_type ∉ ["task1"; "task2"; "task3"; "task4"] →
     r = Py.Raises (ProblemGenerator.ProblemGenerationError
                      ("Failed to generate problem: Unsupported task type: "
                       +:+ task_type)))
  ∧ (task_type = "task3" →
     ∀ v, r = Py.Returns v →
          ∃ items topic,
            v = PDict items
            ∧ ErrorHandler.dict_get items "topic_category" = Some (PStr topic)
            ∧ topic ∈ ProblemGenerator.TOPIC_CATEGORIES
            ∧ (∀ given, topic_category = Some given →
                        given ∈ ProblemGenerator.TOPIC_CATEGORIES → topic = given)).
Proof.
  cbv zeta. split; [| split].
  - intros e. unfold ProblemGenerator.generate_problem.
    destruct (if String.eqb task_type "task1" then _ else _) as [v | e' |];
      intros [= <-]. reflexivity.
  - intros Hnot. unfold ProblemGenerator.generate_problem.
    repeat match goal with
      | |- context [String.eqb task_type ?t] =>
          destruct (String.eqb_spec task_type t) as [-> |];
          [exfalso; apply Hnot; set_solver |]
      end.
    reflexivity.
  - intros -> v. unfold ProblemGenerator.generate_problem. cbn [String.eqb Ascii.eqb].
    change (String.eqb "task3" "task1") with false.
    change (String.eqb "task3" "task2") with false.
    change (String.eqb "task3" "task3") with true. cbv iota.
    unfold ProblemGenerator._generate_task3_problem.
    match goal with
    | |- context [ProblemGenerator.after_client ?p ?o ?b] =>
        pose proof (after_client_cases p o b) as H;
        destruct (ProblemGenerator.after_client p o b) as [v' | e |]
    end; intros [= <-].
    destruct H as (problem_data & _ & Hbuild).
    apply bind_inr in Hbuild as (reading_text & _ & Hbuild).
    apply bind_inr in Hbuild as (lecture_script & _ & Hbuild).
    apply bind_inr in Hbuild as (question & _ & [= <-]).
    eexists _, _. split; [reflexivity |]. split; [apply dict_get_topic |]. split.
    + destruct topic_category as [topic |]; [| apply select_random_topic_listed].
      case_bool_decide; [done | apply select_random_topic_listed].
    + intros given -> Hgiven. by rewrite bool_decide_eq_true_2.
Qed.

(** ** The services on sample answers *)

(** A fenced scoring answer with the delivery score 3.9: the result
    holds the score 3. *)
Example evaluate_response_sample :
  ScoringService.evaluate_response (λ _, inr Samples.scoring_answer) (λ _, "")
    "my answer" None "a lecture" "a question"
  = Py.Returns
      {| ScoringService.overall_score := PInt 3;
         ScoringService.delivery :=
           {| ScoringService.score := PInt 3; ScoringService.feedback := PStr "clear" |};
         ScoringService.language_use :=
           {| ScoringService.score := PInt 2; ScoringService.feedback := PStr "simple" |};
         ScoringService.topic_development :=
           {| ScoringService.score := PInt 4;
              ScoringService.feedback := PStr "complete" |};
         ScoringService.improvement_tips := PList [PStr "slow down"] |}.
Proof. vm_compute. reflexivity. Qed.

(** A review with a single strength: the strength comes back as a list
    of one. *)
Example generate_ai_review_sample :
  OpenAIClient.generate_ai_review (λ _, inr Samples.review_answer)
  = Client.Return
      (PDict [ ("strengths", PList [PStr "fluent"]);
               ("improvements", PList [PStr "grammar"]);
               ("specific_suggestions", PStr "use linking words");
               ("score_improvement_tips", PStr "practise daily");
               ("improved_response", PStr "I think") ]).
Proof. vm_compute. reflexivity. Qed.

(** A model answer: the phrase of the unknown category becomes an
    example, the phrase without text is left out. *)
Example generate_model_answer_sample :
  ScoringService.generate_model_answer (λ _, inr Samples.model_answer) None "a lecture"
    "a question"
  = Py.Returns
      {| ScoringService.model_answer := PStr "The lecture says";
         ScoringService.highlighted_phrases :=
           [ {| ScoringService.text := PStr "First of all";
                ScoringService.category := PStr "example";
                ScoringService.useful_for_writing := true |} ] |}.
Proof. vm_compute. reflexivity. Qed.

(** A Task 3 problem for a topic that is not among the categories, with
    a speech provider that fails: the topic is drawn from the list and
    the problem comes without audio. *)
Example generate_problem_sample :
  ProblemGenerator.generate_problem (λ _, inr Samples.problem_answer)
    (λ _ _ _, inl (ProviderExc APIError "APIError" "quota")) (λ _ _, None) None
    "1b4e28ba" "2024-05-01T10:00:00" 12 "task3" (Some "astrology")
  = Py.Returns
      (PDict [ ("problem_id", PStr "1b4e28ba");
               ("reading_text", PStr "a passage");
               ("lecture_script", PStr "a lecture");
               ("lecture_audio_url", PNone);
               ("question", PStr "explain");
               ("topic_category", PStr "economics");
               ("task_type", PStr "task3");
               ("created_at", PStr "2024-05-01T10:00:00") ]).
Proof. vm_compute. reflexivity. Qed.

(** A recording named with the extension .webm is sent as .ogg, and its
    transcript comes back stripped. *)
Example transcribe_sample :
  SpeechService.transcribe_audio
    (λ filename _, if String.eqb filename "take1.ogg" then inr "  Hello there. "
                   else inl (OtherExc "ValueError" filename))
    [Byte.x00] "take1.webm"
  = inr "Hello there.".
Proof. vm_compute. reflexivity. Qed.

Section RateLimiterInvariants.
Import Http RateLimiter.
Variable call_next : Request → Response.

Lemma dispatch_history (self : RateLimitMiddleware) (request : Request) (t : Q)
  (k := _get_user_identifier request) :
  let self' := snd (dispatch call_next self request t) in
  requests_per_minute self' = requests_per_minute self
  ∧ window_size self' = window_size self
  ∧ (self' = self
     ∨ (request_history self' = <[k := kept self k t]> (request_history self)
        ∧ (requests_per_minute self ≤ Z.of_nat (length (kept self k t)))%Z)
     ∨ (request_history self' = <[k := (kept self k t ++ [t])%list]> (request_history self)
        ∧ (Z.of_nat (length (kept self k t)) < requests_per_minute self)%Z)).
Proof.
  cbv zeta. unfold dispatch. case_bool_decide as Hpath; [cbn; auto |].
  unfold _is_rate_limited. fold k. rewrite clean_history.
  cbn [requests_per_minute _clean_old_requests set_history window_size].
  destruct (Z.leb_spec (requests_per_minute self) (Z.of_nat (length (kept self k t))))
    as [Hfull | Hfree]; cbn [snd requests_per_minute window_size request_history].
  - split; [done |]. split; [done |]. right. left. done.
  - split; [done |]. split; [done |]. right. right. split; [| done].
    unfold set_history, _clean_old_requests. cbn. apply insert_insert_eq.
Qed.


(** X9.  The table never holds more timestamps of an identity than the
    capacity, unless it already did before the request. *)
Theorem history_within_capacity (self : RateLimitMiddleware) (request : Request) (t : Q)
  (k : string) :
  let self' := snd (dispatch call_next self request t) in
  (Z.of_nat (length (history_of self' k))
   ≤ Z.max (requests_per_minute self') (Z.of_nat (length (history_of self k))))%Z.
Proof.
  cbv zeta.
  destruct (dispatch_history self request t) as (Hc & _ & [-> | [[Hh Hfull] | [Hh Hfree]]]).
  - lia.
  - rewrite Hc. unfold history_of at 1. rewrite Hh.
    destruct (decide (_get_user_identifier request = k)) as [<- | Hk].
    + rewrite lookup_insert_eq. cbn [default from_option id].
      assert (length (kept self (_get_user_identifier request) t)
              ≤ length (history_of self (_get_user_identifier request)))%nat
        by (unfold kept; apply List.filter_length_le).
      lia.
    + rewrite lookup_insert_ne by done. fold (history_of self k). lia.
  - rewrite Hc. unfold history_of at 1. rewrite Hh.
    destruct (decide (_get_user_identifier request = k)) as [<- | Hk].
    + rewrite lookup_insert_eq. cbn [default from_option id]. rewrite length_app. cbn [length]. lia.
    + rewrite lookup_insert_ne by done. fold (history_of self k). lia.
Qed.

(** X10.  No identity is ever removed from the table, and every identity seen
    on a path that is not exempt is in it afterwards. *)
Theorem identities_are_never_forgotten (self : RateLimitMiddleware) (request : Request)
  (t : Q) :
  let self' := snd (dispatch call_next self request t) in
  dom (request_history self) ⊆ dom (request_history self')
  ∧ (path (url request) ∉ exempt_paths →
     _get_user_identifier request ∈ dom (request_history self')).
Proof.
  cbv zeta. split.
  - destruct (dispatch_history self request t) as (_ & _ & [-> | [[-> _] | [-> _]]]);
      [done | |]; set_solver.
  - intros Hpath. unfold dispatch. rewrite bool_decide_eq_false_2 by done.
    unfold _is_rate_limited.
    cbn [requests_per_minute _clean_old_requests set_history window_size].
    destruct (_ <=? _)%Z; cbn [snd request_history set_history]; set_solver.
Qed.

End RateLimiterInvariants.


Section IdentityFacts.
Import Http RateLimiter.

Lemma identifier_of_bearer (request : Request) (token : string) :
  req_headers request !! "authorization" = Some ("Bearer " +:+ token) →
  _get_user_identifier request = token.
Proof.
  intros H. unfold _get_user_identifier, headers_get.
  change (lower "Authorization") with "authorization". rewrite H. cbn [default from_option id].
  rewrite (startswith_append "Bearer " token).
  change (String.eqb ("Bearer " +:+ token) "") with false. cbn [negb andb].
  apply (drop_append "Bearer " token).
Qed.

End IdentityFacts.

(** X11.  The identities of tokens and of addresses are not kept apart: a
    request whose bearer token reads ip: followed by a host has the
    identity of the requests without token from that host, whatever its
    own address; off the exempt paths the two leave the limiter in the
    same state, so they draw on one quota. *)
Theorem bearer_token_can_name_an_address (host : string) (u u' : Http.URL)
  (address : option string) (call_next : Http.Request → Http.Response)
  (self : RateLimiter.RateLimitMiddleware) (t : Q) :
  let plain := {| Http.url := u; Http.req_headers := ∅; Http.client := Some host |} in
  let named :=
    {| Http.url := u';
       Http.req_headers := Http.headers_of [("Authorization", "Bearer ip:" +:+ host)];
       Http.client := address |} in
  RateLimiter._get_user_identifier named = "ip:" +:+ host
  ∧ RateLimiter._get_user_identifier plain = "ip:" +:+ host
  ∧ (Http.path u ∉ RateLimiter.exempt_paths → Http.path u' ∉ RateLimiter.exempt_paths →
     snd (RateLimiter.dispatch call_next self named t)
     = snd (RateLimiter.dispatch call_next self plain t)).
Proof.
  intros plain named.
  assert (Hnamed : RateLimiter._get_user_identifier named = "ip:" +:+ host).
  { apply identifier_of_bearer. subst named. cbn. unfold Http.headers_set.
    change (Http.lower "Authorization") with "authorization".
    apply lookup_insert_eq. }
  assert (Hplain : RateLimiter._get_user_identifier plain = "ip:" +:+ host) by reflexivity.
  split; [exact Hnamed |]. split; [exact Hplain |].
  intros Hu Hu'. unfold RateLimiter.dispatch.
  rewrite !bool_decide_eq_false_2 by done. rewrite Hnamed, Hplain.
  destruct (RateLimiter._is_rate_limited self ("ip:" +:+ host) t) as [self' [[] remaining]];
    reflexivity.
Qed.

Lemma bearer_token_can_name_an_address_witness :
  let u := Inputs.plain_url "api.example.org" in
  snd (RateLimiter.dispatch Inputs.ok_app (RateLimiter.init 5)
         {| Http.url := u;
            Http.req_headers := Http.headers_of [("Authorization", "Bearer ip:203.0.113.7")];
            Http.client := Some "198.51.100.1" |} 0)
  = snd (RateLimiter.dispatch Inputs.ok_app (RateLimiter.init 5)
           {| Http.url := u; Http.req_headers := ∅; Http.client := Some "203.0.113.7" |} 0).
Proof.
  cbv zeta.
  refine (proj2 (proj2 (bearer_token_can_name_an_address "203.0.113.7" _ _
                          (Some "198.51.100.1") Inputs.ok_app (RateLimiter.init 5) 0)) _ _);
    vm_compute; set_solver.
Defined.

(** X12.  The middlewares composed.  A request that the HTTPS policy
    redirects (production, a host that is not local, neither the scheme
    nor X-Forwarded-Proto https) is first counted by the rate limiter:
    with a free slot the redirect is returned with the rate-limit
    headers, its Location being the https URL in percent-encoded form,
    and the arrival is recorded against the identity; at capacity the
    answer is the 429 and no redirect is made; on an exempt path the
    redirect passes unrecorded. *)
Theorem stack_counts_redirected_requests (ENVIRONMENT : option string)
  (app : Http.Request → Http.Response) (limiter : RateLimiter.RateLimitMiddleware)
  (request : Http.Request) (t : Q) :
  default "development" ENVIRONMENT ≠ "development" →
  Http.hostname (Http.url request) ≠ Some "localhost" →
  Http.hostname (Http.url request) ≠ Some "127.0.0.1" →
  Http.scheme (Http.url request) ≠ "https" →
  Http.headers_get (Http.req_headers request) "X-Forwarded-Proto" "" ≠ "https" →
  RateLimiter.window_size limiter = 60%Z →
  let k := RateLimiter._get_user_identifier request in
  let capacity := RateLimiter.requests_per_minute limiter in
  let count := Z.of_nat (length (kept limiter k t)) in
  let location := Http.url_str (Http.replace_scheme (Http.url request) "https") in
  let r := Main.stack ENVIRONMENT app limiter request t in
  (Http.path (Http.url request) ∈ RateLimiter.exempt_paths →
   r = (Http.RedirectResponse location 301, limiter))
  ∧ (Http.path (Http.url request) ∉ RateLimiter.exempt_paths → (capacity ≤ count)%Z →
     Http.status_code (fst r) = 429%Z
     ∧ Http.headers (fst r) !! "location" = None
     ∧ RateLimiter.history_of (snd r) k = kept limiter k t)
  ∧ (Http.path (Http.url request) ∉ RateLimiter.exempt_paths → (count < capacity)%Z →
     Http.status_code (fst r) = 301%Z
     ∧ Http.body (fst r) = Http.NoBody
     ∧ Http.headers (fst r) !! "location"
       = Some (Http.quote location Http.redirect_safe)
     ∧ Http.headers (fst r) !! "x-ratelimit-remaining"
       = Some (PyStr.str_int (capacity - count - 1))
     ∧ RateLimiter.history_of (snd r) k = (kept limiter k t ++ [t])%list).
Proof.
  intros Henv Hlocal Hloop Hscheme Hproto Hwin k capacity count location r.
  pose proof (dispatch_insecure ENVIRONMENT app request Henv Hlocal Hloop Hscheme Hproto)
    as Hredirect. fold location in Hredirect.
  subst r. unfold Main.stack. split; [| split].
  - intros Hpath. rewrite dispatch_exempt by done. by rewrite Hredirect.
  - intros Hpath Hfull. rewrite dispatch_limited by done. cbn [fst snd].
    split; [reflexivity |]. split.
    + unfold RateLimiter.limited_response. header_lookup. 
    + fold k. rewrite history_of_set. by case_decide.
  - intros Hpath Hfree. rewrite dispatch_admitted by done. cbn [fst snd].
    fold k capacity count. rewrite Hredirect.
    destruct (admitted_response_headers (Http.RedirectResponse location 301) capacity
                (capacity - count - 1) t) as (Hs & Hb & _ & Hrem & _ & Hother).
    split; [exact Hs |]. split; [exact Hb |]. split; [| split; [exact Hrem |]].
    + rewrite Hother by set_solver. unfold Http.RedirectResponse. header_lookup.
    + rewrite history_of_set. by case_decide.
Qed.

(** The theorem at a request whose path holds a space. *)
Lemma stack_counts_redirected_requests_witness :
  let request :=
    {| Http.url := {| Http.scheme := "http"; Http.netloc := "api.example.org";
                      Http.hostname := Some "api.example.org";
                      Http.path := "/api/my file"; Http.query := "task=4" |};
       Http.req_headers := ∅; Http.client := Some "203.0.113.7" |} in
  let r := Main.stack (Some "production") Inputs.ok_app (RateLimiter.init 2) request 0 in
  Http.status_code (fst r) = 301%Z
  ∧ Http.headers (fst r) !! "location"
    = Some "https://api.example.org/api/my%20file?task=4"
  ∧ Http.headers (fst r) !! "x-ratelimit-remaining" = Some "1"
  ∧ RateLimiter.history_of (snd r) "ip:203.0.113.7" = [0%Q].
Proof.
  cbv zeta.
  destruct (stack_counts_redirected_requests (Some "production") Inputs.ok_app
              (RateLimiter.init 2)
              {| Http.url := {| Http.scheme := "http"; Http.netloc := "api.example.org";
                                Http.hostname := Some "api.example.org";
                                Http.path := "/api/my file"; Http.query := "task=4" |};
                 Http.req_headers := ∅; Http.client := Some "203.0.113.7" |} 0)
    as (_ & _ & H); try (vm_compute; congruence).
  destruct H as (Hs & _ & Hl & Hr & Hh); [vm_compute; set_solver | vm_compute; reflexivity |].
  split; [exact Hs |]. split; [exact Hl |]. split; [exact Hr |]. exact Hh.
Defined.

(** ** The sliding window over a whole run *)

Section WindowFacts.
Import Http RateLimiter.
Variable call_next : Request → Response.

Lemma filter_fresher (c c' : Q) (l : list Q) :
  (c <= c')%Q →
  List.filter (Qltb c') (List.filter (Qltb c) l) = List.filter (Qltb c') l.
Proof.
  intros Hc. induction l as [| a l IH]; [done |]. cbn [List.filter].
  destruct (Qltb c a) eqn:Ha; cbn [List.filter]; [by rewrite IH |].
  destruct (Qltb c' a) eqn:Ha'; [| exact IH].
  apply Qltb_lt in Ha'. assert (Qltb c a = true) by (apply Qltb_lt; lra). congruence.
Qed.

Lemma in_window_app (t : Q) (l l' : list Q) :
  in_window t (l ++ l')%list = (in_window t l ++ in_window t l')%list.
Proof. unfold in_window. apply List.filter_app. Qed.

Lemma in_window_fresh (t a : Q) (l : list Q) :
  (∀ x, x ∈ l → (x <= a)%Q) → (t - 60 < a)%Q → (a <= t)%Q →
  (length (in_window t l) ≤ length (List.filter (Qltb (a - 60)) l))%nat.
Proof.
  intros Hl Hlo Hhi. unfold in_window. induction l as [| x l IH]; [done |].
  assert (Hx : (x <= a)%Q) by (apply Hl; set_solver).
  assert (Hrest : ∀ y, y ∈ l → (y <= a)%Q) by (intros y Hy; apply Hl; set_solver).
  specialize (IH Hrest). cbn [List.filter].
  destruct (Qltb (t - 60) x && Qle_bool x t) eqn:Hw.
  - apply andb_prop in Hw as [Hw _]. apply Qltb_lt in Hw.
    assert (Qltb (a - 60) x = true) as -> by (apply Qltb_lt; lra). cbn [length]. lia.
  - destruct (Qltb (a - 60) x); cbn [length]; lia.
Qed.

(** The invariant of a run, with [L] the arrivals admitted so far: the
    stored history agrees with [L] on all that a coming arrival can
    see, no time of [L] lies after a coming arrival, and no window of 60
    seconds holds more than the capacity of them. *)
Lemma run_sparse (request : Request) :
  path (url request) ∉ exempt_paths →
  status_code (call_next request) ≠ 429%Z →
  let k := _get_user_identifier request in
  ∀ (times : list Q) (self : RateLimitMiddleware) (L : list Q),
    window_size self = 60%Z →
    StronglySorted Qle times →
    (∀ t', t' ∈ times →
       List.filter (Qltb (t' - 60)) (history_of self k)
       = List.filter (Qltb (t' - 60)) L) →
    (∀ a t', a ∈ L → t' ∈ times → (a <= t')%Q) →
    (∀ t, (Z.of_nat (length (in_window t L)) ≤ Z.max 0 (requests_per_minute self))%Z) →
    ∀ t, (Z.of_nat (length
                      (in_window t
                         (L ++ admitted_times (fst (run call_next self request times))
                                 times)%list))
          ≤ Z.max 0 (requests_per_minute self))%Z.
Proof.
  intros Hpath Hstatus k times.
  induction times as [| t0 times IH]; intros self L Hwin Hsorted Hagree Hbefore Hsparse t.
  { cbn. rewrite app_nil_r. apply Hsparse. }
  apply StronglySorted_inv in Hsorted as [Hsorted Hhead].
  rewrite Forall_forall in Hhead.
  assert (Hkept : kept self k t0 = List.filter (Qltb (t0 - 60)) L).
  { unfold kept. rewrite Hwin. change (inject_Z 60) with 60%Q. apply Hagree. set_solver. }
  cbn [run].
  destruct (decide (requests_per_minute self ≤ Z.of_nat (length (kept self k t0)))%Z)
    as [Hfull | Hfree].
  - rewrite dispatch_limited by done. cbn [fst snd].
    unfold admitted_times. cbn [zip zip_with List.filter fst].
    change (status_code (limited_response self t0) =? 429)%Z with true. cbn [negb].
    fold (admitted_times
            (fst (run call_next (set_history self k (kept self k t0)) request times))
            times).
    apply (IH (set_history self k (kept self k t0)) L); try done.
    + intros t' Ht'. rewrite history_of_set. case_decide; [| done].
      rewrite Hkept. apply filter_fresher.
      assert (t0 <= t')%Q by (by apply Hhead). lra.
    + intros a t' Ha Ht'. apply Hbefore; set_solver.
  - apply Z.nle_gt in Hfree. rewrite dispatch_admitted by done. cbn [fst snd].
    unfold admitted_times. cbn [zip zip_with List.filter fst].
    match goal with
    | |- context [status_code (admitted_response ?d ?c ?r ?a)] =>
        destruct (admitted_response_headers d c r a) as (Hs & _); rewrite Hs
    end. apply Z.eqb_neq in Hstatus. rewrite Hstatus. cbn [negb fmap list_fmap snd].
    fold (admitted_times
            (fst (run call_next (set_history self k (kept self k t0 ++ [t0])%list) request
                    times)) times).
    rewrite cons_middle, (assoc_L app L [t0]).
    apply (IH (set_history self k (kept self k t0 ++ [t0])%list) (L ++ [t0])%list); try done.
    + intros t' Ht'. rewrite history_of_set. case_decide; [| done].
      rewrite !List.filter_app. f_equal. rewrite Hkept. apply filter_fresher.
      assert (t0 <= t')%Q by (by apply Hhead). lra.
    + intros a t' [Ha | ->%list_elem_of_singleton]%elem_of_app Ht'.
      * apply Hbefore; set_solver.
      * by apply Hhead.
    + intros τ. cbn [requests_per_minute set_history]. rewrite in_window_app, length_app.
      unfold in_window at 2. cbn [List.filter].
      destruct (Qltb (τ - 60) t0 && Qle_bool t0 τ) eqn:Hw; cbn [length].
      * apply andb_prop in Hw as [Hlo Hhi]. apply Qltb_lt in Hlo.
        apply Qle_bool_iff in Hhi.
        pose proof (in_window_fresh τ t0 L) as Hfresh.
        rewrite <- Hkept in Hfresh.
        assert (length (in_window τ L) ≤ length (kept self k t0))%nat.
        { apply Hfresh; [| done | done]. intros x Hx. apply Hbefore; set_solver. }
        lia.
      * specialize (Hsparse τ). lia.
Qed.

End WindowFacts.

(** X8.  The guarantee of the sliding window.  In a sequential run of
    arrivals of one identity at times that do not decrease, on a path
    that is not exempt and starting with no stored timestamp of the
    identity, no window of 60 seconds (open at its start, closed at its
    end) holds more admitted arrivals than the capacity.  An arrival
    counts as admitted when its response is not a 429; the downstream
    application is taken not to answer 429 itself. *)
Theorem sliding_window_guarantee (call_next : Http.Request → Http.Response)
  (self : RateLimiter.RateLimitMiddleware) (request : Http.Request) (times : list Q) :
  RateLimiter.window_size self = 60%Z →
  Http.path (Http.url request) ∉ RateLimiter.exempt_paths →
  Http.status_code (call_next request) ≠ 429%Z →
  RateLimiter.history_of self (RateLimiter._get_user_identifier request) = [] →
  StronglySorted Qle times →
  let responses := fst (RateLimiter.run call_next self request times) in
  ∀ t, (Z.of_nat (length (in_window t (admitted_times responses times)))
        ≤ Z.max 0 (RateLimiter.requests_per_minute self))%Z.
Proof.
  intros Hwin Hpath Hstatus Hfresh Hsorted responses t.
  apply (run_sparse call_next request Hpath Hstatus times self [] Hwin Hsorted).
  - intros t' _. by rewrite Hfresh.
  - intros a t' Ha. by apply elem_of_nil in Ha.
  - intros τ. cbn. lia.
Qed.

(** The theorem on a run with capacity 2 that passes the edge of a
    window: of the arrivals at 0, 0.5, 1, 60 and 60 the window that ends
    at 60 holds two admitted ones. *)
Lemma sliding_window_guarantee_witness :
  let times := [0; 1 # 2; 1; 60; 60]%Q in
  let responses :=
    fst (RateLimiter.run Inputs.ok_app (RateLimiter.init 2) Inputs.token_request times) in
  (Z.of_nat (length (in_window 60 (admitted_times responses times))) ≤ 2)%Z.
Proof.
  cbv zeta.
  apply (sliding_window_guarantee Inputs.ok_app (RateLimiter.init 2) Inputs.token_request
           [0; 1 # 2; 1; 60; 60]%Q).
  - reflexivity.
  - vm_compute. set_solver.
  - vm_compute. discriminate.
  - reflexivity.
  - repeat (constructor; [| repeat constructor; vm_compute; discriminate]). constructor.
Defined.

(** ** Cleanup for one session, and the completeness of the sweep *)

(** X13.  [schedule_audio_cleanup] for a session looks at one path, the
    storage path joined with lecture_<session>.mp3 as [Path] joins
    them.  It changes no place but the one that this path names, and
    that one only by unlinking the regular file there, returning true.
    When it returns true the path exists no more; when it returns
    false no file was changed; when the path does not exist it returns
    true; and once it has returned true a further call returns true. *)
Theorem schedule_audio_cleanup_one_file (AUDIO_STORAGE_PATH : option string)
  (w : Fs.world) (session_id : string) (audio_storage_path : option string) :
  let audio_file :=
    PathLib.joinpath
      (PathLib.Path (AudioCleanup.storage_of AUDIO_STORAGE_PATH audio_storage_path))
      ("lecture_" +:+ session_id +:+ ".mp3") in
  let r :=
    AudioCleanup.schedule_audio_cleanup AUDIO_STORAGE_PATH w session_id
      audio_storage_path in
  (∀ q, Fs.files (snd r) !! q ≠ Fs.files w !! q →
        fst r = true
        ∧ Fs.files (snd r) !! q = None
        ∧ ∃ n, Fs.locate w audio_file = inr (q, n) ∧ Fs.kind n = Fs.RegularFile)
  ∧ (fst r = true → Fs.exists_ (snd r) audio_file = inr false)
  ∧ (fst r = false → Fs.files (snd r) = Fs.files w)
  ∧ (Fs.exists_ w audio_file = inr false →
     fst r = true ∧ Fs.files (snd r) = Fs.files w)
  ∧ (fst r = true →
     fst (AudioCleanup.schedule_audio_cleanup AUDIO_STORAGE_PATH (snd r) session_id
            audio_storage_path) = true).
Proof.
  cbv zeta. set (af := PathLib.joinpath _ _).
  assert (Hnormal : normal af) by apply joinpath_normal, Path_normal.
  (* the outcomes of one call *)
  assert (Hcases : ∀ w0 : Fs.world,
    let r := AudioCleanup.schedule_audio_cleanup AUDIO_STORAGE_PATH w0 session_id
               audio_storage_path in
    (fst r = false ∧ Fs.files (snd r) = Fs.files w0 ∧ Fs.exists_ w0 af ≠ inr false)
    ∨ (fst r = true ∧ Fs.files (snd r) = Fs.files w0 ∧ Fs.cwd (snd r) = Fs.cwd w0
       ∧ Fs.exists_ w0 af = inr false)
    ∨ (fst r = true ∧ Fs.cwd (snd r) = Fs.cwd w0
       ∧ Fs.exists_ w0 af = inr true
       ∧ ∃ key n, Fs.locate w0 af = inr (key, n) ∧ Fs.kind n = Fs.RegularFile
                  ∧ Fs.files (snd r) = delete key (Fs.files w0))).
  { intros w0. cbv zeta. unfold AudioCleanup.schedule_audio_cleanup. fold af.
    destruct (Fs.exists_ w0 af) as [e | []] eqn:Hex.
    - left. done.
    - pose proof (cleanup_cases w0 (PathLib.str af)) as Hc. cbv zeta in Hc.
      rewrite (Path_str af Hnormal) in Hc.
      destruct (AudioCleanup.cleanup_audio_file w0 (PathLib.str af)) as [[e | [|]] w1];
        cbn [fst snd] in *; destruct Hc as [Hcwd Hc].
      + left. destruct Hc as [[? _] | (? & _)]; done.
      + right. right. destruct Hc as [[_ Habs] | (_ & _ & key & n & ? & _ & ? & _ & ?)].
        * destruct Habs as [_ ?]; [done | congruence].
        * split; [done |]. split; [done |]. split; [done |]. eauto.
      + left. destruct Hc as [[? _] | (? & _)]; done.
    - right. left. done. }
  split; [| split; [| split; [| split]]].
  - intros q Hchanged.
    destruct (Hcases w)
      as [(_ & Hf & _) | [(_ & Hf & _) | (Htrue & _ & _ & key & n & Hloc & Hk & Hf)]];
      [by rewrite Hf in Hchanged | by rewrite Hf in Hchanged |].
    rewrite Hf in Hchanged |- *.
    destruct (decide (q = key)) as [-> | Hne];
      [| by rewrite lookup_delete_ne in Hchanged].
    split; [done |]. split; [apply lookup_delete_eq | eauto].
  - intros Htrue.
    destruct (Hcases w)
      as [(Hfalse & _) | [(_ & Hf & Hc & Hex) | (_ & Hc & _ & key & n & Hloc & Hk & Hf)]].
    + congruence.
    + by rewrite (exists_ext w).
    + by eapply (gone_after_delete w).
  - intros Hfalse.
    destruct (Hcases w) as [(_ & Hf & _) | [(Htrue & _) | (Htrue & _)]]; [done | congruence ..].
  - intros Hex.
    destruct (Hcases w) as [(_ & _ & Hno) | [(Htrue & Hf & _) | (_ & _ & Hyes & _)]];
      [done | done | congruence].
  - intros Htrue.
    assert (Hgone : Fs.exists_
                      (snd (AudioCleanup.schedule_audio_cleanup AUDIO_STORAGE_PATH w
                              session_id audio_storage_path)) af = inr false).
    { destruct (Hcases w)
        as [(Hfalse & _) | [(_ & Hf & Hc & Hex) | (_ & Hc & _ & key & n & Hloc & Hk & Hf)]].
      - congruence.
      - by rewrite (exists_ext w).
      - by eapply (gone_after_delete w). }
    destruct (Hcases (snd (AudioCleanup.schedule_audio_cleanup AUDIO_STORAGE_PATH w
                             session_id audio_storage_path)))
      as [(_ & _ & Hno) | [(? & _) | (? & _)]]; done.
Qed.

(** The cleanup for a session in the example directory, the storage
    path given with a slash at its end. *)
Example schedule_audio_cleanup_example :
  let r := AudioCleanup.schedule_audio_cleanup None Disk.storage "old" (Some "audio/") in
  fst r = true
  ∧ Fs.files (snd r) !! ["srv"; "app"; "audio"; "lecture_old.mp3"] = None
  ∧ fst (AudioCleanup.schedule_audio_cleanup None Disk.storage "locked" (Some "./audio"))
    = false
  ∧ fst (AudioCleanup.schedule_audio_cleanup None Disk.storage "none" (Some "audio"))
    = true.
Proof. vm_compute. done. Qed.

(** X14.  The sweep is complete.  When the storage path names a
    directory that the process may look at, search and list, every
    entry of it whose name matches lecture_*.mp3, that is a regular
    file older than the cutoff which can be looked at and unlinked, and
    whose path is shorter than the system's limit, is gone afterwards,
    and the count returned is at least 1. *)
Theorem sweep_removes_every_old_lecture_file (AUDIO_STORAGE_PATH : option string)
  (w : Fs.world) (audio_storage_path : option string) (max_age_hours : Z) (now : Q)
  (dir : list string) (d : Fs.node) (name : string) (n : Fs.node)
  (cutoff_time : pyfloat) :
  let storage_path :=
    PathLib.Path (AudioCleanup.storage_of AUDIO_STORAGE_PATH audio_storage_path) in
  Fs.locate w storage_path = inr (dir, d) →
  Fs.kind d = Fs.Directory →
  Fs.stat_error d = None → Fs.search_error d = None → Fs.scandir_error d = None →
  AudioCleanup.cutoff now max_age_hours = inr cutoff_time →
  Fs.valid_name name = true →
  AudioCleanup.glob_match name = true →
  (Fs.byte_length (PathLib.str (PathLib.child storage_path name)) < Fs.PATH_MAX)%nat →
  Fs.files w !! (dir ++ [name])%list = Some n →
  Fs.kind n = Fs.RegularFile →
  Fs.stat_error n = None → Fs.unlink_error n = None →
  PyFloat.lt (Fs.st_mtime n) cutoff_time = true →
  let r :=
    AudioCleanup.cleanup_old_audio_files AUDIO_STORAGE_PATH w audio_storage_path
      max_age_hours now in
  Fs.files (snd r) !! (dir ++ [name])%list = None ∧ (1 ≤ fst r)%nat.
Proof.
  intros sp Hloc Hk Hse Hsearch Hscan Hcut Hvalid Hmatch Hlen Hn Hreg Hnse Hnu Hold r.
  assert (Hgone : Fs.files (snd r) !! (dir ++ [name])%list = None).
  { subst r. unfold AudioCleanup.cleanup_old_audio_files. fold sp.
    assert (Hstat : Fs.stat w sp = inr d) by (apply stat_inr; eauto).
    unfold Fs.exists_. rewrite Hstat, Hcut, (glob_lists w sp dir d) by done.
    pose proof Hloc as (Hnul & _ & Hwalk & Hd)%locate_inr.
    pose proof (sweep_deletes cutoff_time sp w dir (Path_normal _) Hwalk name n) as Hdel.
    destruct (AudioCleanup.sweep _ _ w 0) as [deleted_count w'] eqn:Hsweep.
    cbn [fst snd Fs.files Fs.logger].
    change w' with (snd (deleted_count, w')). rewrite <- Hsweep.
    apply Hdel; try done.
    - apply str_child_chars; [done | done |].
      unfold Fs.valid_name in Hvalid. rewrite !andb_true_iff, !negb_true_iff in Hvalid.
      tauto.
    - unfold Fs.enter. by rewrite Hd, Hk, Hsearch.
    - apply shrunk_refl.
    - apply listed_valid.
    - apply list_elem_of_In, filter_In. split; [| done].
      apply list_elem_of_In, entries_spec. eauto. }
  split; [exact Hgone |].
  (* the count is the number of places that became free *)
  assert (Hcount : fst r = size (dom (Fs.files w) ∖ dom (Fs.files (snd r)))).
  { subst r. unfold AudioCleanup.cleanup_old_audio_files. fold sp.
    assert (Hstat : Fs.stat w sp = inr d) by (apply stat_inr; eauto).
    unfold Fs.exists_. rewrite Hstat, Hcut, (glob_lists w sp dir d) by done.
    pose proof Hloc as (_ & _ & Hwalk & _)%locate_inr.
    pose proof (sweep_spec cutoff_time sp w dir (Path_normal _) Hwalk
                  (List.filter AudioCleanup.glob_match (Fs.entries w dir)) w 0
                  (shrunk_refl w) (listed_valid w dir)) as (_ & _ & Hc).
    destruct (AudioCleanup.sweep _ _ w 0) as [deleted_count w'].
    cbn [fst snd Fs.files Fs.logger] in *. by rewrite Hc. }
  rewrite Hcount.
  assert (Hin : (dir ++ [name])%list ∈ dom (Fs.files w) ∖ dom (Fs.files (snd r))).
  { apply elem_of_difference. split; [apply elem_of_dom; eauto |].
    by apply not_elem_of_dom. }
  assert (size (dom (Fs.files w) ∖ dom (Fs.files (snd r))) ≠ 0%nat).
  { intros H0%size_empty_inv. set_solver. }
  lia.
Qed.

(** The theorem at the old lecture file of the example directory, the
    storage path given with a dot and a slash at its end. *)
Lemma sweep_removes_every_old_lecture_file_witness :
  let r := AudioCleanup.cleanup_old_audio_files None Disk.storage (Some "./audio/")
             24 100000 in
  Fs.files (snd r) !! ["srv"; "app"; "audio"; "lecture_old.mp3"] = None
  ∧ (1 ≤ fst r)%nat.
Proof.
  cbv zeta.
  apply (sweep_removes_every_old_lecture_file None Disk.storage (Some "./audio/")
           24 100000 ["srv"; "app"; "audio"] Disk.directory "lecture_old.mp3"
           (Disk.plain_file 1000) (FFinite 13600));
    try reflexivity.
  apply Nat.ltb_lt. vm_compute. reflexivity.
Defined.
